(** * Aurora performance tester: a shallow embedding of [aurora_perf.py]

    The development follows the Python module top to bottom:

    - the slice of the Python runtime the module relies on
      ([collections.deque] with a [maxlen], exceptions and [except Exception],
      [statistics.mean] and [statistics.quantiles], true division);
    - the data classes [TestConfig] and [TestResult] and the mutable fields of
      [AuroraPerformanceTester];
    - [perform_operation], written in a small state-and-exception monad over
      the wall clock and the replies of the record store;
    - the recording block of [worker], the computations of [metrics_reporter]
      and [print_final_results];
    - the asyncio tasks ([worker], [metrics_reporter], [run_test]) as a
      transition system whose steps are the segments that run between two
      suspension points of the cooperative scheduler;
    - the setup phase ([generate_vin], [populate_test_data],
      [setup_test_table], [initialize], [close], [main]) in a second monad
      over the vehicle table, the pool and the requests sent to the server,
      any of which may fail.

    Conventions.  Python [int] is [Z].  Python [float] is idealised to the
    exact rationals [Qc]: rounding is not modelled.  Lengths and indices are
    [nat]. *)

From stdpp Require Import base option list numbers strings sorting pretty
  gmap.
From Stdlib Require Import QArith Qcanon.
From Stdlib.Strings Require Import Byte Ascii.

Open Scope Z_scope.

(** ** Python runtime *)

Module Py.

(** *** Exceptions

    The exception classes that occur in the module or can reach it from the
    record store.  [CancelledError] and [KeyboardInterrupt] derive from
    [BaseException] only; every other class listed derives from
    [Exception]. *)
Inductive exn : Type :=
| StatisticsError
| ZeroDivisionError
| IndexError
| ValueError
| TypeError
| AttributeError
| PostgresError (message : string)
| InterfaceError (message : string)
| OSError (message : string)
| TimeoutError
| CancelledError
| KeyboardInterrupt.

(** [isinstance(e, Exception)] *)
Definition is_Exception (e : exn) : bool :=
  match e with
  | CancelledError | KeyboardInterrupt => false
  | _ => true
  end.

(** How the evaluation of an expression or a call ends. *)
Inductive res (A : Type) : Type :=
| Normal (a : A)
| Raised (e : exn).
Arguments Normal {A} _.
Arguments Raised {A} _.

#[global] Instance res_ret : MRet res := λ A a, Normal a.
#[global] Instance res_bind : MBind res := λ A B f m,
  match m with
  | Normal a => f a
  | Raised e => Raised e
  end.

#[global] Instance res_fmap : FMap res := λ A B f m,
  match m with
  | Normal a => Normal (f a)
  | Raised e => Raised e
  end.

Definition is_Normal {A : Type} (r : res A) : bool :=
  match r with Normal _ => true | Raised _ => false end.

(** *** Numbers *)

(** [float(n)] for an [int] [n] *)
Definition float (n : Z) : Qc := Qc_of_Z n.

(** [a / b] on floats *)
Definition truediv (a b : Qc) : res Qc :=
  if decide (b = 0%Qc) then Raised ZeroDivisionError else Normal (a / b)%Qc.

(** *** Lists *)

(** [l[i]]: a negative index counts from the right *)
Definition subscript {A : Type} (l : list A) (i : Z) : res A :=
  let k := if decide (i < 0) then i + Z.of_nat (length l) else i in
  if decide (k < 0) then Raised IndexError
  else match l !! Z.to_nat k with
       | Some x => Normal x
       | None => Raised IndexError
       end.

(** [l[-k:]] for a positive literal [k] *)
Definition last_slice {A : Type} (k : nat) (l : list A) : list A :=
  drop (length l - k) l.

(** [range(a, b)] *)
Definition range (a b : Z) : list Z := seqZ a (b - a).

(** [sorted(data)] *)
Definition sorted (data : list Qc) : list Qc := merge_sort Qcle data.

(** [min(l)] and [max(l)] *)
Definition min (l : list Qc) : res Qc :=
  match l with
  | [] => Raised ValueError
  | x :: l' => Normal (foldl (λ m y, if decide (y < m)%Qc then y else m) x l')
  end.

Definition max (l : list Qc) : res Qc :=
  match l with
  | [] => Raised ValueError
  | x :: l' => Normal (foldl (λ m y, if decide (m < y)%Qc then y else m) x l')
  end.

(** *** [statistics] *)

Definition sum (data : list Qc) : Qc := foldr Qcplus 0%Qc data.

(** [statistics.mean(data)] *)
Definition mean (data : list Qc) : res Qc :=
  let n := Z.of_nat (length data) in
  if decide (n < 1) then Raised StatisticsError
  else truediv (sum data) (float n).

(** [statistics.quantiles(data, n=n)], with the default
    [method='exclusive'] *)
Definition quantiles (data : list Qc) (n : Z) : res (list Qc) :=
  if decide (n < 1) then Raised StatisticsError else
  let data := sorted data in
  let ld := Z.of_nat (length data) in
  if decide (ld < 2) then Raised StatisticsError else
  let m := ld + 1 in
  mapM (λ i : Z,
          let j := (i * m) `div` n in
          let j := if decide (j < 1) then 1
                   else if decide (ld - 1 < j) then ld - 1 else j in
          let delta := i * m - j * n in
          lo ← subscript data (j - 1);
          hi ← subscript data j;
          truediv (lo * float (n - delta) + hi * float delta)%Qc (float n))
       (range 1 n).

(** *** [collections.deque(maxlen=...)] *)

(** A bounded deque: [maxlen] is fixed at construction, [items] holds the
    elements from the left (oldest) to the right (newest). *)
Record deque (A : Type) : Type := Deque {
  maxlen : nat;
  items : list A
}.
Arguments Deque {A} _ _.
Arguments maxlen {A} _.
Arguments items {A} _.

(** [deque(maxlen=n)] *)
Definition deque_new {A : Type} (n : nat) : deque A := Deque n [].

(** [d.append(x)]: the element is added on the right and, when the deque
    then holds more than [maxlen] elements, one element is removed from
    the left. *)
Definition deque_append {A : Type} (d : deque A) (x : A) : deque A :=
  let grown := items d ++ [x] in
  Deque (maxlen d)
        (if decide (maxlen d < length grown)%nat then drop 1 grown else grown).

(** [len(d)] and the truth value of [d] in a condition. *)
Definition len {A : Type} (d : deque A) : nat := length (items d).
Definition truthy {A : Type} (d : deque A) : bool :=
  bool_decide (items d ≠ []).

End Py.

(** ** Data classes *)

Record TestConfig : Type := mkTestConfig {
  host : string;
  port : Z;
  database : string;
  username : string;
  password : string;
  ssl_mode : string;
  workers : Z;
  duration : Z;
  pool_size : Z;
  table_name : string;
  initial_records : Z;
  recreate_table : bool
}.

Record TestResult : Type := mkTestResult {
  success : bool;
  result_duration : Qc;
  timestamp : Qc;
  worker_id : nat
}.

(** ** The record store and the clock

    The store is an external collaborator: what it answers to the calls of one
    attempt is an input.  A call either returns or raises.  [on_acquire] is
    the entry of [async with self.pool.acquire() as conn], [on_release] its
    exit; [on_fetchval], [on_fetchrow] and [on_execute] are the three
    statements sent over the connection; [on_urandom] is [os.urandom(1024)]. *)

Record Row : Type := mkRow {
  row_vin : string;
  row_entries_compressed : list byte;
  row_brand : string
}.

Record StoreBehaviour : Type := mkStoreBehaviour {
  on_acquire : Py.res unit;
  on_fetchval : Py.res (option string);
  on_fetchrow : string → Py.res (option Row);
  on_urandom : Py.res (list byte);
  on_execute : list byte → string → Py.res unit;
  on_release : Py.res unit
}.

(** What a task meets while it runs from one suspension point to the next:
    the successive readings of [time.time()] and the answers of the store. *)
Record Env : Type := mkEnv {
  clock : nat → Qc;
  store : StoreBehaviour
}.

(** ** What the program prints *)

Record MetricsSample : Type := mkMetricsSample {
  ms_total_operations : Z;
  ms_success_rate : Qc;
  ms_throughput : Qc;
  ms_avg_latency : Qc;
  ms_p95_latency : Qc;
  ms_elapsed : Qc
}.

Record FinalReport : Type := mkFinalReport {
  fr_total_operations : Z;
  fr_successful_operations : Z;
  fr_failed_operations : Z;
  fr_success_rate : Qc;
  fr_throughput : Qc;
  fr_elapsed : Qc;
  fr_avg_latency : Qc;
  fr_min_latency : Qc;
  fr_max_latency : Qc;
  fr_p95_latency : Qc;
  fr_p99_latency : Qc
}.

Inductive output : Type :=
| StartBanner (n_workers : Z) (seconds : Z) (table : string)
| WorkerLine (id : nat) (operations : Z)
| MetricsLine (m : MetricsSample)
| FinalResults (r : FinalReport).

(** ** The mutable fields of [AuroraPerformanceTester]

    [start_time] is [None] until [run_test] sets it.  The connection pool is
    not a field here: what the pool and its connections answer is an input of
    [perform_operation]. *)

Record Tester : Type := mkTester {
  config : TestConfig;
  results : Py.deque TestResult;
  total_operations : Z;
  successful_operations : Z;
  failed_operations : Z;
  start_time : option Qc;
  running : bool
}.

(** [AuroraPerformanceTester.__init__] *)
Definition init (cfg : TestConfig) : Tester :=
  {| config := cfg;
     results := Py.deque_new 1000;
     total_operations := 0;
     successful_operations := 0;
     failed_operations := 0;
     start_time := None;
     running := false |}.

(** ** The effect monad

    State: the tester object, how many clock readings were taken and what was
    printed.  Result: a value or a raised exception. *)

Record World : Type := mkWorld {
  env : Env;
  clock_reads : nat;
  stdout : list output;
  self_of : Tester
}.

Definition M (A : Type) : Type := World → Py.res A * World.

#[global] Instance M_ret : MRet M := λ A a w, (Py.Normal a, w).
#[global] Instance M_bind : MBind M := λ A B f m w,
  match m w with
  | (Py.Normal a, w1) => f a w1
  | (Py.Raised e, w1) => (Py.Raised e, w1)
  end.

Definition raise {A : Type} (e : Py.exn) : M A := λ w, (Py.Raised e, w).

Definition lift {A : Type} (r : Py.res A) : M A := λ w, (r, w).

(** [time.time()] *)
Definition time_time : M Qc := λ w,
  (Py.Normal (clock (env w) (clock_reads w)),
   mkWorld (env w) (S (clock_reads w)) (stdout w) (self_of w)).

(** [print(...)] *)
Definition print (o : output) : M unit := λ w,
  (Py.Normal (), mkWorld (env w) (clock_reads w) (stdout w ++ [o]) (self_of w)).

(** Reading and updating the fields of [self]. *)
Definition get_self : M Tester := λ w, (Py.Normal (self_of w), w).
Definition set_self (t : Tester) : M unit := λ w,
  (Py.Normal (), mkWorld (env w) (clock_reads w) (stdout w) t).

(** A call to the store: its answer comes from the environment. *)
Definition store_call {A : Type} (answer : StoreBehaviour → Py.res A) : M A :=
  λ w, (answer (store (env w)), w).

(** [try: body  except Exception as e: handler] *)
Definition try_except_Exception {A : Type} (body : M A) (handler : Py.exn → M A)
  : M A := λ w,
  match body w with
  | (Py.Normal a, w1) => (Py.Normal a, w1)
  | (Py.Raised e, w1) =>
      if Py.is_Exception e then handler e w1 else (Py.Raised e, w1)
  end.

(** [async with self.pool.acquire() as conn: body].  The exit releases the
    connection whether [body] returned or raised, and does not suppress an
    exception; an exception of the release replaces the outcome of [body]. *)
Definition async_with_acquire {A : Type} (body : M A) : M A := λ w,
  match store_call on_acquire w with
  | (Py.Raised e, w1) => (Py.Raised e, w1)
  | (Py.Normal _, w1) =>
      match body w1 with
      | (r, w2) =>
          match store_call on_release w2 with
          | (Py.Normal _, w3) => (r, w3)
          | (Py.Raised e, w3) => (Py.Raised e, w3)
          end
      end
  end.

(** Run a segment on a tester in an environment, starting from the first
    clock reading and with nothing printed. *)
Definition run {A : Type} (m : M A) (e : Env) (t : Tester) : Py.res A * World :=
  m (mkWorld e 0 [] t).

(** ** [modify_vehicle_data] *)

Definition modify_vehicle_data (original_data : list byte) (brand vin : string)
  : M (list byte) :=
  store_call on_urandom.

(** ** [perform_operation]

    [perform_operation_try] is the [try] statement, entered once
    [start_time = time.time()] has been evaluated.  [not vin] holds for
    [None] and for the empty string; [not row] holds for [None] only, a
    record of three columns being true. *)

Definition perform_operation_try (worker_id : nat) (start_time : Qc)
  : M TestResult :=
  try_except_Exception
    (async_with_acquire
       (vin ← store_call on_fetchval;
        match vin with
        | None | Some EmptyString =>
            now ← time_time;
            mret (mkTestResult false (now - start_time)%Qc start_time worker_id)
        | Some vin =>
            row ← store_call (λ s, on_fetchrow s vin);
            match row with
            | None =>
                now ← time_time;
                mret (mkTestResult false (now - start_time)%Qc
                                   start_time worker_id)
            | Some row =>
                modified_data ←
                  modify_vehicle_data (row_entries_compressed row)
                                      (row_brand row) (row_vin row);
                store_call (λ s, on_execute s modified_data vin);;
                now ← time_time;
                mret (mkTestResult true (now - start_time)%Qc
                                   start_time worker_id)
            end
        end))
    (λ e,
       now ← time_time;
       mret (mkTestResult false (now - start_time)%Qc start_time worker_id)).

Definition perform_operation (worker_id : nat) : M TestResult :=
  start_time ← time_time;
  perform_operation_try worker_id start_time.

(** ** [worker]: the block under [# Record result]

    It contains no [await], so the scheduler runs it in one piece. *)

Definition record_result (self : Tester) (result : TestResult) : Tester :=
  {| config := config self;
     results := Py.deque_append (results self) result;
     total_operations := total_operations self + 1;
     successful_operations :=
       if success result then successful_operations self + 1
       else successful_operations self;
     failed_operations :=
       if success result then failed_operations self
       else failed_operations self + 1;
     start_time := start_time self;
     running := running self |}.
Arguments record_result : simpl never.

(** The tester after a sequence of recorded results, oldest first. *)
Definition record_all (self : Tester) (rs : list TestResult) : Tester :=
  foldl record_result self rs.

(** The deque after a sequence of appends, oldest first. *)
Definition appends {A : Type} (d : Py.deque A) (xs : list A) : Py.deque A :=
  foldl Py.deque_append d xs.

(** ** What the store does in one attempt, in words used by the statements *)

(** Every exception the store raises derives from [Exception]. *)
Definition is_Exception_or_Normal {A : Type} (r : Py.res A) : Prop :=
  match r with
  | Py.Normal _ => True
  | Py.Raised e => Py.is_Exception e = true
  end.

Definition raises_only_Exception (s : StoreBehaviour) : Prop :=
  is_Exception_or_Normal (on_acquire s)
  ∧ is_Exception_or_Normal (on_fetchval s)
  ∧ (∀ vin, is_Exception_or_Normal (on_fetchrow s vin))
  ∧ is_Exception_or_Normal (on_urandom s)
  ∧ (∀ data vin, is_Exception_or_Normal (on_execute s data vin))
  ∧ is_Exception_or_Normal (on_release s).

(** The attempt goes through: a connection is acquired, a key is found, its
    row is found, the new payload is generated and written, and the
    connection is released, all without an exception. *)
Definition goes_through (s : StoreBehaviour) : bool :=
  match on_acquire s, on_fetchval s with
  | Py.Normal _, Py.Normal (Some vin) =>
      match vin with
      | EmptyString => false
      | _ =>
          match on_fetchrow s vin, on_urandom s with
          | Py.Normal (Some _), Py.Normal data =>
              Py.is_Normal (on_execute s data vin)
              && Py.is_Normal (on_release s)
          | _, _ => false
          end
      end
  | _, _ => false
  end.

(** The store holds no key: a connection is acquired and released, and the
    selection of a random key finds none. *)
Definition no_keys (s : StoreBehaviour) : Prop :=
  on_acquire s = Py.Normal ()
  ∧ on_fetchval s = Py.Normal None
  ∧ on_release s = Py.Normal ().

(** How many results of a list have the given success flag. *)
Definition count_success (b : bool) (rs : list TestResult) : Z :=
  Z.of_nat (length (filter (λ r, success r = b) rs)).

(** ** Metrics: the expressions shared by [metrics_reporter] and
       [print_final_results] *)

(** [r.duration * 1000] *)
Definition latency_ms (r : TestResult) : Qc :=
  (result_duration r * Py.float 1000)%Qc.

(** [elapsed = time.time() - self.start_time] *)
Definition elapsed : M Qc :=
  now ← time_time;
  self ← get_self;
  match start_time self with
  | Some t0 => mret (now - t0)%Qc
  | None => raise Py.TypeError
  end.

(** [self.total_operations / elapsed if elapsed > 0 else 0] *)
Definition throughput (self : Tester) (elapsed : Qc) : Py.res Qc :=
  if decide (0 < elapsed)%Qc
  then Py.truediv (Py.float (total_operations self)) elapsed
  else Py.Normal 0%Qc.

(** [(self.successful_operations / self.total_operations * 100)
     if self.total_operations > 0 else 0] *)
Definition success_rate (self : Tester) : Py.res Qc :=
  if decide (0 < total_operations self)
  then q ← Py.truediv (Py.float (successful_operations self))
                      (Py.float (total_operations self));
       Py.Normal (q * Py.float 100)%Qc
  else Py.Normal 0%Qc.

(** [statistics.quantiles(latencies, n=n)[index]
     if len(latencies) > 1 else avg_latency] *)
Definition percentile (latencies : list Qc) (n index : Z) (avg_latency : Qc)
  : Py.res Qc :=
  if decide (1 < length latencies)%nat
  then cuts ← Py.quantiles latencies n; Py.subscript cuts index
  else Py.Normal avg_latency.

(** [[r.duration * 1000 for r in list(self.results)[-100:]]] *)
Definition recent_latencies (self : Tester) : list Qc :=
  latency_ms <$> Py.last_slice 100 (Py.items (results self)).

(** [[r.duration * 1000 for r in self.results]] *)
Definition latencies (self : Tester) : list Qc :=
  latency_ms <$> Py.items (results self).

(** The cut point number [i] of [statistics.quantiles(data, n=n)] written as
    one expression: the interpolation of the exclusive method between two
    neighbours of the sorted data (an extrapolation beyond the first or the
    last one when [delta] leaves the range from 0 to [n]). *)
Definition exclusive_cut (data : list Qc) (n i : Z) : Qc :=
  let ld := Z.of_nat (length data) in
  let j := if decide ((i * (ld + 1)) `div` n < 1) then 1
           else if decide (ld - 1 < (i * (ld + 1)) `div` n) then ld - 1
                else (i * (ld + 1)) `div` n in
  let delta := i * (ld + 1) - j * n in
  ((default 0 (Py.sorted data !! Z.to_nat (j - 1)) * Py.float (n - delta)
    + default 0 (Py.sorted data !! Z.to_nat j) * Py.float delta)
   / Py.float n)%Qc.

(** The nearest-rank percentile the specification speaks of: the value at
    rank [ceil(p / 100 * len(data))], counted from 1, of the sorted data. *)
Definition nearest_rank (p : Z) (data : list Qc) : Py.res Qc :=
  let rank := (p * Z.of_nat (length data) + 99) `div` 100 in
  Py.subscript (Py.sorted data) (rank - 1).

(** ** [metrics_reporter]: what one tick computes and prints *)

Definition reporter_latency_stats (self : Tester) : Py.res (Qc * Qc) :=
  if Py.truthy (results self) then
    let recent_latencies := recent_latencies self in
    avg_latency ← Py.mean recent_latencies;
    p95_latency ← percentile recent_latencies 20 18 avg_latency;
    Py.Normal (avg_latency, p95_latency)
  else Py.Normal (0%Qc, 0%Qc).

Definition reporter_tick : M unit :=
  elapsed ← elapsed;
  self ← get_self;
  throughput ← lift (throughput self elapsed);
  success_rate ← lift (success_rate self);
  stats ← lift (reporter_latency_stats self);
  print (MetricsLine
           {| ms_total_operations := total_operations self;
              ms_success_rate := success_rate;
              ms_throughput := throughput;
              ms_avg_latency := stats.1;
              ms_p95_latency := stats.2;
              ms_elapsed := elapsed |}).

(** ** [print_final_results] *)

Record LatencyStats : Type := mkLatencyStats {
  avg_latency : Qc;
  min_latency : Qc;
  max_latency : Qc;
  p95_latency : Qc;
  p99_latency : Qc
}.

(** The five statistics of a non-empty list of latencies: the statements
    under [if self.results:], after [latencies] has been built. *)
Definition latency_summary (latencies : list Qc) : Py.res LatencyStats :=
  avg_latency ← Py.mean latencies;
  min_latency ← Py.min latencies;
  max_latency ← Py.max latencies;
  p95_latency ← percentile latencies 20 18 avg_latency;
  p99_latency ← percentile latencies 100 98 avg_latency;
  Py.Normal (mkLatencyStats avg_latency min_latency max_latency
                            p95_latency p99_latency).

Definition final_latency_stats (self : Tester) : Py.res LatencyStats :=
  if Py.truthy (results self) then latency_summary (latencies self)
  else Py.Normal (mkLatencyStats 0 0 0 0 0)%Qc.

(** The same statistics over an arbitrary list of results; over the list of
    all results of a run this is what the specification calls the statistics
    of the full-run dataset. *)
Definition latency_stats_over (rs : list TestResult) : Py.res LatencyStats :=
  match rs with
  | [] => Py.Normal (mkLatencyStats 0 0 0 0 0)%Qc
  | _ :: _ => latency_summary (latency_ms <$> rs)
  end.

(** The success rate over an arbitrary list of results. *)
Definition success_rate_over (rs : list TestResult) : Py.res Qc :=
  match rs with
  | [] => Py.Normal 0%Qc
  | _ :: _ =>
      q ← Py.truediv (Py.float (count_success true rs))
                     (Py.float (Z.of_nat (length rs)));
      Py.Normal (q * Py.float 100)%Qc
  end.

Definition print_final_results : M unit :=
  elapsed ← elapsed;
  self ← get_self;
  throughput ← lift (throughput self elapsed);
  success_rate ← lift (success_rate self);
  stats ← lift (final_latency_stats self);
  print (FinalResults
           {| fr_total_operations := total_operations self;
              fr_successful_operations := successful_operations self;
              fr_failed_operations := failed_operations self;
              fr_success_rate := success_rate;
              fr_throughput := throughput;
              fr_elapsed := elapsed;
              fr_avg_latency := avg_latency stats;
              fr_min_latency := min_latency stats;
              fr_max_latency := max_latency stats;
              fr_p95_latency := p95_latency stats;
              fr_p99_latency := p99_latency stats |}).

(** ** The tasks

    asyncio runs the tasks on one thread and switches between them only
    where a task awaits.  A task is therefore described by the suspension
    point it waits at, and by the segment of code it runs when the scheduler
    resumes it there.  [worker] suspends inside [perform_operation] (on the
    store), [metrics_reporter] and [run_test] in [asyncio.sleep], [run_test]
    also in [asyncio.gather].  The awaits inside one attempt touch no field
    of [self], so an attempt in flight is one suspension point. *)

Inductive worker_pc : Type :=
| WCreated
| WInAttempt (operations : Z) (attempt_start : Qc)
| WReturned
| WFailed (e : Py.exn).

Inductive reporter_pc : Type :=
| RCreated
| RSleeping
| RReturned
| RFailed (e : Py.exn).

Inductive main_pc : Type :=
| MIdle
| MSleeping
| MGathering (pending : option Py.exn)
| MReturned
| MFailed (e : Py.exn).

(** *** [worker] *)

(** The head of the [while] loop, up to the first suspension of the next
    attempt or to the return of the task. *)
Definition worker_while (worker_id : nat) (operations : Z) : M worker_pc :=
  self ← get_self;
  continue ←
    (if running self then
       now ← time_time;
       match start_time self with
       | Some t0 =>
           mret (bool_decide (now < t0 + Py.float (duration (config self)))%Qc)
       | None => raise Py.TypeError
       end
     else mret false);
  if continue : bool then
    attempt_start ← time_time;
    mret (WInAttempt operations attempt_start)
  else
    print (WorkerLine worker_id operations);;
    mret WReturned.

(** The rest of the loop body once the store has answered. *)
Definition worker_body (worker_id : nat) (operations : Z) (attempt_start : Qc)
  : M worker_pc :=
  result ← perform_operation_try worker_id attempt_start;
  self ← get_self;
  set_self (record_result self result);;
  worker_while worker_id (operations + 1).

(** The segment a worker runs when resumed; [None] when it has finished. *)
Definition worker_segment (worker_id : nat) (pc : worker_pc)
  : option (M worker_pc) :=
  match pc with
  | WCreated => Some (worker_while worker_id 0)
  | WInAttempt operations attempt_start =>
      Some (worker_body worker_id operations attempt_start)
  | WReturned | WFailed _ => None
  end.

(** *** [metrics_reporter] *)

Definition reporter_while : M reporter_pc :=
  self ← get_self;
  if running self then mret RSleeping else mret RReturned.

(** After [await asyncio.sleep(10)]. *)
Definition reporter_wake : M reporter_pc :=
  self ← get_self;
  if negb (running self) then mret RReturned
  else reporter_tick;; reporter_while.

Definition reporter_segment (pc : reporter_pc) : option (M reporter_pc) :=
  match pc with
  | RCreated => Some reporter_while
  | RSleeping => Some reporter_wake
  | RReturned | RFailed _ => None
  end.

(** *** [run_test] *)

Definition set_running (b : bool) : M unit :=
  self ← get_self;
  set_self {| config := config self;
              results := results self;
              total_operations := total_operations self;
              successful_operations := successful_operations self;
              failed_operations := failed_operations self;
              start_time := start_time self;
              running := b |}.

Definition set_start_time (t : Qc) : M unit :=
  self ← get_self;
  set_self {| config := config self;
              results := results self;
              total_operations := total_operations self;
              successful_operations := successful_operations self;
              failed_operations := failed_operations self;
              start_time := Some t;
              running := running self |}.

(** Up to [await asyncio.sleep(self.config.duration)].  The tasks it creates
    are returned: one worker per index of [range(self.config.workers)]. *)
Definition run_test_start : M (list worker_pc) :=
  self ← get_self;
  print (StartBanner (workers (config self)) (duration (config self))
                     (table_name (config self)));;
  set_running true;;
  now ← time_time;
  set_start_time now;;
  mret ((λ _, WCreated) <$> Py.range 0 (workers (config self))).

(** The [finally] clause up to [await asyncio.gather(...)]. *)
Definition run_test_stop : M unit := set_running false.

(** The [finally] clause after [asyncio.gather]; an exception that ended the
    sleep is raised again once the clause is through. *)
Definition run_test_finish (pending : option Py.exn) : M unit :=
  print_final_results;;
  match pending with
  | Some e => raise e
  | None => mret ()
  end.

(** ** The scheduler *)

Record System : Type := mkSystem {
  tester : Tester;
  worker_tasks : list worker_pc;
  reporter_task : option reporter_pc;
  main_task : main_pc;
  console : list output
}.

(** Before [run_test]: no task exists yet. *)
Definition boot (cfg : TestConfig) : System :=
  {| tester := init cfg;
     worker_tasks := [];
     reporter_task := None;
     main_task := MIdle;
     console := [] |}.

Definition worker_finished (pc : worker_pc) : bool :=
  match pc with
  | WReturned | WFailed _ => true
  | WCreated | WInAttempt _ _ => false
  end.

Definition reporter_finished (pc : reporter_pc) : bool :=
  match pc with
  | RReturned | RFailed _ => true
  | RCreated | RSleeping => false
  end.

(** [asyncio.gather] over all tasks, with [return_exceptions=True], resumes
    its caller when every task has returned or failed. *)
Definition all_tasks_finished (s : System) : bool :=
  forallb worker_finished (worker_tasks s)
  && from_option reporter_finished true (reporter_task s).

(** Which task the scheduler resumes, and what that task then meets.  For
    [run_test], [interrupt] tells whether its sleep ended by an exception
    thrown into it. *)
Inductive label : Type :=
| ResumeMain (e : Env) (interrupt : option Py.exn)
| ResumeWorker (i : nat) (e : Env)
| ResumeReporter (e : Env).

Definition step (l : label) (s : System) : option System :=
  match l with
  | ResumeMain e interrupt =>
      match main_task s with
      | MIdle =>
          let '(r, w) := run run_test_start e (tester s) in
          Some match r with
               | Py.Normal tasks =>
                   mkSystem (self_of w) tasks (Some RCreated) MSleeping
                            (console s ++ stdout w)
               | Py.Raised ex =>
                   mkSystem (self_of w) (worker_tasks s) (reporter_task s)
                            (MFailed ex) (console s ++ stdout w)
               end
      | MSleeping =>
          let '(r, w) := run run_test_stop e (tester s) in
          Some (mkSystem (self_of w) (worker_tasks s) (reporter_task s)
                         match r with
                         | Py.Normal _ => MGathering interrupt
                         | Py.Raised ex => MFailed ex
                         end
                         (console s ++ stdout w))
      | MGathering pending =>
          if all_tasks_finished s then
            let '(r, w) := run (run_test_finish pending) e (tester s) in
            Some (mkSystem (self_of w) (worker_tasks s) (reporter_task s)
                           match r with
                           | Py.Normal _ => MReturned
                           | Py.Raised ex => MFailed ex
                           end
                           (console s ++ stdout w))
          else None
      | MReturned | MFailed _ => None
      end
  | ResumeWorker i e =>
      pc ← worker_tasks s !! i;
      segment ← worker_segment i pc;
      let '(r, w) := run segment e (tester s) in
      Some (mkSystem (self_of w)
                     (<[i := match r with
                             | Py.Normal pc' => pc'
                             | Py.Raised ex => WFailed ex
                             end]> (worker_tasks s))
                     (reporter_task s) (main_task s) (console s ++ stdout w))
  | ResumeReporter e =>
      pc ← reporter_task s;
      segment ← reporter_segment pc;
      let '(r, w) := run segment e (tester s) in
      Some (mkSystem (self_of w) (worker_tasks s)
                     (Some match r with
                           | Py.Normal pc' => pc'
                           | Py.Raised ex => RFailed ex
                           end)
                     (main_task s) (console s ++ stdout w))
  end.

(** A schedule is the list of resumptions, first to last. *)
Fixpoint exec (schedule : list label) (s : System) : option System :=
  match schedule with
  | [] => Some s
  | l :: schedule' => s' ← step l s; exec schedule' s'
  end.

(** The tester once [run_test] has set the flag and the start time. *)
Definition started (cfg : TestConfig) (t0 : Qc) : Tester :=
  {| config := cfg;
     results := Py.deque_new 1000;
     total_operations := 0;
     successful_operations := 0;
     failed_operations := 0;
     start_time := Some t0;
     running := true |}.

(** What [perform_operation] returns to worker [a.1] in environment [a.2]. *)
Definition attempt_result (self : Tester) (a : nat * Env) : Py.res TestResult :=
  (run (perform_operation a.1) a.2 self).1.

(** ** Predicates used to state what segments and schedules do *)

(** From world [w] to world [w']: the environment is the same, what was
    printed in between satisfies [Pout], and the tester moved along [R]. *)
Definition extends (Pout : output → Prop) (R : Tester → Tester → Prop)
    (w w' : World) : Prop :=
  env w' = env w
  ∧ (∃ out, stdout w' = stdout w ++ out ∧ Forall Pout out)
  ∧ R (self_of w) (self_of w').

Definition respects {A : Type} (Pout : output → Prop)
    (R : Tester → Tester → Prop) (m : M A) : Prop :=
  ∀ w, extends Pout R w (m w).2.

(** Only the buffer and the counters may differ. *)
Definition same_control (t t' : Tester) : Prop :=
  config t' = config t
  ∧ start_time t' = start_time t
  ∧ running t' = running t.

(** At most one result was recorded in between. *)
Definition recorded_at_most_one (t t' : Tester) : Prop :=
  t' = t ∨ ∃ r, t' = record_result t r.

Definition is_WorkerLine (o : output) : Prop :=
  match o with WorkerLine _ _ => True | _ => False end.

Definition is_MetricsLine (o : output) : Prop :=
  match o with MetricsLine _ => True | _ => False end.

Definition is_FinalResults (o : output) : Prop :=
  match o with FinalResults _ => True | _ => False end.

(** [run_test] is past its sleep: the flag has been cleared. *)
Definition main_stopped (pc : main_pc) : bool :=
  match pc with
  | MGathering _ | MReturned | MFailed _ => true
  | MIdle | MSleeping => false
  end.

Definition main_finished (pc : main_pc) : bool :=
  match pc with
  | MReturned | MFailed _ => true
  | MIdle | MSleeping | MGathering _ => false
  end.

(** What holds in every state a schedule can reach from [boot cfg]. *)
Record invariant (cfg : TestConfig) (s : System) : Prop := mkInvariant {
  inv_config : config (tester s) = cfg;
  inv_idle :
    main_task s = MIdle →
    worker_tasks s = [] ∧ reporter_task s = None
    ∧ start_time (tester s) = None ∧ running (tester s) = false;
  inv_started :
    main_task s ≠ MIdle → ∃ t0, start_time (tester s) = Some t0;
  inv_sleeping : main_task s = MSleeping → running (tester s) = true;
  inv_stopped : main_stopped (main_task s) = true → running (tester s) = false;
  inv_counters :
    total_operations (tester s)
    = successful_operations (tester s) + failed_operations (tester s);
  inv_buffer : Py.maxlen (results (tester s)) = 1000%nat
               ∧ (Py.len (results (tester s)) ≤ 1000)%nat;
  inv_final :
    Forall (λ o, ¬ is_FinalResults o) (console s)
    ∨ (main_finished (main_task s) = true
       ∧ all_tasks_finished s = true
       ∧ ∃ pre r, console s = pre ++ [FinalResults r]
                  ∧ Forall (λ o, ¬ is_FinalResults o) pre)
}.

(** * The setup phase *)

(** ** [generate_vin]

    The random module is an input: [choice] and [choices] receive the
    numbers drawn and reduce them to an index into the population. *)

(** [random.choice(seq)] for a draw [k] *)
Definition random_choice {A : Type} (seq : list A) (k : nat) : option A :=
  seq !! (k `mod` length seq)%nat.

(** [random.choices(population, k=n)] for the draws [picks 0], [picks 1], ... *)
Definition random_choices {A : Type} (population : list A) (picks : nat → nat)
    (n : nat) : list A :=
  omap (λ j, random_choice population (picks j)) (seq 0 n).

(** What the random module draws while one VIN is generated. *)
Record VinDraw : Type := mkVinDraw {
  wmi_pick : nat;
  char_picks : nat → nat
}.

Definition wmi_prefixes : list string :=
  ["WP0"; "1HG"; "WBA"; "JTD"; "WVW"; "1G1"; "KNA"; "YV1"; "TMB"; "VF3"].

(** The characters of a [str], first to last. *)
Definition chars (s : string) : list ascii := String.list_ascii_of_string s.

(** [string.ascii_uppercase] and [string.digits] *)
Definition ascii_uppercase : list ascii := chars "ABCDEFGHIJKLMNOPQRSTUVWXYZ".
Definition digits : list ascii := chars "0123456789".

(** [s.replace(c, '')] for a single character [c] *)
Definition remove_char (c : ascii) (s : list ascii) : list ascii :=
  filter (λ x, x ≠ c) s.

Definition valid_chars : list ascii :=
  remove_char "Q"%char (remove_char "O"%char (remove_char "I"%char ascii_uppercase)) ++ digits.

(** [f"{index:06d}"]: the decimal digits of the magnitude, filled with
    zeros on the left up to six characters, the sign included. *)
Definition format_06d (index : Z) : list ascii :=
  let magnitude := chars (pretty (Z.abs index)) in
  if decide (index < 0)
  then "-"%char :: replicate (5 - length magnitude) "0"%char ++ magnitude
  else replicate (6 - length magnitude) "0"%char ++ magnitude.

Definition generate_vin (draw : VinDraw) (index : Z) : string :=
  let wmi := default "" (random_choice wmi_prefixes (wmi_pick draw)) in
  let remaining := random_choices valid_chars (char_picks draw) 14 in
  String.string_of_list_ascii
    (take 17 (chars wmi
              ++ take (length remaining - 6) remaining
              ++ format_06d index)).

(** The number written in the last six characters of a VIN. *)
Definition digit_value (c : ascii) : Z := Z.of_nat (Ascii.nat_of_ascii c) - 48.
Definition decimal_value (s : list ascii) : Z :=
  foldl (λ acc c, 10 * acc + digit_value c) 0 s.
Definition vin_serial (vin : string) : Z :=
  decimal_value (drop 11 (chars vin)).

(** ** Rows of the vehicle table *)

Definition brands : list string :=
  ["Porsche"; "BMW"; "Mercedes-Benz"; "Audi"; "Toyota"; "Honda"; "Ford";
   "Chevrolet"; "Volkswagen"; "Nissan"].

Definition countries : list string :=
  ["DE"; "US"; "JP"; "UK"; "FR"; "IT"; "KR"; "SE"; "CZ"; "ES"].

(** [os.urandom(n)]: the first [n] bytes of the entropy [source] *)
Definition os_urandom (source : nat → byte) (n : nat) : list byte :=
  source <$> seq 0 n.

(** What is drawn while one row is generated. *)
Record RowDraw : Type := mkRowDraw {
  vin_draw : VinDraw;
  brand_pick : nat;
  country_pick : nat;
  blob_source : nat → byte;
  fleet_pick : nat
}.

(** The tuple [(vin, brand, country, compressed_data, is_fleet)] *)
Record NewVehicle : Type := mkNewVehicle {
  nv_vin : string;
  nv_brand : string;
  nv_country : string;
  nv_compressed_data : list byte;
  nv_is_fleet : bool
}.

(** The body of the inner loop of [populate_test_data] for one index. *)
Definition new_vehicle (draw : RowDraw) (index : Z) : NewVehicle :=
  {| nv_vin := generate_vin (vin_draw draw) index;
     nv_brand := default "" (random_choice brands (brand_pick draw));
     nv_country := default "" (random_choice countries (country_pick draw));
     nv_compressed_data := os_urandom (blob_source draw) 1024;
     nv_is_fleet := default false (random_choice [true; false] (fleet_pick draw)) |}.

(** [range(start, stop, step)] for a positive [step] *)
Definition range_step (start stop step : Z) : list Z :=
  (λ k, start + step * k) <$> seqZ 0 ((stop - start + step - 1) `div` step).

Definition batch_size : Z := 1000.

(** The indices handed to [generate_vin] in the batch that starts at [i]. *)
Definition batch_indices (current_count needed i : Z) : list Z :=
  (λ j, current_count + i + j) <$> Py.range 0 (Z.min batch_size (needed - i)).

(** [batch_data] of the batch that starts at [i]; the draws are given per
    index. *)
Definition batch_data (draws : Z → RowDraw) (current_count needed i : Z)
  : list NewVehicle :=
  (λ index, new_vehicle (draws index) index)
    <$> batch_indices current_count needed i.

(** ** The vehicle table

    A row of the table without its primary key [vin]. *)

Record Vehicle : Type := mkVehicle {
  v_brand : string;
  v_country : string;
  v_created_at : Qc;
  v_updated_at : Qc;
  v_entries_compressed : list byte;
  v_is_fleet_vehicle : bool
}.

(** [INSERT ... VALUES ($1, $2, $3, $4, $5, NOW(), NOW())
     ON CONFLICT (vin) DO NOTHING] for one tuple *)
Definition insert_vehicle (now : Qc) (rows : gmap string Vehicle)
    (r : NewVehicle) : gmap string Vehicle :=
  match rows !! nv_vin r with
  | Some _ => rows
  | None =>
      <[nv_vin r := {| v_brand := nv_brand r;
                       v_country := nv_country r;
                       v_created_at := now;
                       v_updated_at := now;
                       v_entries_compressed := nv_compressed_data r;
                       v_is_fleet_vehicle := nv_is_fleet r |}]> rows
  end.

(** ** The setup phase: effects

    State: the table ([None] while it does not exist), the value of
    [self.pool] ([None], or whether the pool is open), how many requests
    were sent to the server, and what was printed.  The environment tells
    which requests fail, what time the server reads, and what is drawn. *)

Inductive setup_line : Type :=
| SayBanner
| SayConnecting
| SayEstablished
| SayInitFailed (e : Py.exn)
| SayDropping
| SayCreating
| SayCreated
| SayAddingMore (count : Z)
| SayReady (count : Z)
| SayGenerating (needed : Z)
| SayPopulated (final_count : Z)
| SayStartingTest
| SayInterrupted
| SayTestFailed (e : Py.exn)
| SayClosed.

Record SetupEnv : Type := mkSetupEnv {
  faults : nat → option Py.exn;
  server_now : nat → Qc;
  draws : Z → RowDraw
}.

Record SetupWorld : Type := mkSetupWorld {
  setup_env : SetupEnv;
  vehicles : option (gmap string Vehicle);
  pool : option bool;
  requests : nat;
  said : list setup_line
}.

Definition D (A : Type) : Type := SetupWorld → Py.res A * SetupWorld.

#[global] Instance D_ret : MRet D := λ A a w, (Py.Normal a, w).
#[global] Instance D_bind : MBind D := λ A B f m w,
  match m w with
  | (Py.Normal a, w1) => f a w1
  | (Py.Raised e, w1) => (Py.Raised e, w1)
  end.

Definition fail {A : Type} (e : Py.exn) : D A := λ w, (Py.Raised e, w).

Definition d_lift {A : Type} (r : Py.res A) : D A := λ w, (r, w).

Definition say (l : setup_line) : D unit := λ w,
  (Py.Normal (),
   mkSetupWorld (setup_env w) (vehicles w) (pool w) (requests w)
                (said w ++ [l])).

Definition get_draws : D (Z → RowDraw) := λ w,
  (Py.Normal (draws (setup_env w)), w).

Definition get_pool : D (option bool) := λ w, (Py.Normal (pool w), w).

(** One request to the server.  It fails when the environment says so, or
    when the server rejects it in the current state of the table;
    otherwise [effect], given the time of the server, returns the answer
    and the new state of the table and of the pool. *)
Definition request {A : Type}
    (effect : Qc → option (gmap string Vehicle) → option bool →
              Py.res (A * option (gmap string Vehicle) * option bool))
  : D A := λ w,
  let w1 := mkSetupWorld (setup_env w) (vehicles w) (pool w)
                         (S (requests w)) (said w) in
  match faults (setup_env w) (requests w) with
  | Some e => (Py.Raised e, w1)
  | None =>
      match effect (server_now (setup_env w) (requests w))
                   (vehicles w) (pool w) with
      | Py.Normal (a, t, p) =>
          (Py.Normal a,
           mkSetupWorld (setup_env w) t p (S (requests w)) (said w))
      | Py.Raised e => (Py.Raised e, w1)
      end
  end.

(** [try: body  except Exception as e: handler] *)
Definition d_try_except_Exception {A : Type} (body : D A)
    (handler : Py.exn → D A) : D A := λ w,
  match body w with
  | (Py.Normal a, w1) => (Py.Normal a, w1)
  | (Py.Raised e, w1) =>
      if Py.is_Exception e then handler e w1 else (Py.Raised e, w1)
  end.

(** [try: body  finally: final] *)
Definition d_try_finally {A : Type} (body : D A) (final : D unit) : D A :=
  λ w,
  match body w with
  | (r, w1) =>
      match final w1 with
      | (Py.Normal _, w2) => (r, w2)
      | (Py.Raised e, w2) => (Py.Raised e, w2)
      end
  end.

(** [for x in xs: body(x)] *)
Fixpoint d_for {A : Type} (xs : list A) (body : A → D unit) : D unit :=
  match xs with
  | [] => mret ()
  | x :: xs' => body x;; d_for xs' body
  end.

(** *** The requests *)

Definition undefined_table : Py.exn :=
  Py.PostgresError "relation does not exist".
Definition duplicate_table : Py.exn :=
  Py.PostgresError "relation already exists".

(** [async with self.pool.acquire() as conn: body]: with no pool the
    attribute access fails; otherwise a connection is requested, and given
    back at the exit whatever [body] did. *)
Definition connection_request : D unit :=
  request (λ _ t p, Py.Normal ((), t, p)).

Definition with_connection {A : Type} (body : D A) : D A := λ w,
  match pool w with
  | None => (Py.Raised Py.AttributeError, w)
  | Some _ =>
      match connection_request w with
      | (Py.Raised e, w1) => (Py.Raised e, w1)
      | (Py.Normal _, w1) =>
          match body w1 with
          | (r, w2) =>
              match connection_request w2 with
              | (Py.Normal _, w3) => (r, w3)
              | (Py.Raised e, w3) => (Py.Raised e, w3)
              end
          end
      end
  end.

(** [SELECT EXISTS (SELECT 1 FROM information_schema.tables ...)] *)
Definition select_table_exists : D bool :=
  request (λ _ t p, Py.Normal (bool_decide (is_Some t), t, p)).

(** [DROP TABLE ...] *)
Definition drop_table : D unit :=
  request (λ _ t p, match t with
                    | Some _ => Py.Normal ((), None, p)
                    | None => Py.Raised undefined_table
                    end).

(** [CREATE TABLE ...] *)
Definition create_table : D unit :=
  request (λ _ t p, match t with
                    | None => Py.Normal ((), Some ∅, p)
                    | Some _ => Py.Raised duplicate_table
                    end).

(** [CREATE INDEX ... ON table(column)] *)
Definition create_index : D unit :=
  request (λ _ t p, match t with
                    | Some _ => Py.Normal ((), t, p)
                    | None => Py.Raised undefined_table
                    end).

(** [SELECT COUNT( * ) FROM ...] *)
Definition select_count : D Z :=
  request (λ _ t p, match t with
                    | Some rows => Py.Normal (Z.of_nat (size rows), t, p)
                    | None => Py.Raised undefined_table
                    end).

(** [conn.executemany(INSERT ..., batch_data)] *)
Definition executemany_insert (batch : list NewVehicle) : D unit :=
  request (λ now t p,
             match t with
             | Some rows =>
                 Py.Normal ((), Some (foldl (insert_vehicle now) rows batch), p)
             | None => Py.Raised undefined_table
             end).

(** [asyncpg.create_pool(...)], assigned to [self.pool] *)
Definition create_pool : D unit :=
  request (λ _ t _, Py.Normal ((), t, Some true)).

(** [self.pool.close()] *)
Definition pool_close : D unit :=
  request (λ _ t _, Py.Normal ((), t, Some false)).

(** ** [populate_test_data] *)

Definition populate_test_data (cfg : TestConfig) (target : option Z) : D unit :=
  let target := default (initial_records cfg) target in
  current_count ← select_count;
  let needed := Z.max 0 (target - current_count) in
  if decide (needed = 0) then mret ()
  else
    say (SayGenerating needed);;
    draws ← get_draws;
    d_for (range_step 0 needed batch_size)
          (λ i, executemany_insert (batch_data draws current_count needed i));;
    final_count ← select_count;
    say (SayPopulated final_count).

(** ** [setup_test_table] *)

Definition setup_test_table (cfg : TestConfig) : D unit :=
  with_connection
    (table_exists ← select_table_exists;
     table_exists ←
       (if table_exists && recreate_table cfg
        then say SayDropping;; drop_table;; mret false
        else mret table_exists);
     if negb table_exists then
       say SayCreating;;
       create_table;;
       create_index;;
       create_index;;
       say SayCreated;;
       populate_test_data cfg None
     else
       count ← select_count;
       if decide (count < 1000)
       then say (SayAddingMore count);;
            populate_test_data cfg (Some (initial_records cfg))
       else say (SayReady count)).

(** ** [initialize] *)

Definition initialize (cfg : TestConfig) : D unit :=
  say SayConnecting;;
  d_try_except_Exception
    (create_pool;;
     say SayEstablished;;
     setup_test_table cfg)
    (λ e, say (SayInitFailed e);; fail e).

(** ** [close] *)

Definition close : D unit :=
  pool ← get_pool;
  match pool with
  | Some _ => pool_close;; say SayClosed
  | None => mret ()
  end.

(** ** [main], after the arguments are parsed

    [run_test] is represented by what [main] and the table see of it: its
    first line of output, the [UPDATE] statements of its workers that got
    through, in the order in which the server applied them, and the way it
    ends.  The statements and the ending are inputs: which attempts get
    through, on which VIN and with which bytes is decided by the server,
    by [ORDER BY RANDOM()] and by [os.urandom]. *)

(** One [UPDATE ... SET entries_compressed = $1, updated_at = NOW()
     WHERE vin = $2] of [perform_operation], with the time of the server. *)
Record TestUpdate : Type := mkTestUpdate {
  upd_data : list byte;
  upd_vin : string;
  upd_now : Qc
}.

Definition update_vehicle (rows : gmap string Vehicle) (u : TestUpdate)
  : gmap string Vehicle :=
  match rows !! upd_vin u with
  | Some v =>
      <[upd_vin u := {| v_brand := v_brand v;
                        v_country := v_country v;
                        v_created_at := v_created_at v;
                        v_updated_at := upd_now u;
                        v_entries_compressed := upd_data u;
                        v_is_fleet_vehicle := v_is_fleet_vehicle v |}]> rows
  | None => rows
  end.

Definition apply_updates (updates : list TestUpdate) : D unit := λ w,
  (Py.Normal (),
   mkSetupWorld (setup_env w)
                ((λ rows, foldl update_vehicle rows updates) <$> vehicles w)
                (pool w) (requests w) (said w)).

Definition run_test_call (updates : list TestUpdate) (outcome : Py.res unit)
  : D unit :=
  say SayStartingTest;; apply_updates updates;; d_lift outcome.

(** [try: body  except KeyboardInterrupt: ...  except Exception as e: ...] *)
Definition main_handlers (body : D unit) : D unit := λ w,
  match body w with
  | (Py.Normal a, w1) => (Py.Normal a, w1)
  | (Py.Raised e, w1) =>
      match e with
      | Py.KeyboardInterrupt => say SayInterrupted w1
      | _ => if Py.is_Exception e then say (SayTestFailed e) w1
             else (Py.Raised e, w1)
      end
  end.

Definition main (cfg : TestConfig) (updates : list TestUpdate)
    (outcome : Py.res unit) : D unit :=
  say SayBanner;;
  d_try_finally
    (main_handlers (initialize cfg;; run_test_call updates outcome))
    close.

(** A world before [main]: no pool yet, nothing sent, nothing printed. *)
Definition setup_boot (e : SetupEnv) (t : option (gmap string Vehicle))
  : SetupWorld :=
  mkSetupWorld e t None 0 [].

(** An environment without failures. *)
Definition no_faults (e : SetupEnv) : Prop := ∀ k, faults e k = None.

(** The VIN generated for an index. *)
Definition vin_of (e : SetupEnv) (index : Z) : string :=
  generate_vin (vin_draw (draws e index)) index.

(** ** Predicates used to state what the setup phase does *)

(** The lines printed by [setup_test_table] and [populate_test_data]. *)
Definition is_table_line (l : setup_line) : Prop :=
  match l with
  | SayDropping | SayCreating | SayCreated | SayAddingMore _ | SayReady _
  | SayGenerating _ | SayPopulated _ => True
  | _ => False
  end.

(** From world [w] to world [w']: the environment and the pool are the
    same, requests were only added, and what was printed in between
    satisfies [allowed]. *)
Definition moves (allowed : setup_line → Prop) (w w' : SetupWorld) : Prop :=
  setup_env w' = setup_env w
  ∧ pool w' = pool w
  ∧ (requests w ≤ requests w')%nat
  ∧ ∃ l, said w' = said w ++ l ∧ Forall allowed l.

(** From [w] to [w'] the table was not dropped, and no row of it was
    deleted or changed. *)
Definition keeps_rows (w w' : SetupWorld) : Prop :=
  ∀ rows, vehicles w = Some rows →
          ∃ rows', vehicles w' = Some rows' ∧ rows ⊆ rows'.

(** The columns that no statement of the program changes in a row. *)
Definition same_vehicle (v v' : Vehicle) : Prop :=
  v_brand v' = v_brand v
  ∧ v_country v' = v_country v
  ∧ v_created_at v' = v_created_at v
  ∧ v_is_fleet_vehicle v' = v_is_fleet_vehicle v.

(** Row [v'] is row [v] of [vin], possibly after some of [updates]: it is
    [v] itself, or it carries the bytes and the time of an update of this
    VIN and is [v] in the other columns. *)
Definition updated_by (updates : list TestUpdate) (vin : string)
    (v v' : Vehicle) : Prop :=
  same_vehicle v v'
  ∧ (v' = v
     ∨ ∃ u, u ∈ updates ∧ upd_vin u = vin
            ∧ v_entries_compressed v' = upd_data u
            ∧ v_updated_at v' = upd_now u).

(** From [w] to [w'] the table was not dropped and no row of it was
    deleted; a row changed only by way of [updates]. *)
Definition keeps_vins (updates : list TestUpdate) (w w' : SetupWorld)
  : Prop :=
  ∀ rows, vehicles w = Some rows →
          ∃ rows', vehicles w' = Some rows'
                   ∧ ∀ vin v, rows !! vin = Some v →
                              ∃ v', rows' !! vin = Some v'
                                    ∧ updated_by updates vin v v'.

Definition preserves {A : Type} (R : SetupWorld → SetupWorld → Prop)
    (m : D A) : Prop :=
  ∀ w, R w (m w).2.

(** ** Counting the resumptions of a schedule *)

Definition is_ResumeWorker (l : label) : bool :=
  match l with ResumeWorker _ _ => true | _ => false end.

(** How often the scheduler resumed a worker. *)
Definition worker_resumptions (schedule : list label) : Z :=
  Z.of_nat (length (filter (λ l, is_ResumeWorker l = true) schedule)).

(** [run_test] has not started yet. *)
Definition main_idle (pc : main_pc) : bool :=
  match pc with MIdle => true | _ => false end.

(** ** Sample inputs *)

(** The defaults of [TestConfig] and of the command line. *)
Definition sample_config : TestConfig :=
  {| host := "localhost"; port := 5432; database := "postgres";
     username := "postgres"; password := ""; ssl_mode := "require";
     workers := 10; duration := 60; pool_size := 50;
     table_name := "vehicles"; initial_records := 10000000;
     recreate_table := false |}.

(** A clock that advances by one second per reading. *)
Definition sample_clock : nat → Qc := λ k, Py.float (Z.of_nat k).

(** A store with an empty table. *)
Definition empty_store : StoreBehaviour :=
  {| on_acquire := Py.Normal ();
     on_fetchval := Py.Normal None;
     on_fetchrow := λ _, Py.Normal None;
     on_urandom := Py.Normal [];
     on_execute := λ _ _, Py.Normal ();
     on_release := Py.Normal () |}.

(** A store that serves one vehicle. *)
Definition healthy_store : StoreBehaviour :=
  {| on_acquire := Py.Normal ();
     on_fetchval := Py.Normal (Some "WP0AAAAAAAA000001");
     on_fetchrow := λ vin, Py.Normal (Some (mkRow vin [] "Porsche"));
     on_urandom := Py.Normal [x00; x01];
     on_execute := λ _ _, Py.Normal ();
     on_release := Py.Normal () |}.


(** An environment for one segment: the sample clock and the store that
    serves one vehicle. *)
Definition sample_env : Env := mkEnv sample_clock healthy_store.

(** A run in which [run_test] starts, worker 0 begins an attempt, the
    reporter goes to sleep, and [run_test] wakes up and clears the flag. *)
Definition sample_schedule : list label :=
  [ResumeMain sample_env None; ResumeWorker 0 sample_env;
   ResumeReporter sample_env; ResumeMain sample_env None].

Definition sample_stopped_system : System :=
  default (boot sample_config) (exec sample_schedule (boot sample_config)).

(** A run of 1001 attempts: a failed one that took a second, then a
    thousand successful instantaneous ones. *)
Definition long_run : list TestResult :=
  mkTestResult false 1%Qc 0%Qc 0%nat
  :: replicate 1000 (mkTestResult true 0%Qc 0%Qc 0%nat).

(** The five latencies of the specification's example, in milliseconds. *)
Definition example_latencies : list Qc := Py.float <$> [10; 20; 30; 40; 50].

(** A tester that has recorded a successful attempt of 10 ms and a failed
    one of 50 ms. *)
Definition mixed_tester (cfg : TestConfig) : Tester :=
  record_all (init cfg)
    [mkTestResult true (Py.float 10 / Py.float 1000)%Qc 0%Qc 0%nat;
     mkTestResult false (Py.float 50 / Py.float 1000)%Qc 0%Qc 1%nat].

(** Thirty latencies that grow as the squares: 0, 1000, 4000, ... *)
Definition square_latencies : list Qc :=
  (λ i, Py.float (i * i * 1000)) <$> seqZ 0 30.

(** Four latencies that are neither sorted nor evenly spaced. *)
Definition uneven_latencies : list Qc := Py.float <$> [250; 500; 125; 1000].

(** A tester that has recorded five attempts lasting 10 to 50 ms. *)
Definition example_tester (cfg : TestConfig) : Tester :=
  record_all (init cfg)
    ((λ ms, mkTestResult true (Py.float ms / Py.float 1000)%Qc 0%Qc 0%nat)
       <$> [10; 20; 30; 40; 50]).

(** ** Sample inputs of the setup phase *)

(** Draws that take the first prefix and walk through the alphabet. *)
Definition sample_vin_draw : VinDraw :=
  {| wmi_pick := 0; char_picks := λ j, j |}.

Definition sample_row_draw : RowDraw :=
  {| vin_draw := sample_vin_draw;
     brand_pick := 0;
     country_pick := 1;
     blob_source := λ _, x00;
     fleet_pick := 1 |}.

(** A configuration that asks for three records. *)
Definition small_config : TestConfig :=
  {| host := "localhost"; port := 5432; database := "postgres";
     username := "postgres"; password := ""; ssl_mode := "require";
     workers := 10; duration := 60; pool_size := 50;
     table_name := "vehicles"; initial_records := 3;
     recreate_table := false |}.

(** A server that answers every request. *)
Definition sample_setup_env : SetupEnv :=
  {| faults := λ _, None;
     server_now := λ k, Py.float (Z.of_nat k);
     draws := λ _, sample_row_draw |}.

(** A server that cannot be reached: the first request fails. *)
Definition unreachable_setup_env : SetupEnv :=
  {| faults := λ k, match k with
                    | O => Some (Py.OSError "connection refused")
                    | S _ => None
                    end;
     server_now := λ k, Py.float (Z.of_nat k);
     draws := λ _, sample_row_draw |}.

(** A table with one row. *)
Definition one_row_table : gmap string Vehicle :=
  {["WP0ABCDEFGH000000" :=
      {| v_brand := "Porsche"; v_country := "DE";
         v_created_at := 0%Qc; v_updated_at := 0%Qc;
         v_entries_compressed := [];
         v_is_fleet_vehicle := false |}]}.

(** What a test did to the table: it replaced the telemetry of the row of
    [one_row_table], twice. *)
Definition sample_updates : list TestUpdate :=
  [mkTestUpdate [x01] "WP0ABCDEFGH000000" (Py.float 7);
   mkTestUpdate [x02; x03] "WP0ABCDEFGH000000" (Py.float 8)].

(** A world in which the pool is open, one request was sent, and the table
    is [t]. *)
Definition sample_setup_world (t : option (gmap string Vehicle))
  : SetupWorld :=
  mkSetupWorld sample_setup_env t (Some true) 1 [].

(** ** Tactics *)

(** Closed equations between rationals: evaluate, then compare the
    fractions. *)
Ltac qc_compute :=
  vm_compute;
  repeat (first [ reflexivity
                | apply Qc_is_canon; reflexivity
                | progress f_equal ]).

(** Unfold the monad down to functions on worlds. *)
Ltac run_m :=
  unfold run, mbind, mret, M_bind, M_ret, time_time, get_self, set_self, lift,
    print, raise, store_call in *;
  cbn in *.

(** * Properties *)

(** ** The result buffer *)

Section Deque.
Context {A : Type}.
Implicit Types (d : Py.deque A) (x : A) (xs : list A).

Lemma maxlen_append d x : Py.maxlen (Py.deque_append d x) = Py.maxlen d.
Proof. reflexivity. Qed.

Lemma maxlen_appends xs : ∀ d, Py.maxlen (appends d xs) = Py.maxlen d.
Proof.
  induction xs as [|x xs IH]; intros d; [reflexivity|].
  unfold appends in *. simpl. now rewrite IH.
Qed.

Lemma appends_snoc d xs x :
  appends d (xs ++ [x]) = Py.deque_append (appends d xs) x.
Proof. unfold appends. now rewrite foldl_app. Qed.

(** One append to a deque that respects its bound keeps the last [maxlen]
    elements of the extended sequence. *)
Lemma items_append d x :
  (Py.len d ≤ Py.maxlen d)%nat →
  Py.items (Py.deque_append d x)
  = drop (S (Py.len d) - Py.maxlen d) (Py.items d ++ [x]).
Proof.
  unfold Py.len, Py.deque_append. intros Hle. simpl.
  rewrite length_app. simpl.
  case_decide as Hfull.
  - replace (S (length (Py.items d)) - Py.maxlen d)%nat with 1%nat by lia.
    reflexivity.
  - replace (S (length (Py.items d)) - Py.maxlen d)%nat with 0%nat by lia.
    reflexivity.
Qed.

(** From the empty deque, the content after any appends is the suffix of
    the appended sequence that fits. *)
Lemma items_appends (C : nat) xs :
  Py.items (appends (Py.deque_new C) xs) = drop (length xs - C) xs.
Proof.
  induction xs as [|x xs IH] using rev_ind.
  - reflexivity.
  - rewrite appends_snoc, items_append.
    + unfold Py.len. rewrite maxlen_appends, IH. simpl.
      rewrite length_drop, length_app. simpl.
      destruct (decide (length xs ≤ C)%nat) as [Hle|Hgt].
      * replace (length xs - C)%nat with 0%nat by lia.
        rewrite drop_0.
        f_equal. lia.
      * replace (S (length xs - (length xs - C)) - C)%nat with 1%nat by lia.
        rewrite <- (drop_app_le xs [x] (length xs - C)) by lia.
        rewrite drop_drop.
        f_equal. lia.
    + unfold Py.len. rewrite maxlen_appends, IH. simpl.
      rewrite length_drop. lia.
Qed.

Lemma len_appends (C : nat) xs :
  Py.len (appends (Py.deque_new C) xs) = (length xs `min` C)%nat.
Proof. unfold Py.len. rewrite items_appends, length_drop. lia. Qed.

End Deque.

(** ** Recording results *)

Section Recording.
Implicit Types (self : Tester) (r : TestResult) (rs : list TestResult).

Lemma count_success_snoc b rs r :
  count_success b (rs ++ [r])
  = count_success b rs + (if decide (success r = b) then 1 else 0).
Proof.
  unfold count_success. rewrite filter_app, length_app, filter_cons, filter_nil.
  case_decide; simpl; lia.
Qed.

Lemma count_success_total rs :
  count_success true rs + count_success false rs = Z.of_nat (length rs).
Proof.
  induction rs as [|r rs IH] using rev_ind; [reflexivity|].
  rewrite !count_success_snoc, length_app. simpl.
  destruct (success r); repeat case_decide; try congruence; lia.
Qed.

Lemma count_success_nonneg b rs : 0 ≤ count_success b rs.
Proof. unfold count_success. lia. Qed.

Lemma record_result_results self r :
  results (record_result self r) = Py.deque_append (results self) r.
Proof. unfold record_result. now destruct (success r). Qed.

Lemma record_result_total self r :
  total_operations (record_result self r) = total_operations self + 1.
Proof. unfold record_result. now destruct (success r). Qed.

Lemma record_result_successful self r :
  successful_operations (record_result self r)
  = successful_operations self + (if success r then 1 else 0).
Proof. unfold record_result. destruct (success r); simpl; lia. Qed.

Lemma record_result_failed self r :
  failed_operations (record_result self r)
  = failed_operations self + (if success r then 0 else 1).
Proof. unfold record_result. destruct (success r); simpl; lia. Qed.

Lemma record_result_frame self r :
  config (record_result self r) = config self
  ∧ start_time (record_result self r) = start_time self
  ∧ running (record_result self r) = running self.
Proof. unfold record_result. now destruct (success r). Qed.

Lemma record_all_snoc self rs r :
  record_all self (rs ++ [r]) = record_result (record_all self rs) r.
Proof. unfold record_all. now rewrite foldl_app. Qed.

Lemma record_all_results self rs :
  results (record_all self rs) = appends (results self) rs.
Proof.
  induction rs as [|r rs IH] using rev_ind; [reflexivity|].
  now rewrite record_all_snoc, record_result_results, IH, appends_snoc.
Qed.

Lemma record_all_total self rs :
  total_operations (record_all self rs)
  = total_operations self + Z.of_nat (length rs).
Proof.
  induction rs as [|r rs IH] using rev_ind; [simpl; lia|].
  rewrite record_all_snoc, record_result_total, IH, length_app. simpl. lia.
Qed.

Lemma record_all_successful self rs :
  successful_operations (record_all self rs)
  = successful_operations self + count_success true rs.
Proof.
  induction rs as [|r rs IH] using rev_ind; [unfold count_success; simpl; lia|].
  rewrite record_all_snoc, record_result_successful, IH, count_success_snoc.
  destruct (success r); case_decide; try congruence; lia.
Qed.

Lemma record_all_failed self rs :
  failed_operations (record_all self rs)
  = failed_operations self + count_success false rs.
Proof.
  induction rs as [|r rs IH] using rev_ind; [unfold count_success; simpl; lia|].
  rewrite record_all_snoc, record_result_failed, IH, count_success_snoc.
  destruct (success r); case_decide; try congruence; lia.
Qed.

Lemma record_all_frame self rs :
  config (record_all self rs) = config self
  ∧ start_time (record_all self rs) = start_time self
  ∧ running (record_all self rs) = running self.
Proof.
  induction rs as [|r rs IH] using rev_ind; [done|].
  rewrite record_all_snoc.
  destruct (record_result_frame (record_all self rs) r) as (-> & -> & ->).
  exact IH.
Qed.

End Recording.

(** C2.  Appending any sequence of N entries to an empty bounded deque of
    capacity C leaves min(N, C) entries, namely the last min(N, C) entries of
    the sequence in the order they were appended, and no prefix of the
    sequence ever makes the deque longer than C.  The result buffer of the
    tester is such a deque with C = 1000, and recording a sequence of results
    appends them to it one by one. *)
Theorem result_buffer_keeps_most_recent :
  (∀ (A : Type) (C : nat) (xs : list A),
      let d := appends (Py.deque_new C) xs in
      Py.len d = (length xs `min` C)%nat
      ∧ Py.items d = drop (length xs - C) xs
      ∧ ∀ k, (Py.len (appends (Py.deque_new C) (take k xs)) ≤ C)%nat)
  ∧ (∀ (cfg : TestConfig) (rs : list TestResult),
      let buffer := results (record_all (init cfg) rs) in
      Py.maxlen buffer = 1000%nat
      ∧ Py.len buffer = (length rs `min` 1000)%nat
      ∧ Py.items buffer = drop (length rs - 1000) rs
      ∧ ∀ k, (Py.len (results (record_all (init cfg) (take k rs))) ≤ 1000)%nat).
Proof.
  split.
  - intros A C xs d. subst d. split; [apply len_appends|].
    split; [apply items_appends|].
    intros k. rewrite len_appends. lia.
  - intros cfg rs buffer. subst buffer.
    rewrite record_all_results. simpl.
    change (Py.Deque 1000 []) with (@Py.deque_new TestResult 1000).
    split; [apply maxlen_appends|].
    split; [apply len_appends|].
    split; [apply items_appends|].
    intros k. rewrite record_all_results. simpl.
    change (Py.Deque 1000 []) with (@Py.deque_new TestResult 1000).
    rewrite len_appends. lia.
Qed.

(** C3.  Recording one result adds exactly 1 to [total_operations] and
    exactly 1 to exactly one of [successful_operations] and
    [failed_operations]; after any sequence of recorded results, started from
    a fresh tester, the total is the sum of the other two; and recording
    never decreases any of the three counters. *)
Theorem counters_add_up :
  (∀ (self : Tester) (r : TestResult),
      let self' := record_result self r in
      total_operations self' = total_operations self + 1
      ∧ ((successful_operations self' = successful_operations self + 1
          ∧ failed_operations self' = failed_operations self)
         ∨ (successful_operations self' = successful_operations self
            ∧ failed_operations self' = failed_operations self + 1)))
  ∧ (∀ (cfg : TestConfig) (rs : list TestResult),
      let self := record_all (init cfg) rs in
      total_operations self
      = successful_operations self + failed_operations self)
  ∧ (∀ (self : Tester) (rs : list TestResult),
      let self' := record_all self rs in
      total_operations self ≤ total_operations self'
      ∧ successful_operations self ≤ successful_operations self'
      ∧ failed_operations self ≤ failed_operations self').
Proof.
  split; [|split].
  - intros self r self'. subst self'.
    rewrite record_result_total, record_result_successful, record_result_failed.
    split; [reflexivity|]. destruct (success r); [left|right]; lia.
  - intros cfg rs self. subst self.
    rewrite record_all_total, record_all_successful, record_all_failed. simpl.
    pose proof (count_success_total rs). lia.
  - intros self rs self'. subst self'.
    rewrite record_all_total, record_all_successful, record_all_failed.
    pose proof (count_success_nonneg true rs).
    pose proof (count_success_nonneg false rs). lia.
Qed.

(** ** The Python runtime never fails where the module uses it *)

Section Runtime.

Lemma float_eq_0 n : Py.float n = 0%Qc → n = 0.
Proof.
  unfold Py.float. rewrite <- Z2Qc_inj_0. apply Z2Qc_inj.
Qed.

Lemma truediv_Normal a b : b ≠ 0%Qc → Py.truediv a b = Py.Normal (a / b)%Qc.
Proof. intros Hb. unfold Py.truediv. now case_decide. Qed.

Lemma truediv_float a n : n ≠ 0 → Py.truediv a (Py.float n) = Py.Normal (a / Py.float n)%Qc.
Proof. intros Hn. apply truediv_Normal. intros H. now apply float_eq_0 in H. Qed.

Lemma subscript_Normal {A : Type} (l : list A) (i : Z) (d : A) :
  0 ≤ i < Z.of_nat (length l) →
  Py.subscript l i = Py.Normal (default d (l !! Z.to_nat i)).
Proof.
  intros Hi. unfold Py.subscript.
  repeat case_decide; try lia.
  destruct (lookup_lt_is_Some_2 l (Z.to_nat i)) as [x Hx]; [lia|].
  now rewrite Hx.
Qed.

Lemma mapM_Normal {A B : Type} (f : A → Py.res B) (g : A → B) (l : list A) :
  (∀ x, x ∈ l → f x = Py.Normal (g x)) → mapM f l = Py.Normal (g <$> l).
Proof.
  induction l as [|x l IH]; intros Hf; [reflexivity|].
  cbn. rewrite (Hf x) by left. cbn.
  rewrite IH by (intros y Hy; apply Hf; now right). reflexivity.
Qed.

Lemma length_sorted data : length (Py.sorted data) = length data.
Proof.
  unfold Py.sorted. apply Permutation_length, merge_sort_Permutation.
Qed.

(** With at least two data points and [n ≥ 1], [statistics.quantiles]
    returns the [n - 1] cut points of the exclusive method. *)
Lemma quantiles_Normal data n :
  1 ≤ n → (2 ≤ length data)%nat →
  Py.quantiles data n
  = Py.Normal (exclusive_cut data n <$> Py.range 1 n).
Proof.
  intros Hn Hld. unfold Py.quantiles.
  case_decide; [lia|]. rewrite length_sorted.
  case_decide; [lia|].
  apply mapM_Normal. intros i _. unfold exclusive_cut.
  set (j := if decide (_ < 1) then 1 else _).
  assert (1 ≤ j ≤ Z.of_nat (length data) - 1) as Hj
    by (subst j; repeat case_decide; lia).
  rewrite (subscript_Normal _ _ 0%Qc) by (rewrite length_sorted; lia).
  cbn.
  rewrite (subscript_Normal _ _ 0%Qc) by (rewrite length_sorted; lia).
  cbn. apply truediv_float. lia.
Qed.

Lemma percentile_Normal latencies n index avg :
  1 ≤ n → 0 ≤ index < n - 1 →
  percentile latencies n index avg
  = Py.Normal (if decide (1 < length latencies)%nat
               then exclusive_cut latencies n (index + 1)
               else avg).
Proof.
  intros Hn Hi. unfold percentile. case_decide; [|reflexivity].
  rewrite quantiles_Normal by lia. cbn.
  rewrite (subscript_Normal _ _ 0%Qc)
    by (rewrite length_fmap; unfold Py.range; rewrite length_seqZ; lia).
  rewrite list_lookup_fmap. unfold Py.range.
  rewrite lookup_seqZ_lt by lia. cbn.
  do 2 f_equal. lia.
Qed.

Lemma mean_Normal data :
  data ≠ [] →
  Py.mean data
  = Py.Normal (Py.sum data / Py.float (Z.of_nat (length data)))%Qc.
Proof.
  intros Hne. unfold Py.mean.
  destruct data as [|x data]; [done|].
  case_decide; [simpl in *; lia|].
  apply truediv_float. simpl. lia.
Qed.

Lemma min_Normal data : data ≠ [] → Py.is_Normal (Py.min data) = true.
Proof. now destruct data. Qed.

Lemma max_Normal data : data ≠ [] → Py.is_Normal (Py.max data) = true.
Proof. now destruct data. Qed.

End Runtime.

(** ** Percentiles *)

Lemma mean_singleton x : Py.mean [x] = Py.Normal x.
Proof.
  rewrite mean_Normal by done. f_equal. simpl.
  unfold Py.float. change (Z.of_nat 1) with 1. rewrite Z2Qc_inj_1.
  field. discriminate.
Qed.

(** C1, as stated, fails: on the latencies 10, 20, 30, 40, 50 the nearest-rank
    95th percentile is 50, and the value the code computes is not 50. *)
Lemma p95_is_not_nearest_rank :
  nearest_rank 95 example_latencies = Py.Normal (Py.float 50)
  ∧ percentile example_latencies 20 18 (Py.float 30) ≠ Py.Normal (Py.float 50)
  ∧ percentile example_latencies 20 18 (Py.float 30)
    ≠ nearest_rank 95 example_latencies.
Proof.
  assert (nearest_rank 95 example_latencies = Py.Normal (Py.float 50)) as Hnr.
  { qc_compute. }
  split; [exact Hnr|].
  assert (percentile example_latencies 20 18 (Py.float 30)
          ≠ Py.Normal (Py.float 50)) as Hne.
  { intros H. vm_compute in H. discriminate H. }
  split; [exact Hne|]. now rewrite Hnr.
Qed.

(** C1, amended.  The 95th percentile is cut point 19 of the 20-quantiles of
    [statistics.quantiles] with its default exclusive method whenever there
    is more than one latency, and the mean otherwise.  On the latencies 10,
    20, 30, 40, 50 the mean is 30 and the 95th percentile is 57, in the
    reporter as in the final results; on the latencies 250, 500, 125, 1000
    the 95th percentile is 1375 and the 99th is 1475, both beyond the
    largest latency; with a single recorded result both are its latency;
    with none both are 0. *)
Theorem p95_is_exclusive_quantile :
  (∀ (latencies : list Qc) (avg : Qc),
      percentile latencies 20 18 avg
      = Py.Normal (if decide (1 < length latencies)%nat
                   then exclusive_cut latencies 20 19
                   else avg))
  ∧ Py.mean example_latencies = Py.Normal (Py.float 30)
  ∧ percentile example_latencies 20 18 (Py.float 30) = Py.Normal (Py.float 57)
  ∧ percentile uneven_latencies 20 18 0%Qc = Py.Normal (Py.float 1375)
  ∧ percentile uneven_latencies 100 98 0%Qc = Py.Normal (Py.float 1475)
  ∧ (∀ cfg : TestConfig,
        reporter_latency_stats (example_tester cfg)
        = Py.Normal (Py.float 30, Py.float 57)
        ∧ avg_latency <$> final_latency_stats (example_tester cfg)
          = Py.Normal (Py.float 30)
        ∧ p95_latency <$> final_latency_stats (example_tester cfg)
          = Py.Normal (Py.float 57))
  ∧ (∀ (cfg : TestConfig) (r : TestResult),
        reporter_latency_stats (record_all (init cfg) [r])
        = Py.Normal (latency_ms r, latency_ms r)
        ∧ avg_latency <$> final_latency_stats (record_all (init cfg) [r])
          = Py.Normal (latency_ms r)
        ∧ p95_latency <$> final_latency_stats (record_all (init cfg) [r])
          = Py.Normal (latency_ms r))
  ∧ (∀ cfg : TestConfig,
        reporter_latency_stats (init cfg) = Py.Normal (0%Qc, 0%Qc)
        ∧ final_latency_stats (init cfg)
          = Py.Normal (mkLatencyStats 0 0 0 0 0)).
Proof.
  split; [|split; [|split; [|split; [|split; [|split; [|split]]]]]].
  - intros latencies avg. now apply percentile_Normal.
  - qc_compute.
  - qc_compute.
  - qc_compute.
  - qc_compute.
  - intros cfg. split; [|split]; qc_compute.
  - intros cfg r.
    assert (Py.items (results (record_all (init cfg) [r])) = [r]) as Hitems
      by now rewrite record_all_results.
    assert (Py.truthy (results (record_all (init cfg) [r])) = true) as Htruthy
      by (unfold Py.truthy; now rewrite Hitems).
    unfold reporter_latency_stats, final_latency_stats, latency_summary,
      recent_latencies, latencies.
    rewrite Htruthy, Hitems. cbn [Py.last_slice length drop Nat.sub fmap list_fmap].
    rewrite mean_singleton. cbn.
    rewrite !percentile_Normal by lia. cbn. done.
  - intros cfg. done.
Qed.

(** On thirty latencies that grow as the squares, the cut points lie
    between the two largest latencies, 784000 and 841000, and beyond the
    largest. *)
Lemma percentiles_of_square_latencies :
  percentile square_latencies 20 18 0%Qc = Py.Normal (Py.float 809650)
  ∧ percentile square_latencies 100 98 0%Qc = Py.Normal (Py.float 880330).
Proof. split; qc_compute. Qed.

(** ** Metrics *)

Section Metrics.
Implicit Types (self : Tester) (e : Env).

Lemma throughput_value self (seconds : Qc) :
  throughput self seconds
  = Py.Normal (if decide (0 < seconds)%Qc
               then (Py.float (total_operations self) / seconds)%Qc
               else 0%Qc).
Proof.
  unfold throughput. case_decide as Hpos; [|reflexivity].
  apply truediv_Normal. intros ->. now apply Qclt_not_eq in Hpos.
Qed.

Lemma success_rate_value self :
  success_rate self
  = Py.Normal (if decide (0 < total_operations self)
               then (Py.float (successful_operations self)
                     / Py.float (total_operations self) * Py.float 100)%Qc
               else 0%Qc).
Proof.
  unfold success_rate. case_decide as Hpos; [|reflexivity].
  rewrite truediv_float by lia. reflexivity.
Qed.

Lemma truthy_items self :
  Py.truthy (results self) = true → Py.items (results self) ≠ [].
Proof. unfold Py.truthy. now intros H%bool_decide_eq_true. Qed.

Lemma last_slice_nonempty {A : Type} (k : nat) (l : list A) :
  (0 < k)%nat → l ≠ [] → Py.last_slice k l ≠ [].
Proof.
  intros Hk Hl Hnil. apply (f_equal length) in Hnil.
  unfold Py.last_slice in Hnil. rewrite length_drop in Hnil. simpl in Hnil.
  destruct l; [done|]. simpl in Hnil. lia.
Qed.

Lemma fmap_nonempty {A B : Type} (f : A → B) (l : list A) :
  l ≠ [] → f <$> l ≠ [].
Proof. now destruct l. Qed.

Lemma reporter_latency_stats_Normal self :
  ∃ stats, reporter_latency_stats self = Py.Normal stats.
Proof.
  unfold reporter_latency_stats.
  destruct (Py.truthy (results self)) eqn:Htruthy; [|eauto].
  rewrite mean_Normal
    by (apply fmap_nonempty, last_slice_nonempty, truthy_items; [lia|done]).
  cbn. rewrite percentile_Normal by lia. cbn. eauto.
Qed.

Lemma final_latency_stats_Normal self :
  ∃ stats, final_latency_stats self = Py.Normal stats.
Proof.
  unfold final_latency_stats, latency_summary.
  destruct (Py.truthy (results self)) eqn:Htruthy; [|eauto].
  assert (latencies self ≠ []) as Hne
    by (apply fmap_nonempty, truthy_items; done).
  rewrite mean_Normal by done. cbn.
  destruct (latencies self) as [|x l] eqn:Hl; [done|]. cbn.
  rewrite !percentile_Normal by lia. cbn. eauto.
Qed.

(** One tick of the reporter on a started tester prints one metrics line
    and raises nothing. *)
Lemma reporter_tick_run self e t0 :
  start_time self = Some t0 →
  ∃ m, run reporter_tick e self
       = (Py.Normal (), mkWorld e 1 [MetricsLine m] self)
     ∧ ms_elapsed m = (clock e 0%nat - t0)%Qc
     ∧ Py.Normal (ms_throughput m) = throughput self (clock e 0%nat - t0)%Qc
     ∧ Py.Normal (ms_success_rate m) = success_rate self
     ∧ Py.Normal (ms_avg_latency m, ms_p95_latency m)
       = reporter_latency_stats self
     ∧ ms_total_operations m = total_operations self.
Proof.
  intros Hstart.
  destruct (reporter_latency_stats_Normal self) as [[avg p95] Hstats].
  unfold reporter_tick, elapsed. run_m. rewrite Hstart. cbn.
  rewrite throughput_value, success_rate_value, Hstats. cbn.
  eexists. split; [reflexivity|]. done.
Qed.

Lemma print_final_results_run self e t0 :
  start_time self = Some t0 →
  ∃ r, run print_final_results e self
       = (Py.Normal (), mkWorld e 1 [FinalResults r] self)
     ∧ fr_elapsed r = (clock e 0%nat - t0)%Qc
     ∧ Py.Normal (fr_throughput r) = throughput self (clock e 0%nat - t0)%Qc
     ∧ Py.Normal (fr_success_rate r) = success_rate self
     ∧ Py.Normal (mkLatencyStats (fr_avg_latency r) (fr_min_latency r)
                    (fr_max_latency r) (fr_p95_latency r) (fr_p99_latency r))
       = final_latency_stats self
     ∧ fr_total_operations r = total_operations self
     ∧ fr_successful_operations r = successful_operations self
     ∧ fr_failed_operations r = failed_operations self.
Proof.
  intros Hstart.
  destruct (final_latency_stats_Normal self) as [[avg lo hi p95 p99] Hstats].
  unfold print_final_results, elapsed. run_m. rewrite Hstart. cbn.
  rewrite throughput_value, success_rate_value, Hstats. cbn.
  eexists. split; [reflexivity|]. done.
Qed.

End Metrics.

(** ** One attempt *)

Section Attempt.
Implicit Types (s : StoreBehaviour) (e : Env) (w : World).

(** Whatever the store answers, as long as what it raises derives from
    [Exception], the [try] statement of [perform_operation] returns a
    result.  The result is a success exactly when the attempt goes through,
    it is stamped with the start of the attempt, and its duration runs
    from that start to the last clock reading.  Nothing is printed and
    [self] is not touched. *)
Lemma perform_operation_try_run worker start w :
  raises_only_Exception (store (env w)) →
  ∃ k : nat,
    (1 ≤ k ≤ 2)%nat
    ∧ perform_operation_try worker start w
      = (Py.Normal
           (mkTestResult (goes_through (store (env w)))
              (clock (env w) (clock_reads w + k - 1)%nat - start)%Qc
              start worker),
         mkWorld (env w) (clock_reads w + k) (stdout w) (self_of w)).
Proof.
  destruct w as [[clk s] reads out self].
  destruct s as [acq fv fr ur ex rel].
  unfold raises_only_Exception, goes_through. cbn.
  intros (Hacq & Hfv & Hfr & Hur & Hex & Hrel).
  unfold perform_operation_try, try_except_Exception, async_with_acquire,
    modify_vehicle_data.
  run_m.
  destruct acq as [[]|e1]; cbn in *.
  2: { rewrite Hacq. exists 1%nat. split; [lia|].
       repeat f_equal; lia. }
  destruct fv as [[vin|]|e2]; cbn in *.
  3: { destruct rel as [[]|e6]; cbn in *.
       - rewrite Hfv. exists 1%nat. split; [lia|]. repeat f_equal; lia.
       - rewrite Hrel. exists 1%nat. split; [lia|]. repeat f_equal; lia. }
  2: { destruct rel as [[]|e6]; cbn in *.
       - exists 1%nat. split; [lia|]. repeat f_equal; lia.
       - rewrite Hrel. exists 2%nat. split; [lia|]. repeat f_equal; lia. }
  destruct vin as [|c vin]; cbn in *.
  { destruct rel as [[]|e6]; cbn in *.
    - exists 1%nat. split; [lia|]. repeat f_equal; lia.
    - rewrite Hrel. exists 2%nat. split; [lia|]. repeat f_equal; lia. }
  specialize (Hfr (String c vin)).
  destruct (fr (String c vin)) as [[row|]|e3]; cbn in *.
  3: { destruct rel as [[]|e6]; cbn in *.
       - rewrite Hfr. exists 1%nat. split; [lia|]. repeat f_equal; lia.
       - rewrite Hrel. exists 1%nat. split; [lia|]. repeat f_equal; lia. }
  2: { destruct rel as [[]|e6]; cbn in *.
       - exists 1%nat. split; [lia|]. repeat f_equal; lia.
       - rewrite Hrel. exists 2%nat. split; [lia|]. repeat f_equal; lia. }
  destruct ur as [data|e4]; cbn in *.
  2: { destruct rel as [[]|e6]; cbn in *.
       - rewrite Hur. exists 1%nat. split; [lia|]. repeat f_equal; lia.
       - rewrite Hrel. exists 1%nat. split; [lia|]. repeat f_equal; lia. }
  specialize (Hex data (String c vin)).
  destruct (ex data (String c vin)) as [[]|e5]; cbn in *.
  2: { destruct rel as [[]|e6]; cbn in *.
       - rewrite Hex. exists 1%nat. split; [lia|]. repeat f_equal; lia.
       - rewrite Hrel. exists 1%nat. split; [lia|]. repeat f_equal; lia. }
  destruct rel as [[]|e6]; cbn in *.
  - exists 1%nat. split; [lia|]. repeat f_equal; lia.
  - rewrite Hrel. exists 2%nat. split; [lia|]. repeat f_equal; lia.
Qed.

End Attempt.

(** ** The worker loop *)

Section Worker.
Implicit Types (e : Env) (w : World) (pc : worker_pc).

(** The loop test fails on a cleared flag without reading the clock. *)
Lemma worker_while_stopped worker operations w :
  running (self_of w) = false →
  worker_while worker operations w
  = (Py.Normal WReturned,
     mkWorld (env w) (clock_reads w)
             (stdout w ++ [WorkerLine worker operations]) (self_of w)).
Proof. intros Hrun. unfold worker_while. run_m. now rewrite Hrun. Qed.

(** With the flag set, the loop test reads the clock once and compares it
    with the deadline; when it passes, the next attempt starts with a
    second reading. *)
Lemma worker_while_running worker operations w t0 :
  running (self_of w) = true →
  start_time (self_of w) = Some t0 →
  worker_while worker operations w
  = if decide (clock (env w) (clock_reads w)
               < t0 + Py.float (duration (config (self_of w))))%Qc
    then (Py.Normal
            (WInAttempt operations (clock (env w) (S (clock_reads w)))),
          mkWorld (env w) (S (S (clock_reads w))) (stdout w) (self_of w))
    else (Py.Normal WReturned,
          mkWorld (env w) (S (clock_reads w))
                  (stdout w ++ [WorkerLine worker operations]) (self_of w)).
Proof.
  intros Hrun Hstart. unfold worker_while. run_m.
  rewrite Hrun, Hstart. cbn.
  case_decide as Hlt.
  - now rewrite bool_decide_eq_true_2.
  - now rewrite bool_decide_eq_false_2.
Qed.


End Worker.

(** ** Containment of failures *)




(** The containment stops at [Exception]: a cancellation delivered while the
    attempt awaits the store leaves [perform_operation] as an exception. *)
Lemma perform_operation_propagates_cancellation (worker : nat) (e : Env)
    (self : Tester) :
  on_acquire (store e) = Py.Raised Py.CancelledError →
  (run (perform_operation worker) e self).1 = Py.Raised Py.CancelledError.
Proof.
  intros Hacq.
  unfold perform_operation, perform_operation_try, try_except_Exception,
    async_with_acquire.
  run_m. now rewrite Hacq.
Qed.

(** ** The empty store *)

Lemma perform_operation_no_keys (worker : nat) (e : Env) (self : Tester) :
  no_keys (store e) →
  run (perform_operation worker) e self
  = (Py.Normal (mkTestResult false (clock e 1%nat - clock e 0%nat)%Qc
                             (clock e 0%nat) worker),
     mkWorld e 2 [] self).
Proof.
  intros (Hacq & Hfv & Hrel).
  unfold perform_operation, perform_operation_try, try_except_Exception,
    async_with_acquire.
  run_m. rewrite Hacq. cbn. rewrite Hfv. cbn. now rewrite Hrel.
Qed.

Lemma count_success_true_all_failed (rs : list TestResult) :
  Forall (λ r, success r = false) rs → count_success true rs = 0.
Proof.
  unfold count_success. induction 1 as [|r rs Hr _ IH]; [reflexivity|].
  rewrite filter_cons. case_decide; [congruence|exact IH].
Qed.

(** C6.  When the store holds no key, every attempt returns a result with
    [success = False] and raises nothing; recording these results adds one
    to the total and one to the failures for each attempt and leaves the
    successes at 0; the success rate of the final results is 0. *)
Theorem empty_store_attempts_all_fail
    (cfg : TestConfig) (t0 : Qc) (attempts : list (nat * Env)) (e : Env) :
  Forall (λ a, no_keys (store a.2)) attempts →
  ∃ rs : list TestResult,
    Forall2 (λ a r, (∀ self, attempt_result self a = Py.Normal r)
                    ∧ success r = false) attempts rs
    ∧ total_operations (record_all (started cfg t0) rs)
      = Z.of_nat (length attempts)
    ∧ successful_operations (record_all (started cfg t0) rs) = 0
    ∧ failed_operations (record_all (started cfg t0) rs)
      = Z.of_nat (length attempts)
    ∧ success_rate (record_all (started cfg t0) rs) = Py.Normal 0%Qc
    ∧ ∃ report,
        run print_final_results e (record_all (started cfg t0) rs)
        = (Py.Normal (),
           mkWorld e 1 [FinalResults report] (record_all (started cfg t0) rs))
        ∧ fr_success_rate report = 0%Qc
        ∧ fr_total_operations report = Z.of_nat (length attempts).
Proof.
  intros Hempty.
  assert (∃ rs : list TestResult,
            Forall2 (λ a r, (∀ self, attempt_result self a = Py.Normal r)
                            ∧ success r = false) attempts rs) as [rs Hrs].
  { induction Hempty as [|[worker ea] attempts Ha _ [rs IH]].
    - exists []. constructor.
    - eexists (_ :: rs). constructor; [|exact IH]. split.
      + intros self. unfold attempt_result. cbn.
        now rewrite perform_operation_no_keys.
      + reflexivity. }
  exists rs. split; [exact Hrs|].
  assert (length rs = length attempts) as Hlen
    by (symmetry; eapply Forall2_length; exact Hrs).
  assert (Forall (λ r, success r = false) rs) as Hfailed.
  { clear -Hrs. induction Hrs as [|a r attempts rs [_ Hr] _ IH]; constructor; done. }
  pose proof (count_success_true_all_failed rs Hfailed) as Hzero.
  pose proof (count_success_total rs) as Htotal.
  assert (successful_operations (record_all (started cfg t0) rs) = 0) as Hsucc
    by (rewrite record_all_successful; cbn; lia).
  assert (success_rate (record_all (started cfg t0) rs) = Py.Normal 0%Qc) as Hrate.
  { rewrite success_rate_value. f_equal. case_decide; [|reflexivity].
    rewrite Hsucc. unfold Py.float. rewrite Z2Qc_inj_0.
    unfold Qcdiv. now rewrite !Qcmult_0_l. }
  split; [rewrite record_all_total; cbn; lia|].
  split; [exact Hsucc|].
  split; [rewrite record_all_failed; cbn; lia|].
  split; [exact Hrate|].
  destruct (print_final_results_run (record_all (started cfg t0) rs) e t0)
    as (report & Hrun & _ & _ & Hsr & _ & Htot & _).
  { now destruct (record_all_frame (started cfg t0) rs) as (_ & -> & _). }
  exists report. split; [exact Hrun|]. split.
  - rewrite Hrate in Hsr. now injection Hsr.
  - rewrite Htot, record_all_total. cbn. lia.
Qed.

(** An instance: two attempts of two workers on the empty store. *)
Lemma empty_store_attempts_all_fail_witness :
  ∃ rs : list TestResult,
    length rs = 2%nat
    ∧ Forall (λ r, success r = false) rs
    ∧ total_operations (record_all (started sample_config 0%Qc) rs) = 2
    ∧ success_rate (record_all (started sample_config 0%Qc) rs)
      = Py.Normal 0%Qc.
Proof.
  destruct (empty_store_attempts_all_fail sample_config 0%Qc
              [(0%nat, mkEnv sample_clock empty_store);
               (1%nat, mkEnv sample_clock empty_store)]
              (mkEnv sample_clock empty_store))
    as (rs & Hrs & Htotal & _ & _ & Hrate & _).
  { repeat constructor. }
  exists rs. split; [symmetry; exact (Forall2_length _ _ _ Hrs)|].
  split; [|split; [exact Htotal|exact Hrate]].
  clear -Hrs. induction Hrs as [|a r attempts rs [_ Hr] _ IH]; constructor; done.
Defined.

(** ** Durations and what the statistics see *)





(** [min] and [max] of a non-empty list, as the folds that compute them:
    a member of the list that bounds all the others. *)
Lemma foldl_min (data : list Qc) :
  ∀ x, let m := foldl (λ m y, if decide (y < m)%Qc then y else m) x data in
       (m ≤ x)%Qc ∧ Forall (λ y, (m ≤ y)%Qc) data ∧ m ∈ x :: data.
Proof.
  induction data as [|y data IH]; intros x; cbn.
  - split; [apply Qcle_refl|]. split; [constructor|left].
  - destruct (IH (if decide (y < x)%Qc then y else x)) as (Hle & Hall & Hin).
    set (m := foldl _ _ data) in *.
    case_decide as Hlt.
    + split; [eapply Qcle_trans; [exact Hle|now apply Qclt_le_weak]|].
      split; [now constructor|].
      apply elem_of_cons in Hin as [->|Hin]; [right; left|do 2 right]; done.
    + apply Qcnot_lt_le in Hlt.
      split; [exact Hle|].
      split; [constructor; [eapply Qcle_trans; [exact Hle|exact Hlt]|done]|].
      apply elem_of_cons in Hin as [->|Hin]; [left|do 2 right]; done.
Qed.

Lemma foldl_max (data : list Qc) :
  ∀ x, let m := foldl (λ m y, if decide (m < y)%Qc then y else m) x data in
       (x ≤ m)%Qc ∧ Forall (λ y, (y ≤ m)%Qc) data ∧ m ∈ x :: data.
Proof.
  induction data as [|y data IH]; intros x; cbn.
  - split; [apply Qcle_refl|]. split; [constructor|left].
  - destruct (IH (if decide (x < y)%Qc then y else x)) as (Hle & Hall & Hin).
    set (m := foldl _ _ data) in *.
    case_decide as Hlt.
    + split; [eapply Qcle_trans; [apply Qclt_le_weak; exact Hlt|exact Hle]|].
      split; [now constructor|].
      apply elem_of_cons in Hin as [->|Hin]; [right; left|do 2 right]; done.
    + apply Qcnot_lt_le in Hlt.
      split; [exact Hle|].
      split; [constructor; [eapply Qcle_trans; [exact Hlt|exact Hle]|done]|].
      apply elem_of_cons in Hin as [->|Hin]; [left|do 2 right]; done.
Qed.




(** A failed attempt counts in every statistic: after a successful attempt
    of 10 ms and a failed one of 50 ms the average is 30 ms, the maximum
    is the 50 ms of the failed attempt, and the 95th percentile is 84 ms. *)
Lemma failed_attempts_count_in_the_statistics (cfg : TestConfig) :
  final_latency_stats (mixed_tester cfg)
  = Py.Normal (mkLatencyStats (Py.float 30) (Py.float 10) (Py.float 50)
                              (Py.float 84) (Py.float 444 / Py.float 5))
  ∧ reporter_latency_stats (mixed_tester cfg)
    = Py.Normal (Py.float 30, Py.float 84).
Proof. split; qc_compute. Qed.

(** ** Guarded divisions *)

(** C9.  On a started tester, whatever the counters, the buffer and the
    clock: the throughput is the quotient of the total by the elapsed time
    when the elapsed time is positive and 0 otherwise, the success rate is
    the percentage of successes when the total is positive and 0 otherwise,
    and both the tick of the reporter and the final results go through
    without raising, so that no division by zero (and no other error of the
    statistics) occurs. *)
Theorem divisions_are_guarded (self : Tester) (e : Env) (t0 : Qc) :
  start_time self = Some t0 →
  (∀ seconds : Qc,
      throughput self seconds
      = Py.Normal (if decide (0 < seconds)%Qc
                   then (Py.float (total_operations self) / seconds)%Qc
                   else 0%Qc))
  ∧ success_rate self
    = Py.Normal (if decide (0 < total_operations self)
                 then (Py.float (successful_operations self)
                       / Py.float (total_operations self) * Py.float 100)%Qc
                 else 0%Qc)
  ∧ (∃ m, run reporter_tick e self
          = (Py.Normal (), mkWorld e 1 [MetricsLine m] self)
        ∧ ms_throughput m
          = (if decide (0 < clock e 0%nat - t0)%Qc
             then (Py.float (total_operations self) / (clock e 0%nat - t0))%Qc
             else 0%Qc)
        ∧ ms_success_rate m
          = (if decide (0 < total_operations self)
             then (Py.float (successful_operations self)
                   / Py.float (total_operations self) * Py.float 100)%Qc
             else 0%Qc))
  ∧ (∃ r, run print_final_results e self
          = (Py.Normal (), mkWorld e 1 [FinalResults r] self)
        ∧ fr_throughput r
          = (if decide (0 < clock e 0%nat - t0)%Qc
             then (Py.float (total_operations self) / (clock e 0%nat - t0))%Qc
             else 0%Qc)
        ∧ fr_success_rate r
          = (if decide (0 < total_operations self)
             then (Py.float (successful_operations self)
                   / Py.float (total_operations self) * Py.float 100)%Qc
             else 0%Qc)).
Proof.
  intros Hstart.
  split; [intros seconds; apply throughput_value|].
  split; [apply success_rate_value|].
  split.
  - destruct (reporter_tick_run self e t0 Hstart)
      as (m & Hrun & _ & Hthroughput & Hrate & _).
    exists m. split; [exact Hrun|].
    rewrite throughput_value in Hthroughput.
    rewrite success_rate_value in Hrate.
    split; [now injection Hthroughput|now injection Hrate].
  - destruct (print_final_results_run self e t0 Hstart)
      as (r & Hrun & _ & Hthroughput & Hrate & _).
    exists r. split; [exact Hrun|].
    rewrite throughput_value in Hthroughput.
    rewrite success_rate_value in Hrate.
    split; [now injection Hthroughput|now injection Hrate].
Qed.

(** An instance: a tester started at time 5 with no recorded result, and a
    clock that reads 0: the elapsed time is negative, the total is 0, and
    the metrics line carries a throughput and a success rate of 0. *)
Lemma divisions_are_guarded_witness :
  ∃ m,
    run reporter_tick (mkEnv sample_clock empty_store)
        (started sample_config (Py.float 5))
    = (Py.Normal (),
       mkWorld (mkEnv sample_clock empty_store) 1 [MetricsLine m]
               (started sample_config (Py.float 5)))
    ∧ ms_throughput m = 0%Qc
    ∧ ms_success_rate m = 0%Qc.
Proof.
  destruct (divisions_are_guarded (started sample_config (Py.float 5))
              (mkEnv sample_clock empty_store) (Py.float 5) eq_refl)
    as (_ & _ & (m & Hrun & Hthroughput & Hrate) & _).
  exists m. split; [exact Hrun|]. split.
  - rewrite Hthroughput. reflexivity.
  - rewrite Hrate. reflexivity.
Defined.

(** ** What the final results cover *)

(** C5, as stated, fails: after the 1001 recorded results of [long_run] the
    latency statistics of the final results are not those of the full run
    (the maximum over the run is 1000 ms, the reported one is 0), and the
    success rate is not the one of the buffer contents (the buffer holds
    successes only, the reported rate is below 100). *)
Lemma final_results_do_not_cover_the_full_run :
  let self := record_all (started sample_config 0%Qc) long_run in
  final_latency_stats self ≠ latency_stats_over long_run
  ∧ max_latency <$> final_latency_stats self = Py.Normal 0%Qc
  ∧ max_latency <$> latency_stats_over long_run = Py.Normal (Py.float 1000)
  ∧ success_rate self ≠ success_rate_over (Py.items (results self))
  ∧ success_rate_over (Py.items (results self)) = Py.Normal (Py.float 100).
Proof.
  intros self.
  assert (max_latency <$> final_latency_stats self = Py.Normal 0%Qc) as Hbuf
    by (subst self; qc_compute).
  assert (max_latency <$> latency_stats_over long_run
          = Py.Normal (Py.float 1000)) as Hall
    by qc_compute.
  assert (success_rate_over (Py.items (results self))
          = Py.Normal (Py.float 100)) as Hrate
    by (subst self; qc_compute).
  split.
  { intros Heq. rewrite Heq, Hall in Hbuf. vm_compute in Hbuf. discriminate Hbuf. }
  split; [exact Hbuf|]. split; [exact Hall|]. split; [|exact Hrate].
  rewrite Hrate. intros Heq. subst self. vm_compute in Heq. discriminate Heq.
Qed.

Lemma final_latency_stats_over (self : Tester) :
  final_latency_stats self = latency_stats_over (Py.items (results self)).
Proof.
  unfold final_latency_stats, latency_stats_over, latencies, Py.truthy.
  destruct (Py.items (results self)); done.
Qed.

Lemma success_rate_full_run (self : Tester) (rs : list TestResult) :
  total_operations self = Z.of_nat (length rs) →
  successful_operations self = count_success true rs →
  success_rate self = success_rate_over rs.
Proof.
  intros Htotal Hsucc. unfold success_rate, success_rate_over.
  rewrite Htotal, Hsucc.
  destruct rs as [|r rs]; [reflexivity|].
  case_decide; [reflexivity|]. simpl in *. lia.
Qed.

(** C5, amended.  After any list of recorded results, the final results
    compute their latency statistics over the whole buffer, which holds the
    last 1000 results of the run at most (all of them while the run has
    recorded no more than 1000), whereas the reporter takes the last 100;
    the throughput and the success rate of the final results come from the
    counters, which count every recorded result of the run. *)
Theorem final_results_cover_the_buffer
    (cfg : TestConfig) (t0 : Qc) (rs : list TestResult) (e : Env) :
  let self := record_all (started cfg t0) rs in
  let kept := drop (length rs - 1000) rs in
  Py.items (results self) = kept
  ∧ latencies self = latency_ms <$> kept
  ∧ recent_latencies self = latency_ms <$> drop (length rs - 100) rs
  ∧ final_latency_stats self = latency_stats_over kept
  ∧ total_operations self = Z.of_nat (length rs)
  ∧ successful_operations self = count_success true rs
  ∧ failed_operations self = count_success false rs
  ∧ success_rate self = success_rate_over rs
  ∧ ∃ report,
      run print_final_results e self
      = (Py.Normal (), mkWorld e 1 [FinalResults report] self)
      ∧ Py.Normal (mkLatencyStats (fr_avg_latency report)
                     (fr_min_latency report) (fr_max_latency report)
                     (fr_p95_latency report) (fr_p99_latency report))
        = latency_stats_over kept
      ∧ Py.Normal (fr_success_rate report) = success_rate_over rs
      ∧ Py.Normal (fr_throughput report)
        = throughput self (clock e 0%nat - t0)%Qc.
Proof.
  intros self kept.
  assert (Py.items (results self) = kept) as Hitems.
  { subst self kept. rewrite record_all_results. apply items_appends. }
  assert (total_operations self = Z.of_nat (length rs)) as Htotal
    by (subst self; rewrite record_all_total; cbn; lia).
  assert (successful_operations self = count_success true rs) as Hsucc
    by (subst self; rewrite record_all_successful; cbn; lia).
  assert (success_rate self = success_rate_over rs) as Hrate
    by now apply success_rate_full_run.
  assert (final_latency_stats self = latency_stats_over kept) as Hstats
    by now rewrite final_latency_stats_over, Hitems.
  split; [exact Hitems|].
  split; [unfold latencies; now rewrite Hitems|].
  split.
  { unfold recent_latencies, Py.last_slice. rewrite Hitems. subst kept.
    rewrite length_drop, drop_drop. do 2 f_equal. lia. }
  split; [exact Hstats|]. split; [exact Htotal|]. split; [exact Hsucc|].
  split; [subst self; rewrite record_all_failed; cbn; lia|].
  split; [exact Hrate|].
  destruct (print_final_results_run self e t0)
    as (report & Hrun & _ & Hthroughput & Hsr & Hls & _).
  { subst self. now destruct (record_all_frame (started cfg t0) rs) as (_ & -> & _). }
  exists report. split; [exact Hrun|].
  rewrite <- Hstats, <- Hrate. done.
Qed.

(** ** What a segment can do to the world *)

Section Effects.
Context (Pout : output → Prop) (R : Tester → Tester → Prop).
Context (R_refl : ∀ t, R t t).
Context (R_trans : ∀ t1 t2 t3, R t1 t2 → R t2 t3 → R t1 t3).

Lemma extends_refl w : extends Pout R w w.
Proof.
  split; [reflexivity|]. split; [|apply R_refl].
  exists []. now rewrite app_nil_r.
Qed.

Lemma extends_trans w1 w2 w3 :
  extends Pout R w1 w2 → extends Pout R w2 w3 → extends Pout R w1 w3.
Proof.
  intros (He1 & (o1 & Ho1 & HP1) & HR1) (He2 & (o2 & Ho2 & HP2) & HR2).
  split; [congruence|]. split; [|eauto].
  exists (o1 ++ o2). split; [|now apply Forall_app].
  now rewrite Ho2, Ho1, app_assoc.
Qed.

Lemma respects_ret {A : Type} (a : A) : respects Pout R (mret a).
Proof. intros w. apply extends_refl. Qed.

Lemma respects_raise {A : Type} (ex : Py.exn) : respects Pout R (@raise A ex).
Proof. intros w. apply extends_refl. Qed.

Lemma respects_lift {A : Type} (r : Py.res A) : respects Pout R (lift r).
Proof. intros w. apply extends_refl. Qed.

Lemma respects_get_self : respects Pout R get_self.
Proof. intros w. apply extends_refl. Qed.

Lemma respects_store_call {A : Type} (answer : StoreBehaviour → Py.res A) :
  respects Pout R (store_call answer).
Proof. intros w. apply extends_refl. Qed.

Lemma respects_time_time : respects Pout R time_time.
Proof.
  intros w. split; [reflexivity|]. split; [|apply R_refl].
  exists []. now rewrite app_nil_r.
Qed.

Lemma respects_print (o : output) : Pout o → respects Pout R (print o).
Proof.
  intros Ho w. split; [reflexivity|]. split; [|apply R_refl].
  exists [o]. split; [reflexivity|]. now constructor.
Qed.

Lemma respects_bind {A B : Type} (m : M A) (k : A → M B) :
  respects Pout R m → (∀ a, respects Pout R (k a)) → respects Pout R (m ≫= k).
Proof.
  intros Hm Hk w. unfold mbind, M_bind.
  specialize (Hm w). destruct (m w) as [[a|ex] w1]; [|exact Hm].
  eapply extends_trans; [exact Hm|apply Hk].
Qed.

(** [self.field = ...]: reading [self] and writing it back changed. *)
Lemma respects_update (f : Tester → Tester) :
  (∀ t, R t (f t)) → respects Pout R (get_self ≫= λ self, set_self (f self)).
Proof.
  intros Hf w. split; [reflexivity|]. split; [|apply Hf].
  exists []. cbn. now rewrite app_nil_r.
Qed.

Lemma respects_try_except {A : Type} (body : M A) (handler : Py.exn → M A) :
  respects Pout R body → (∀ ex, respects Pout R (handler ex)) →
  respects Pout R (try_except_Exception body handler).
Proof.
  intros Hbody Hhandler w. unfold try_except_Exception.
  specialize (Hbody w). destruct (body w) as [[a|ex] w1]; [exact Hbody|].
  destruct (Py.is_Exception ex); [|exact Hbody].
  eapply extends_trans; [exact Hbody|apply Hhandler].
Qed.

Lemma respects_async_with {A : Type} (body : M A) :
  respects Pout R body → respects Pout R (async_with_acquire body).
Proof.
  intros Hbody w. unfold async_with_acquire, store_call.
  destruct (on_acquire (store (env w))) as [[]|ex]; [|apply extends_refl].
  specialize (Hbody w). destruct (body w) as [r w1].
  destruct (on_release (store (env w1))); exact Hbody.
Qed.

Lemma respects_perform_operation_try worker start :
  respects Pout R (perform_operation_try worker start).
Proof.
  unfold perform_operation_try, modify_vehicle_data.
  apply respects_try_except.
  - apply respects_async_with.
    apply respects_bind; [apply respects_store_call|]. intros vin.
    assert (respects Pout R
              (time_time ≫= λ now,
                 mret (mkTestResult false (now - start)%Qc start worker)))
      as Hfail
      by (apply respects_bind; [apply respects_time_time|];
          intros; apply respects_ret).
    destruct vin as [[|c vin]|]; [exact Hfail| |exact Hfail].
    apply respects_bind; [apply respects_store_call|]. intros [row|];
      [|exact Hfail].
    apply respects_bind; [apply respects_store_call|]. intros data.
    apply respects_bind; [apply respects_store_call|]. intros _.
    apply respects_bind; [apply respects_time_time|].
    intros; apply respects_ret.
  - intros ex. apply respects_bind; [apply respects_time_time|].
    intros; apply respects_ret.
Qed.

End Effects.

Lemma eq_trans_tester (t1 t2 t3 : Tester) : t1 = t2 → t2 = t3 → t1 = t3.
Proof. congruence. Qed.

(** Segments that leave the tester as it is: go through the binds. *)
Ltac respects_step :=
  first
    [ apply respects_ret; done
    | apply respects_raise; done
    | apply respects_lift; done
    | apply respects_get_self; done
    | apply respects_store_call; done
    | apply respects_time_time; done
    | apply respects_print; done
    | apply respects_bind; [apply eq_trans_tester| |intros ?]
    | match goal with
      | |- respects _ _ (match ?x with _ => _ end) => destruct x
      end ].

(** ** What each task does in one segment *)

Section Segments.
Implicit Types (e : Env) (w : World) (t : Tester).

Lemma extends_weaken (P Q : output → Prop) (R S : Tester → Tester → Prop) w w' :
  (∀ o, P o → Q o) → (∀ t t', R t t' → S t t') →
  extends P R w w' → extends Q S w w'.
Proof.
  intros HPQ HRS (He & (out & Hout & HP) & HR).
  split; [exact He|]. split; [|now apply HRS].
  exists out. split; [exact Hout|]. eapply Forall_impl; eauto.
Qed.

Lemma extends_silent (R : Tester → Tester → Prop) w w' :
  extends (λ _, False) R w w' → stdout w' = stdout w.
Proof.
  intros (_ & (out & Hout & HP) & _).
  destruct out as [|o out]; [now rewrite app_nil_r in Hout|].
  now inversion HP.
Qed.

Lemma respects_worker_while worker operations :
  respects is_WorkerLine eq (worker_while worker operations).
Proof. unfold worker_while. repeat respects_step. Qed.

Lemma worker_body_effect worker operations start w :
  extends is_WorkerLine recorded_at_most_one w
          (worker_body worker operations start w).2.
Proof.
  unfold worker_body. unfold mbind at 1. unfold M_bind.
  pose proof (respects_perform_operation_try (λ _, False) eq
                (λ t, eq_refl) eq_trans_tester worker start w) as Htry.
  destruct (perform_operation_try worker start w) as [[result|ex] w1].
  - cbn in Htry. pose proof (extends_silent _ _ _ Htry) as Hout.
    destruct Htry as (Henv & _ & Hself).
    run_m.
    set (w2 := mkWorld _ _ _ _).
    pose proof (respects_worker_while worker (operations + 1) w2)
      as (Henv2 & (out & Hout2 & HP) & Hself2).
    subst w2. cbn in *.
    split; [congruence|]. split.
    + exists out. split; [congruence|exact HP].
    + right. exists result. congruence.
  - cbn in *. eapply extends_weaken; [| |exact Htry]; [done|].
    intros t t' ->. now left.
Qed.

Lemma worker_segment_effect worker pc segment w :
  worker_segment worker pc = Some segment →
  extends is_WorkerLine recorded_at_most_one w (segment w).2.
Proof.
  destruct pc; intros Hseg; simplify_eq/=.
  - eapply extends_weaken; [| |apply respects_worker_while]; [done|].
    intros t t' ->. now left.
  - apply worker_body_effect.
Qed.

Lemma respects_reporter_tick : respects is_MetricsLine eq reporter_tick.
Proof. unfold reporter_tick, elapsed. repeat respects_step. Qed.

Lemma respects_reporter_while : respects is_MetricsLine eq reporter_while.
Proof. unfold reporter_while. repeat respects_step. Qed.

Lemma respects_reporter_wake : respects is_MetricsLine eq reporter_wake.
Proof.
  unfold reporter_wake.
  apply respects_bind; [apply eq_trans_tester|now apply respects_get_self|].
  intros self. destruct (running self); cbn; [|now apply respects_ret].
  apply respects_bind; [apply eq_trans_tester| |].
  - apply respects_reporter_tick.
  - intros. apply respects_reporter_while.
Qed.

Lemma reporter_segment_effect pc segment w :
  reporter_segment pc = Some segment →
  extends is_MetricsLine eq w (segment w).2.
Proof.
  destruct pc; intros Hseg; simplify_eq/=.
  - apply respects_reporter_while.
  - apply respects_reporter_wake.
Qed.

(** A reporter resumed after the flag was cleared returns at once and
    prints nothing. *)
Lemma reporter_segment_stopped pc segment w :
  reporter_segment pc = Some segment →
  running (self_of w) = false →
  segment w = (Py.Normal RReturned, w).
Proof.
  destruct pc; intros Hseg Hrun; simplify_eq/=.
  - unfold reporter_while. run_m. now rewrite Hrun.
  - unfold reporter_wake. run_m. now rewrite Hrun.
Qed.

(** [run_test] up to its sleep. *)
Lemma run_test_start_run e t :
  run run_test_start e t
  = (Py.Normal ((λ _, WCreated) <$> Py.range 0 (workers (config t))),
     mkWorld e 1
       [StartBanner (workers (config t)) (duration (config t))
                    (table_name (config t))]
       {| config := config t;
          results := results t;
          total_operations := total_operations t;
          successful_operations := successful_operations t;
          failed_operations := failed_operations t;
          start_time := Some (clock e 0%nat);
          running := true |}).
Proof. reflexivity. Qed.

Lemma run_test_stop_run e t :
  run run_test_stop e t
  = (Py.Normal (),
     mkWorld e 0 []
       {| config := config t;
          results := results t;
          total_operations := total_operations t;
          successful_operations := successful_operations t;
          failed_operations := failed_operations t;
          start_time := start_time t;
          running := false |}).
Proof. reflexivity. Qed.

Lemma run_test_finish_run pending e t (t0 : Qc) :
  start_time t = Some t0 →
  ∃ report,
    run (run_test_finish pending) e t
    = (match pending with
       | Some ex => Py.Raised ex
       | None => Py.Normal ()
       end,
       mkWorld e 1 [FinalResults report] t).
Proof.
  intros Hstart.
  destruct (print_final_results_run t e t0 Hstart) as (report & Hrun & _).
  exists report. unfold run, run_test_finish in *.
  unfold mbind at 1. unfold M_bind. rewrite Hrun.
  now destruct pending.
Qed.

End Segments.

(** ** Invariants of the scheduler *)

Section Invariants.
Implicit Types (s : System) (l : label) (cfg : TestConfig).

Lemma len_append_bounded {A : Type} (d : Py.deque A) (x : A) :
  (Py.len d ≤ Py.maxlen d)%nat →
  (Py.len (Py.deque_append d x) ≤ Py.maxlen d)%nat.
Proof.
  intros Hle. unfold Py.len at 1. rewrite items_append by exact Hle.
  rewrite length_drop, length_app. unfold Py.len in *. simpl. lia.
Qed.

Lemma recorded_at_most_one_keeps (t t' : Tester) :
  recorded_at_most_one t t' →
  same_control t t'
  ∧ (total_operations t = successful_operations t + failed_operations t →
     total_operations t' = successful_operations t' + failed_operations t')
  ∧ (Py.maxlen (results t) = 1000%nat ∧ (Py.len (results t) ≤ 1000)%nat →
     Py.maxlen (results t') = 1000%nat ∧ (Py.len (results t') ≤ 1000)%nat)
  ∧ total_operations t ≤ total_operations t' ≤ total_operations t + 1
  ∧ successful_operations t ≤ successful_operations t'
  ∧ failed_operations t ≤ failed_operations t'.
Proof.
  intros [->|[r ->]]; [unfold same_control; intuition lia|].
  destruct (record_result_frame t r) as (Hc & Hs & Hr).
  rewrite record_result_total, record_result_successful, record_result_failed,
    record_result_results.
  split; [done|]. split; [destruct (success r); lia|]. split.
  - intros [Hmax Hlen]. split; [exact Hmax|].
    rewrite <- Hmax. apply len_append_bounded. lia.
  - destruct (success r); lia.
Qed.

Lemma no_final_app (out out' : list output) (P : output → Prop) :
  (∀ o, P o → ¬ is_FinalResults o) →
  Forall (λ o, ¬ is_FinalResults o) out → Forall P out' →
  Forall (λ o, ¬ is_FinalResults o) (out ++ out').
Proof.
  intros HP Hout Hout'. apply Forall_app. split; [exact Hout|].
  eapply Forall_impl; eauto.
Qed.

Lemma finished_worker_has_no_segment s i pc :
  all_tasks_finished s = true → worker_tasks s !! i = Some pc →
  worker_segment i pc = None.
Proof.
  unfold all_tasks_finished. intros [Hall _]%andb_true_iff Hpc.
  rewrite forallb_forall in Hall.
  assert (worker_finished pc = true) as Hfin
    by (apply Hall, list_elem_of_In; eapply list_elem_of_lookup_2; exact Hpc).
  now destruct pc.
Qed.

Lemma finished_reporter_has_no_segment s pc :
  all_tasks_finished s = true → reporter_task s = Some pc →
  reporter_segment pc = None.
Proof.
  unfold all_tasks_finished. intros [_ Hrep]%andb_true_iff Hpc.
  rewrite Hpc in Hrep. now destruct pc.
Qed.

Lemma invariant_boot cfg : invariant cfg (boot cfg).
Proof.
  split; cbn; try done.
  - split; [reflexivity|]. unfold Py.len. cbn. lia.
  - left. constructor.
Qed.

(** Once [run_test] and every task have finished nothing can be resumed. *)
Lemma no_step_when_finished s l :
  main_finished (main_task s) = true → all_tasks_finished s = true →
  step l s = None.
Proof.
  intros Hmain Htasks.
  destruct l as [e interrupt|i e|e]; cbn.
  - now destruct (main_task s).
  - destruct (worker_tasks s !! i) as [pc|] eqn:Hpc; [|reflexivity]. cbn.
    now rewrite (finished_worker_has_no_segment s i pc).
  - destruct (reporter_task s) as [pc|] eqn:Hpc; [|reflexivity]. cbn.
    now rewrite (finished_reporter_has_no_segment s pc).
Qed.

Lemma invariant_step cfg l s s' :
  invariant cfg s → step l s = Some s' → invariant cfg s'.
Proof.
  intros Hinv Hstep.
  destruct (inv_final _ _ Hinv) as [Hno|(Hmain & Htasks & _)];
    [|now rewrite (no_step_when_finished s l) in Hstep].
  destruct Hinv as [Hcfg Hidle Hstarted Hsleeping Hstopped Hcount Hbuf _].
  destruct l as [e interrupt|i e|e]; cbn in Hstep.
  - destruct (main_task s) as [| |pending| |] eqn:Hmain; [| | |done|done].
    + rewrite run_test_start_run in Hstep. simplify_eq/=.
      split; cbn; try done; eauto.
      left. apply Forall_app. split; [exact Hno|]. repeat constructor. tauto.
    + rewrite run_test_stop_run in Hstep. simplify_eq/=.
      split; cbn; try done.
      * intros _. apply Hstarted. congruence.
      * left. now rewrite app_nil_r.
    + destruct (all_tasks_finished s) eqn:Htasks; [|done].
      destruct Hstarted as [t0 Ht0]; [congruence|].
      destruct (run_test_finish_run pending e (tester s) t0 Ht0)
        as [report Hrun].
      rewrite Hrun in Hstep.
      assert (running (tester s) = false) as Hrunning
        by now apply Hstopped.
      destruct pending; simplify_eq/=.
      all: split; cbn; try done; eauto.
      all: right; split; [reflexivity|]; split; [exact Htasks|]; eauto.
  - destruct (worker_tasks s !! i) as [pc|] eqn:Hpc; [|done]. cbn in Hstep.
    destruct (worker_segment i pc) as [segment|] eqn:Hseg; [|done].
    cbn in Hstep.
    pose proof (worker_segment_effect i pc segment
                  (mkWorld e 0 [] (tester s)) Hseg) as Heff.
    unfold run in Hstep.
    destruct (segment (mkWorld e 0 [] (tester s))) as [r w].
    destruct Heff as (_ & (out & Hout & HP) & Hrec). cbn in *.
    destruct (recorded_at_most_one_keeps _ _ Hrec)
      as ((Hc & Hs & Hr) & Hcount' & Hbuf' & _).
    simplify_eq/=.
    split; cbn; rewrite ?Hc, ?Hs, ?Hr; auto.
    + intros Hmain. destruct (Hidle Hmain) as (Hw & _). now rewrite Hw in Hpc.
    + left. eapply no_final_app; [|exact Hno|exact HP].
      now intros [].
  - destruct (reporter_task s) as [pc|] eqn:Hpc; [|done]. cbn in Hstep.
    destruct (reporter_segment pc) as [segment|] eqn:Hseg; [|done].
    cbn in Hstep.
    pose proof (reporter_segment_effect pc segment
                  (mkWorld e 0 [] (tester s)) Hseg) as Heff.
    unfold run in Hstep.
    destruct (segment (mkWorld e 0 [] (tester s))) as [r w].
    destruct Heff as (_ & (out & Hout & HP) & Hself). cbn in *.
    simplify_eq/=.
    split; cbn; rewrite <- ?Hself; auto.
    + intros Hmain. destruct (Hidle Hmain) as (_ & Hr & _). congruence.
    + left. eapply no_final_app; [|exact Hno|exact HP].
      now intros [].
Qed.

Lemma invariant_exec cfg schedule :
  ∀ s s', invariant cfg s → exec schedule s = Some s' → invariant cfg s'.
Proof.
  induction schedule as [|l schedule IH]; intros s s' Hinv Hexec.
  - now simplify_eq/=.
  - cbn in Hexec. destruct (step l s) as [s1|] eqn:Hstep; [|done].
    cbn in Hexec. eapply IH; [|exact Hexec].
    eapply invariant_step; eauto.
Qed.

Lemma invariant_reachable cfg schedule s :
  exec schedule (boot cfg) = Some s → invariant cfg s.
Proof. apply invariant_exec, invariant_boot. Qed.

End Invariants.

(** ** Stopping the workers *)

Section Stopping.
Implicit Types (s : System) (e : Env) (w : World).

(** The loop test of a worker on a started tester: it raises nothing and
    leaves the tester alone; it starts an attempt only when the flag is set
    and a clock reading lies before the deadline; it returns when the flag
    is cleared or when the clock has passed the deadline. *)
Lemma worker_while_cases worker operations w (t0 : Qc) :
  start_time (self_of w) = Some t0 →
  ∃ pc w',
    worker_while worker operations w = (Py.Normal pc, w')
    ∧ self_of w' = self_of w
    ∧ (pc = WReturned ∨ ∃ start, pc = WInAttempt operations start)
    ∧ (∀ ops start, pc = WInAttempt ops start →
         running (self_of w) = true
         ∧ ∃ k, (clock (env w) k
                 < t0 + Py.float (duration (config (self_of w))))%Qc
                ∧ start = clock (env w) (S k))
    ∧ (running (self_of w) = false
       ∨ (∀ k, (t0 + Py.float (duration (config (self_of w)))
                ≤ clock (env w) k)%Qc) →
       pc = WReturned).
Proof.
  intros Hstart. destruct (running (self_of w)) eqn:Hrun.
  - rewrite (worker_while_running _ _ _ t0 Hrun Hstart).
    case_decide as Hlt.
    + do 2 eexists. split; [reflexivity|]. split; [reflexivity|].
      split; [eauto|]. split.
      * intros ops start [= <- <-]. eauto.
      * intros [?|Hpast]; [done|].
        specialize (Hpast (clock_reads w)).
        now apply Qcle_not_lt in Hpast.
    + do 2 eexists. split; [reflexivity|]. split; [reflexivity|].
      split; [eauto|]. split; [|done]. intros ops start [=].
  - rewrite (worker_while_stopped _ _ _ Hrun).
    do 2 eexists. split; [reflexivity|]. split; [reflexivity|].
    split; [eauto|]. split; [|done]. intros ops start [=].
Qed.

(** The segment of a live worker on a started tester. *)
Lemma worker_segment_cases worker pc segment e (t : Tester) (t0 : Qc) :
  worker_segment worker pc = Some segment →
  start_time t = Some t0 →
  ∃ pc',
    (run segment e t).1
    = match pc' with WFailed ex => Py.Raised ex | _ => Py.Normal pc' end
    ∧ pc' ≠ WCreated
    ∧ (∀ ex, pc' = WFailed ex →
             Py.is_Exception ex = false ∧ ¬ raises_only_Exception (store e))
    ∧ (pc = WCreated → self_of (run segment e t).2 = t)
    ∧ (∀ ops start, pc' = WInAttempt ops start →
         running t = true
         ∧ ∃ k, (clock e k < t0 + Py.float (duration (config t)))%Qc
                ∧ start = clock e (S k))
    ∧ (running t = false
       ∨ (∀ k, (t0 + Py.float (duration (config t)) ≤ clock e k)%Qc) →
       worker_finished pc' = true).
Proof.
  intros Hseg Hstart. destruct pc as [|operations start| |]; simplify_eq/=.
  - destruct (worker_while_cases worker 0 (mkWorld e 0 [] t) t0 Hstart)
      as (pc' & w' & Hrun & Hself & Hshape & Hpassed & Hstop).
    exists pc'. unfold run. rewrite Hrun. cbn.
    split; [destruct Hshape as [->|[? ->]]; reflexivity|].
    split; [destruct Hshape as [->|[? ->]]; discriminate|].
    split; [intros ex ->; destruct Hshape as [?|[? ?]]; discriminate|].
    split; [done|]. split; [exact Hpassed|].
    intros H. now rewrite (Hstop H).
  - unfold run, worker_body. unfold mbind at 1. unfold M_bind.
    pose proof (respects_perform_operation_try (λ _, False) eq
                  (λ t, eq_refl) eq_trans_tester worker start
                  (mkWorld e 0 [] t)) as Htry.
    destruct (perform_operation_try worker start (mkWorld e 0 [] t))
      as [[result|ex] w1] eqn:Hrun1.
    + destruct Htry as (Henv & _ & Hself). cbn in Henv, Hself.
      run_m. set (w2 := mkWorld _ _ _ _).
      assert (start_time (self_of w2) = Some t0) as Hstart2.
      { subst w2. cbn. rewrite <- Hself.
        now destruct (record_result_frame t result) as (_ & -> & _). }
      assert (running (self_of w2) = running t) as Hrunning2.
      { subst w2. cbn. rewrite <- Hself.
        now destruct (record_result_frame t result) as (_ & _ & ->). }
      assert (config (self_of w2) = config t) as Hconfig2.
      { subst w2. cbn. rewrite <- Hself.
        now destruct (record_result_frame t result) as (-> & _ & _). }
      assert (env w2 = e) as Henv2 by (subst w2; cbn; congruence).
      destruct (worker_while_cases worker (operations + 1) w2 t0 Hstart2)
        as (pc' & w' & Hrun & _ & Hshape & Hpassed & Hstop).
      rewrite Hrunning2, Hconfig2, Henv2 in Hpassed, Hstop.
      exists pc'. rewrite Hrun. cbn.
      split; [destruct Hshape as [->|[? ->]]; reflexivity|].
      split; [destruct Hshape as [->|[? ->]]; discriminate|].
      split; [intros ex ->; destruct Hshape as [?|[? ?]]; discriminate|].
      split; [done|]. split; [exact Hpassed|].
      intros H. now rewrite (Hstop H).
    + exists (WFailed ex). cbn.
      split; [reflexivity|]. split; [discriminate|]. split; [|done].
      intros ? [= <-].
      destruct (Py.is_Exception ex) eqn:Hex.
      * exfalso. revert Hrun1.
        unfold perform_operation_try, try_except_Exception.
        destruct (async_with_acquire _ _) as [[?|ex'] ?]; [done|].
        destruct (Py.is_Exception ex') eqn:Hex'; [now run_m|].
        intros [= -> _]. congruence.
      * split; [reflexivity|]. intros Hstore.
        destruct (perform_operation_try_run worker start (mkWorld e 0 [] t)
                    Hstore) as (k & _ & Hok).
        congruence.
Qed.

End Stopping.

(** C7.  In any state a schedule can reach, resuming a worker that has not
    finished runs one segment.  If that segment leaves the worker inside a
    new attempt, the loop test before it found the flag set and read a
    clock value before the deadline (start time plus configured duration).
    If the flag is cleared when the worker is resumed, or the clock has
    reached the deadline, the worker finishes in this very segment: it
    records at most the attempt that was in flight, starts no other, and is
    never resumed again. *)
Theorem worker_stops_at_its_loop_test
    (cfg : TestConfig) (schedule : list label) (s : System) (i : nat)
    (pc : worker_pc) (e : Env) :
  exec schedule (boot cfg) = Some s →
  worker_tasks s !! i = Some pc →
  worker_finished pc = false →
  ∃ t0 s' pc',
    start_time (tester s) = Some t0
    ∧ step (ResumeWorker i e) s = Some s'
    ∧ worker_tasks s' !! i = Some pc'
    ∧ recorded_at_most_one (tester s) (tester s')
    ∧ (pc = WCreated → tester s' = tester s)
    ∧ (∀ ops start, pc' = WInAttempt ops start →
         running (tester s) = true
         ∧ ∃ k, (clock e k < t0 + Py.float (duration cfg))%Qc
                ∧ start = clock e (S k))
    ∧ (running (tester s) = false
       ∨ (∀ k, (t0 + Py.float (duration cfg) ≤ clock e k)%Qc) →
       worker_finished pc' = true
       ∧ (raises_only_Exception (store e) → pc' = WReturned)
       ∧ ∀ e', step (ResumeWorker i e') s' = None).
Proof.
  intros Hexec Hpc Hlive.
  pose proof (invariant_reachable cfg schedule s Hexec) as Hinv.
  destruct (inv_started _ _ Hinv) as [t0 Ht0].
  { intros Hmain. destruct (inv_idle _ _ Hinv Hmain) as (Hw & _).
    now rewrite Hw in Hpc. }
  assert (∃ segment, worker_segment i pc = Some segment) as [segment Hseg]
    by (destruct pc; cbn in *; eauto; done).
  destruct (worker_segment_cases i pc segment e (tester s) t0 Hseg Ht0)
    as (pc' & Hres & Hnew & Hfailed & Hcreated & Hpassed & Hstop).
  pose proof (worker_segment_effect i pc segment (mkWorld e 0 [] (tester s))
                Hseg) as (_ & _ & Hrec).
  rewrite (inv_config _ _ Hinv) in Hpassed, Hstop.
  assert (i < length (worker_tasks s))%nat as Hi
    by (eapply lookup_lt_Some; exact Hpc).
  unfold run in *.
  destruct (segment (mkWorld e 0 [] (tester s))) as [r w] eqn:Hrun.
  cbn in Hres, Hcreated, Hrec.
  assert (match r with
          | Py.Normal pc'' => pc''
          | Py.Raised ex => WFailed ex
          end = pc') as Hpc'
    by (subst r; now destruct pc').
  exists t0. eexists. exists pc'.
  split; [exact Ht0|]. split.
  { cbn. rewrite Hpc. cbn. rewrite Hseg. cbn.
    unfold run. rewrite Hrun, Hpc'. reflexivity. }
  cbn.
  split; [now apply list_lookup_insert_eq|].
  split; [exact Hrec|]. split; [exact Hcreated|]. split; [exact Hpassed|].
  intros Hobserved. specialize (Hstop Hobserved).
  split; [exact Hstop|]. split.
  - intros Hstore. destruct pc'; try done.
    now destruct (Hfailed e0 eq_refl).
  - intros e'. cbn. rewrite list_lookup_insert_eq by exact Hi. cbn.
    now destruct pc'.
Qed.

(** An instance: in the sample run the flag is cleared while worker 0 is
    inside an attempt; resumed, the worker records that attempt at most and
    returns. *)
Lemma worker_stops_at_its_loop_test_witness :
  running (tester sample_stopped_system) = false
  ∧ ∃ s',
      step (ResumeWorker 0 sample_env) sample_stopped_system = Some s'
      ∧ worker_tasks s' !! 0%nat = Some WReturned
      ∧ recorded_at_most_one (tester sample_stopped_system) (tester s').
Proof.
  split; [vm_compute; reflexivity|].
  destruct (worker_stops_at_its_loop_test sample_config sample_schedule
              sample_stopped_system 0 (WInAttempt 0 (sample_clock 1))
              sample_env)
    as (t0 & s' & pc' & _ & Hstep & Hpc' & Hrec & _ & _ & Hstop).
  - vm_compute. reflexivity.
  - vm_compute. reflexivity.
  - reflexivity.
  - exists s'. split; [exact Hstep|]. split; [|exact Hrec].
    destruct Hstop as (_ & Hreturned & _); [left; vm_compute; reflexivity|].
    rewrite Hpc'. f_equal. apply Hreturned.
    unfold raises_only_Exception. cbn. repeat split.
Defined.

(** ** Stopping the reporter *)

Section Console.
Implicit Types (s : System) (l : label) (e : Env).

Lemma respects_run_test_finish pending :
  respects (λ o, ¬ is_MetricsLine o) eq (run_test_finish pending).
Proof.
  unfold run_test_finish, print_final_results, elapsed.
  repeat respects_step.
  all: apply respects_print; [done|cbn; tauto].
Qed.

Lemma respects_reporter_while_silent :
  respects (λ _, False) eq reporter_while.
Proof. unfold reporter_while. repeat respects_step. Qed.

(** What one step adds to the console. *)
Lemma step_console l s s' :
  step l s = Some s' →
  ∃ out,
    console s' = console s ++ out
    ∧ match l with
      | ResumeMain _ _ => Forall (λ o, ¬ is_MetricsLine o) out
      | ResumeWorker _ _ => Forall is_WorkerLine out
      | ResumeReporter _ =>
          Forall is_MetricsLine out
          ∧ (out ≠ [] →
             running (tester s) = true ∧ reporter_task s = Some RSleeping)
      end.
Proof.
  intros Hstep. destruct l as [e interrupt|i e|e]; cbn in Hstep.
  - destruct (main_task s) as [| |pending| |] eqn:Hmain; [| | |done|done].
    + rewrite run_test_start_run in Hstep. simplify_eq/=.
      eexists. split; [reflexivity|]. repeat constructor. tauto.
    + rewrite run_test_stop_run in Hstep. simplify_eq/=.
      eexists. split; [reflexivity|]. constructor.
    + destruct (all_tasks_finished s); [|done].
      pose proof (respects_run_test_finish pending
                    (mkWorld e 0 [] (tester s))) as (_ & (out & Hout & HP) & _).
      unfold run in Hstep.
      destruct (run_test_finish pending _) as [r w]. cbn in *.
      simplify_eq/=. eauto.
  - destruct (worker_tasks s !! i) as [pc|] eqn:Hpc; [|done]. cbn in Hstep.
    destruct (worker_segment i pc) as [segment|] eqn:Hseg; [|done].
    cbn in Hstep.
    pose proof (worker_segment_effect i pc segment
                  (mkWorld e 0 [] (tester s)) Hseg)
      as (_ & (out & Hout & HP) & _).
    unfold run in Hstep.
    destruct (segment (mkWorld e 0 [] (tester s))) as [r w]. cbn in *.
    simplify_eq/=. eauto.
  - destruct (reporter_task s) as [pc|] eqn:Hpc; [|done]. cbn in Hstep.
    destruct (reporter_segment pc) as [segment|] eqn:Hseg; [|done].
    cbn in Hstep.
    pose proof (reporter_segment_effect pc segment
                  (mkWorld e 0 [] (tester s)) Hseg)
      as (_ & (out & Hout & HP) & _).
    pose proof (reporter_segment_stopped pc segment
                  (mkWorld e 0 [] (tester s)) Hseg) as Hstopped.
    unfold run in Hstep.
    destruct (segment (mkWorld e 0 [] (tester s))) as [r w] eqn:Hrun.
    cbn in *. simplify_eq/=.
    exists (stdout w). split; [reflexivity|]. split; [exact HP|].
    intros Hprinted. split.
    + destruct (running (tester s)); [reflexivity|].
      specialize (Hstopped eq_refl). now simplify_eq/=.
    + destruct pc; simplify_eq/=; [|reflexivity].
      pose proof (respects_reporter_while_silent (mkWorld e 0 [] (tester s)))
        as Hsilent.
      rewrite Hrun in Hsilent. now apply extends_silent in Hsilent.
Qed.

Lemma step_main_stopped l s s' :
  step l s = Some s' → main_stopped (main_task s) = true →
  main_stopped (main_task s') = true.
Proof.
  intros Hstep Hstopped. destruct l as [e interrupt|i e|e]; cbn in Hstep.
  - destruct (main_task s) as [| |pending| |]; try done.
    destruct (all_tasks_finished s); [|done].
    destruct (run _ _ _) as [[] w]; now simplify_eq/=.
  - destruct (worker_tasks s !! i) as [pc|]; [|done]. cbn in Hstep.
    destruct (worker_segment i pc) as [segment|]; [|done]. cbn in Hstep.
    destruct (run _ _ _) as [r w]. now simplify_eq/=.
  - destruct (reporter_task s) as [pc|]; [|done]. cbn in Hstep.
    destruct (reporter_segment pc) as [segment|]; [|done]. cbn in Hstep.
    destruct (run _ _ _) as [r w]. now simplify_eq/=.
Qed.

(** After the flag is cleared, no schedule prints a metrics line. *)
Lemma exec_after_stop cfg schedule :
  ∀ s s',
    invariant cfg s → main_stopped (main_task s) = true →
    exec schedule s = Some s' →
    main_stopped (main_task s') = true
    ∧ ∃ out, console s' = console s ++ out
             ∧ Forall (λ o, ¬ is_MetricsLine o) out.
Proof.
  induction schedule as [|l schedule IH]; intros s s' Hinv Hstopped Hexec.
  - simplify_eq/=. split; [exact Hstopped|].
    exists []. now rewrite app_nil_r.
  - cbn in Hexec. destruct (step l s) as [s1|] eqn:Hstep; [|done].
    cbn in Hexec.
    pose proof (invariant_step cfg l s s1 Hinv Hstep) as Hinv1.
    pose proof (step_main_stopped l s s1 Hstep Hstopped) as Hstopped1.
    destruct (IH s1 s' Hinv1 Hstopped1 Hexec)
      as (Hstopped' & out' & Hout' & HP').
    split; [exact Hstopped'|].
    destruct (step_console l s s1 Hstep) as (out & Hout & HP).
    exists (out ++ out'). split; [now rewrite Hout', Hout, app_assoc|].
    apply Forall_app. split; [|exact HP'].
    destruct l as [e interrupt|i e|e].
    + exact HP.
    + eapply Forall_impl; [exact HP|]. now intros [].
    + destruct HP as [_ Hrunning]. destruct out as [|o out]; [constructor|].
      destruct Hrunning as [Hrunning _]; [done|].
      rewrite (inv_stopped _ _ Hinv Hstopped) in Hrunning. done.
Qed.

(** The final results are the last thing on the console. *)
Lemma final_results_last (pre pre' post : list output) (r r' : FinalReport) :
  pre ++ FinalResults r :: post = pre' ++ [FinalResults r'] →
  Forall (λ o, ¬ is_FinalResults o) pre' →
  post = [] ∧ pre = pre'.
Proof.
  intros Heq Hpre'.
  destruct post as [|o post _] using rev_ind.
  - apply app_inj_tail in Heq as [-> _]. done.
  - exfalso. rewrite app_comm_cons, app_assoc in Heq.
    apply app_inj_tail in Heq as [<- _].
    apply Forall_app in Hpre' as [_ Hpre'].
    inversion Hpre' as [|? ? Hfinal _]. now apply Hfinal.
Qed.

End Console.

(** C8.  In any state a schedule can reach: a reporter resumed while the
    flag is cleared returns without printing, so the tick that follows a
    stop during its sleep is suppressed; a step prints a metrics line only
    if it resumes a sleeping reporter while the flag is set; once
    [run_test] has cleared the flag, no later step of any schedule prints a
    metrics line; and once the final results are printed they stay the last
    line of the console, because nothing can be resumed any more. *)
Theorem reporter_is_silent_after_stop
    (cfg : TestConfig) (schedule : list label) (s : System) :
  exec schedule (boot cfg) = Some s →
  (∀ e pc,
      reporter_task s = Some pc → reporter_finished pc = false →
      running (tester s) = false →
      ∃ s', step (ResumeReporter e) s = Some s'
            ∧ reporter_task s' = Some RReturned
            ∧ console s' = console s
            ∧ tester s' = tester s)
  ∧ (∀ l s' out,
        step l s = Some s' → console s' = console s ++ out →
        Exists is_MetricsLine out →
        running (tester s) = true
        ∧ reporter_task s = Some RSleeping
        ∧ ∃ e, l = ResumeReporter e)
  ∧ (∀ schedule' s',
        main_stopped (main_task s) = true →
        exec schedule' s = Some s' →
        running (tester s') = false
        ∧ ∃ out, console s' = console s ++ out
                 ∧ Forall (λ o, ¬ is_MetricsLine o) out)
  ∧ (∀ pre r post,
        console s = pre ++ FinalResults r :: post →
        post = []
        ∧ Forall (λ o, ¬ is_FinalResults o) pre
        ∧ ∀ l, step l s = None).
Proof.
  intros Hexec.
  pose proof (invariant_reachable cfg schedule s Hexec) as Hinv.
  split; [|split; [|split]].
  - intros e pc Hpc Hlive Hrunning.
    assert (∃ segment, reporter_segment pc = Some segment) as [segment Hseg]
      by (destruct pc; cbn in *; eauto; done).
    pose proof (reporter_segment_stopped pc segment
                  (mkWorld e 0 [] (tester s)) Hseg Hrunning) as Hrun.
    eexists. split.
    { cbn. rewrite Hpc. cbn. rewrite Hseg. cbn. unfold run. rewrite Hrun.
      reflexivity. }
    cbn. now rewrite app_nil_r.
  - intros l s' out Hstep Hout Hmetrics.
    destruct (step_console l s s' Hstep) as (out' & Hout' & HP).
    assert (out' = out) as ->
      by (apply (app_inv_head (console s)); now rewrite <- Hout', <- Hout).
    apply Exists_exists in Hmetrics as (o & Ho & Hm).
    destruct l as [e interrupt|i e|e].
    + rewrite Forall_forall in HP. now destruct (HP o Ho).
    + rewrite Forall_forall in HP. specialize (HP o Ho). now destruct o.
    + destruct HP as [_ Hrunning].
      destruct Hrunning as [Hr Hp]; [now destruct out|]. eauto.
  - intros schedule' s' Hstopped Hexec'.
    destruct (exec_after_stop cfg schedule' s s' Hinv Hstopped Hexec')
      as (Hstopped' & Hout).
    split; [|exact Hout].
    apply (inv_stopped cfg s'); [|exact Hstopped'].
    eapply invariant_exec; eauto.
  - intros pre r post Hconsole.
    destruct (inv_final _ _ Hinv) as [Hno|(Hmain & Htasks & pre' & r' & Hc & Hpre')].
    + exfalso. rewrite Hconsole in Hno.
      apply Forall_app in Hno as [_ Hno].
      inversion Hno as [|? ? Hfinal _]. now apply Hfinal.
    + rewrite Hconsole in Hc.
      destruct (final_results_last _ _ _ _ _ Hc Hpre') as [-> ->].
      split; [reflexivity|]. split; [exact Hpre'|].
      intros l. now apply no_step_when_finished.
Qed.

(** An instance: in the sample run the flag is cleared while the reporter
    sleeps; resumed, the reporter returns and the console is unchanged. *)
Lemma reporter_is_silent_after_stop_witness :
  running (tester sample_stopped_system) = false
  ∧ reporter_task sample_stopped_system = Some RSleeping
  ∧ ∃ s',
      step (ResumeReporter sample_env) sample_stopped_system = Some s'
      ∧ reporter_task s' = Some RReturned
      ∧ console s' = console sample_stopped_system.
Proof.
  split; [vm_compute; reflexivity|].
  split; [vm_compute; reflexivity|].
  destruct (reporter_is_silent_after_stop sample_config sample_schedule
              sample_stopped_system) as (Hsuppressed & _).
  - vm_compute. reflexivity.
  - destruct (Hsuppressed sample_env RSleeping)
      as (s' & Hstep & Hreporter & Hconsole & _).
    + vm_compute. reflexivity.
    + reflexivity.
    + vm_compute. reflexivity.
    + exists s'. split; [exact Hstep|]. split; [exact Hreporter|exact Hconsole].
Defined.

(** ** The counters and the buffer along a run *)

(** One step of the scheduler records at most one result: the counters
    never decrease and the total grows by at most 1. *)
Lemma step_counters (l : label) (s s' : System) :
  step l s = Some s' →
  total_operations (tester s) ≤ total_operations (tester s')
                              ≤ total_operations (tester s) + 1
  ∧ successful_operations (tester s) ≤ successful_operations (tester s')
  ∧ failed_operations (tester s) ≤ failed_operations (tester s').
Proof.
  intros Hstep. destruct l as [e interrupt|i e|e]; cbn in Hstep.
  - destruct (main_task s) as [| |pending| |] eqn:Hmain; [| | |done|done].
    + rewrite run_test_start_run in Hstep. simplify_eq/=. lia.
    + rewrite run_test_stop_run in Hstep. simplify_eq/=. lia.
    + destruct (all_tasks_finished s); [|done].
      pose proof (respects_run_test_finish pending
                    (mkWorld e 0 [] (tester s))) as (_ & _ & Hself).
      unfold run in Hstep.
      destruct (run_test_finish pending _) as [r w]. cbn in *.
      simplify_eq/=. rewrite <- Hself. lia.
  - destruct (worker_tasks s !! i) as [pc|] eqn:Hpc; [|done]. cbn in Hstep.
    destruct (worker_segment i pc) as [segment|] eqn:Hseg; [|done].
    cbn in Hstep.
    pose proof (worker_segment_effect i pc segment
                  (mkWorld e 0 [] (tester s)) Hseg) as (_ & _ & Hrec).
    unfold run in Hstep.
    destruct (segment (mkWorld e 0 [] (tester s))) as [r w]. cbn in *.
    simplify_eq/=.
    now destruct (recorded_at_most_one_keeps _ _ Hrec) as (_ & _ & _ & ?).
  - destruct (reporter_task s) as [pc|] eqn:Hpc; [|done]. cbn in Hstep.
    destruct (reporter_segment pc) as [segment|] eqn:Hseg; [|done].
    cbn in Hstep.
    pose proof (reporter_segment_effect pc segment
                  (mkWorld e 0 [] (tester s)) Hseg) as (_ & _ & Hself).
    unfold run in Hstep.
    destruct (segment (mkWorld e 0 [] (tester s))) as [r w]. cbn in *.
    simplify_eq/=. rewrite <- Hself. lia.
Qed.

(** In every state a schedule can reach, whatever the interleaving of the
    tasks, the total is the sum of the successes and the failures, and the
    buffer holds at most 1000 results. *)
Lemma reachable_counters_and_buffer
    (cfg : TestConfig) (schedule : list label) (s : System) :
  exec schedule (boot cfg) = Some s →
  total_operations (tester s)
  = successful_operations (tester s) + failed_operations (tester s)
  ∧ (Py.len (results (tester s)) ≤ 1000)%nat.
Proof.
  intros Hexec.
  pose proof (invariant_reachable cfg schedule s Hexec) as Hinv.
  split; [apply (inv_counters _ _ Hinv)|apply (inv_buffer _ _ Hinv)].
Qed.

(** * The setup phase: properties *)

(** ** Decimal strings *)

Section Decimal.
Implicit Types (x : N) (s : string) (k : nat).

Lemma length_string_of_list (l : list ascii) :
  String.length (String.string_of_list_ascii l) = length l.
Proof. induction l as [|c l IH]; simpl; congruence. Qed.

Lemma chars_string_of_list (l : list ascii) :
  chars (String.string_of_list_ascii l) = l.
Proof. apply String.list_ascii_of_string_of_list_ascii. Qed.

(** A digit is one of the ten numbers below ten. *)
Lemma digit_cases (P : N → Prop) x :
  (x < 10)%N → Forall P (N.of_nat <$> seq 0 10) → P x.
Proof.
  intros Hx HP. rewrite Forall_forall in HP. apply HP.
  apply list_elem_of_fmap. exists (N.to_nat x).
  split; [lia|]. apply elem_of_seq. lia.
Qed.

Lemma digit_value_char x :
  (x < 10)%N → digit_value (pretty_N_char x) = Z.of_N x.
Proof.
  intros Hx. apply (digit_cases (λ x, digit_value (pretty_N_char x) = Z.of_N x));
    [exact Hx|].
  repeat constructor.
Qed.

Lemma digit_char_in_digits x : (x < 10)%N → pretty_N_char x ∈ digits.
Proof.
  intros Hx. apply (digit_cases (λ x, pretty_N_char x ∈ digits)); [exact Hx|].
  unfold digits, chars. cbn. repeat constructor.
Qed.

(** The digits produced in front of an accumulator do not depend on it. *)
Lemma chars_pretty_go x :
  ∀ s, chars (pretty_N_go x s) = chars (pretty_N_go x "") ++ chars s.
Proof.
  induction (N.lt_wf_0 x) as [x _ IH]. intros s.
  destruct (decide (x = 0)%N) as [->|Hx].
  - now rewrite !pretty_N_go_0.
  - rewrite !(pretty_N_go_step x) by lia.
    assert (x `div` 10 < x)%N as Hlt by (apply N.div_lt; lia).
    rewrite (IH _ Hlt (String _ s)), (IH _ Hlt (String _ "")).
    unfold chars. simpl. now rewrite <- app_assoc.
Qed.

(** [str(x)] for [x ≥ 10] is [str(x // 10)] followed by the last digit. *)
Lemma chars_pretty_snoc x :
  (10 ≤ x)%N →
  chars (pretty x) = chars (pretty (x `div` 10)%N) ++ [pretty_N_char (x `mod` 10)].
Proof.
  intros Hx. unfold pretty, pretty_N.
  assert (0 < x `div` 10)%N as Hdiv by (apply N.div_str_pos; lia).
  rewrite !decide_False by lia.
  rewrite (pretty_N_go_step x) by lia.
  now rewrite chars_pretty_go.
Qed.

Lemma chars_pretty_small x :
  (x < 10)%N → chars (pretty x) = [pretty_N_char x].
Proof.
  intros Hx. unfold pretty, pretty_N. case_decide as H0; [now subst|].
  rewrite pretty_N_go_step by lia.
  rewrite N.div_small, N.mod_small, pretty_N_go_0 by lia. reflexivity.
Qed.

(** Digit by digit induction on a number. *)
Lemma decimal_ind (P : N → Prop) :
  (∀ x, (x < 10)%N → P x) →
  (∀ x, (10 ≤ x)%N → P (x `div` 10)%N → P x) →
  ∀ x, P x.
Proof.
  intros Hsmall Hstep x. induction (N.lt_wf_0 x) as [x _ IH].
  destruct (decide (x < 10)%N); [now apply Hsmall|].
  apply Hstep; [lia|]. apply IH, N.div_lt; lia.
Qed.

Lemma decimal_value_snoc (l : list ascii) (c : ascii) :
  decimal_value (l ++ [c]) = 10 * decimal_value l + digit_value c.
Proof. unfold decimal_value. now rewrite foldl_app. Qed.

(** Reading [str(x)] back gives [x]. *)
Lemma decimal_value_pretty x : decimal_value (chars (pretty x)) = Z.of_N x.
Proof.
  induction x as [x Hx|x Hx IH] using decimal_ind.
  - rewrite chars_pretty_small by done.
    unfold decimal_value. simpl. rewrite digit_value_char by done. lia.
  - rewrite chars_pretty_snoc, decimal_value_snoc, IH by done.
    rewrite digit_value_char by (apply N.mod_lt; lia).
    rewrite (N.div_mod x 10) at 3 by lia. lia.
Qed.

Lemma decimal_value_zeros (n : nat) (l : list ascii) :
  decimal_value (replicate n "0"%char ++ l) = decimal_value l.
Proof.
  unfold decimal_value. rewrite foldl_app.
  f_equal. induction n as [|n IH]; [reflexivity|].
  rewrite replicate_S_end, foldl_app, IH. reflexivity.
Qed.

Lemma pretty_digits x : Forall (λ c, c ∈ digits) (chars (pretty x)).
Proof.
  induction x as [x Hx|x Hx IH] using decimal_ind.
  - rewrite chars_pretty_small by done. apply Forall_singleton.
    now apply digit_char_in_digits.
  - rewrite chars_pretty_snoc by done. apply Forall_app. split; [exact IH|].
    apply Forall_singleton, digit_char_in_digits, N.mod_lt. lia.
Qed.

(** A number below [10^k] has at most [k] digits, a number from [10^k] on
    has more than [k]. *)
Lemma length_pretty_le k : ∀ x,
  (0 < k)%nat → (x < 10 ^ N.of_nat k)%N → (length (chars (pretty x)) ≤ k)%nat.
Proof.
  induction k as [|k IH]; intros x Hk Hx; [lia|].
  destruct (decide (x < 10)%N) as [Hsmall|Hbig].
  - rewrite chars_pretty_small by done. simpl. lia.
  - rewrite chars_pretty_snoc, length_app by lia. simpl.
    destruct k as [|k]; [simpl in Hx; lia|].
    assert (x `div` 10 < 10 ^ N.of_nat (S k))%N.
    { apply N.Div0.div_lt_upper_bound.
      rewrite Nat2N.inj_succ, N.pow_succ_r' in Hx. lia. }
    specialize (IH (x `div` 10)%N). lia.
Qed.

Lemma length_pretty_gt k : ∀ x,
  (10 ^ N.of_nat k ≤ x)%N → (k < length (chars (pretty x)))%nat.
Proof.
  induction k as [|k IH]; intros x Hx.
  - destruct (decide (x < 10)%N) as [Hsmall|Hbig].
    + rewrite chars_pretty_small by done. simpl. lia.
    + rewrite chars_pretty_snoc, length_app by lia. simpl. lia.
  - rewrite Nat2N.inj_succ, N.pow_succ_r' in Hx.
    assert (1 ≤ 10 ^ N.of_nat k)%N by (apply N.lt_pred_le, N.neq_0_lt_0, N.pow_nonzero; lia).
    rewrite chars_pretty_snoc, length_app by lia. simpl.
    assert (10 ^ N.of_nat k ≤ x `div` 10)%N
      by (apply N.div_le_lower_bound; lia).
    specialize (IH (x `div` 10)%N). lia.
Qed.

(** [str(z)] of a non-negative [int] *)
Lemma pretty_Z_nonneg (z : Z) : 0 ≤ z → pretty z = pretty (Z.to_N z).
Proof. intros Hz. destruct z; [reflexivity|reflexivity|lia]. Qed.

End Decimal.

(** ** [generate_vin] *)

Section GenerateVin.
Implicit Types (draw : VinDraw) (index : Z).

Lemma wmi_prefixes_shape :
  Forall (λ w, length (chars w) = 3%nat
               ∧ Forall (λ c, c ∈ valid_chars) (chars w)) wmi_prefixes.
Proof. apply (bool_decide_unpack _). vm_compute. exact I. Qed.

Lemma digits_valid : Forall (λ c, c ∈ valid_chars) digits.
Proof. apply (bool_decide_unpack _). vm_compute. exact I. Qed.

Lemma valid_chars_exclude :
  Forall (λ c, c ≠ "I"%char ∧ c ≠ "O"%char ∧ c ≠ "Q"%char) valid_chars.
Proof. apply (bool_decide_unpack _). vm_compute. exact I. Qed.

Lemma random_choice_Some {A : Type} (population : list A) (k : nat) :
  population ≠ [] →
  ∃ x, random_choice population k = Some x ∧ x ∈ population.
Proof.
  intros Hne. unfold random_choice.
  destruct (lookup_lt_is_Some_2 population (k `mod` length population)%nat)
    as [x Hx].
  - apply Nat.mod_upper_bound. now destruct population.
  - exists x. split; [exact Hx|]. eapply list_elem_of_lookup_2. exact Hx.
Qed.

Lemma random_choices_shape {A : Type} (population : list A) picks (n : nat) :
  population ≠ [] →
  length (random_choices population picks n) = n
  ∧ Forall (λ x, x ∈ population) (random_choices population picks n).
Proof.
  intros Hne. unfold random_choices.
  generalize 0%nat. induction n as [|n IH]; intros start; [by split|].
  cbn [seq omap list_omap].
  destruct (random_choice_Some population (picks start) Hne) as (x & -> & Hx).
  destruct (IH (S start)) as [Hlen Hall].
  split; [simpl; now rewrite Hlen|now constructor].
Qed.

(** A VIN is the first 17 characters of an 11 character prefix, which only
    the draws determine, followed by the formatted index. *)
Lemma generate_vin_chars draw :
  ∃ prefix,
    length prefix = 11%nat
    ∧ Forall (λ c, c ∈ valid_chars) prefix
    ∧ ∀ index,
        chars (generate_vin draw index) = take 17 (prefix ++ format_06d index).
Proof.
  unfold generate_vin.
  destruct (random_choice_Some wmi_prefixes (wmi_pick draw)) as (w & -> & Hw);
    [done|].
  pose proof wmi_prefixes_shape as Hshape. rewrite Forall_forall in Hshape.
  destruct (Hshape w Hw) as [Hlen Hvalid].
  destruct (random_choices_shape valid_chars (char_picks draw) 14)
    as [Hlen14 Hvalid14]; [done|].
  exists (chars w ++ take 8 (random_choices valid_chars (char_picks draw) 14)).
  split; [|split].
  - rewrite length_app, length_take, Hlen, Hlen14. reflexivity.
  - apply Forall_app. split; [exact Hvalid|]. now apply Forall_take.
  - intros index. rewrite chars_string_of_list, Hlen14. cbn [default].
    now rewrite <- app_assoc.
Qed.

Lemma length_format_06d index : (6 ≤ length (format_06d index))%nat.
Proof.
  unfold format_06d. case_decide.
  - cbn [length]. rewrite length_app, length_replicate. lia.
  - rewrite length_app, length_replicate. lia.
Qed.

Lemma format_06d_small index :
  0 ≤ index < 1000000 →
  ∃ n, format_06d index
       = replicate n "0"%char ++ chars (pretty (Z.to_N index))
     ∧ length (format_06d index) = 6%nat.
Proof.
  intros Hindex. unfold format_06d.
  rewrite decide_False by lia. rewrite Z.abs_eq, pretty_Z_nonneg by lia.
  eexists. split; [reflexivity|].
  rewrite length_app, length_replicate.
  pose proof (length_pretty_le 6 (Z.to_N index)) as Hle.
  change (10 ^ N.of_nat 6)%N with 1000000%N in Hle. lia.
Qed.

(** X1.  Every VIN has 17 characters, whatever the index and the draws. *)
Theorem generate_vin_length draw index :
  String.length (generate_vin draw index) = 17%nat.
Proof.
  destruct (generate_vin_chars draw) as (prefix & Hlen & _ & Hchars).
  rewrite <- (String.string_of_list_ascii_of_string (generate_vin draw index)).
  rewrite length_string_of_list. fold (chars (generate_vin draw index)).
  rewrite Hchars, length_take, length_app, Hlen.
  pose proof (length_format_06d index). lia.
Qed.

Lemma vin_serial_generate_vin draw index :
  0 ≤ index < 1000000 → vin_serial (generate_vin draw index) = index.
Proof.
  intros Hindex.
  destruct (generate_vin_chars draw) as (prefix & Hlen & _ & Hchars).
  destruct (format_06d_small index Hindex) as (n & Hformat & Hlen6).
  unfold vin_serial. rewrite Hchars.
  rewrite take_ge by (rewrite length_app; lia).
  rewrite drop_app_length' by (symmetry; exact Hlen).
  rewrite Hformat, decimal_value_zeros, decimal_value_pretty. lia.
Qed.

(** X2.  Below one million the index can be read back from the last six
    characters, so that VINs generated for different indices differ,
    whatever was drawn. *)
Theorem generate_vin_serial draw index :
  0 ≤ index < 1000000 →
  vin_serial (generate_vin draw index) = index
  ∧ ∀ draw' index',
      0 ≤ index' < 1000000 →
      generate_vin draw index = generate_vin draw' index' → index = index'.
Proof.
  intros Hindex. split; [now apply vin_serial_generate_vin|].
  intros draw' index' Hindex' Heq.
  rewrite <- (vin_serial_generate_vin draw index Hindex), Heq.
  now apply vin_serial_generate_vin.
Qed.

Lemma generate_vin_serial_witness :
  vin_serial (generate_vin sample_vin_draw 42) = 42
  ∧ ∀ draw' index',
      0 ≤ index' < 1000000 →
      generate_vin sample_vin_draw 42 = generate_vin draw' index' →
      42 = index'.
Proof. apply (generate_vin_serial sample_vin_draw 42). lia. Defined.

(** X3.  From one million on the formatted index has more than six digits and
    the cut at 17 characters drops all but the first six: the VIN no longer
    depends on the last digit of the index. *)
Theorem generate_vin_truncates draw index index' :
  1000000 ≤ index → 1000000 ≤ index' →
  index `div` 10 = index' `div` 10 →
  generate_vin draw index = generate_vin draw index'.
Proof.
  assert (∀ i, 1000000 ≤ i →
            take 6 (format_06d i)
            = take 6 (chars (pretty (Z.to_N (i `div` 10))))) as Hcut.
  { intros i Hi. unfold format_06d.
    rewrite decide_False by lia. rewrite Z.abs_eq, pretty_Z_nonneg by lia.
    pose proof (length_pretty_gt 6 (Z.to_N i)) as Hlong.
    change (10 ^ N.of_nat 6)%N with 1000000%N in Hlong.
    replace (6 - length (chars (pretty (Z.to_N i))))%nat with 0%nat by lia.
    cbn [replicate app].
    rewrite chars_pretty_snoc by lia.
    replace (Z.to_N i `div` 10)%N with (Z.to_N (i `div` 10))
      by (rewrite Z2N.inj_div by lia; reflexivity).
    pose proof (length_pretty_gt 5 (Z.to_N (i `div` 10))) as Hlong'.
    change (10 ^ N.of_nat 5)%N with 100000%N in Hlong'.
    assert (100000 ≤ i `div` 10) by (apply Z.div_le_lower_bound; lia).
    rewrite take_app_le by lia. reflexivity. }
  intros Hindex Hindex' Hdiv.
  destruct (generate_vin_chars draw) as (prefix & Hlen & _ & Hchars).
  rewrite <- (String.string_of_list_ascii_of_string (generate_vin draw index)),
    <- (String.string_of_list_ascii_of_string (generate_vin draw index')).
  fold (chars (generate_vin draw index)) (chars (generate_vin draw index')).
  rewrite !Hchars. f_equal.
  rewrite !take_app_ge by lia. rewrite Hlen. f_equal.
  change (17 - 11)%nat with 6%nat. now rewrite !Hcut, Hdiv.
Qed.

Lemma generate_vin_truncates_witness :
  generate_vin sample_vin_draw 1234567 = generate_vin sample_vin_draw 1234568.
Proof.
  apply (generate_vin_truncates sample_vin_draw 1234567 1234568);
    [lia|lia|reflexivity].
Defined.

(** X4.  For a non-negative index every character of a VIN is a digit or an
    upper case letter other than I, O and Q. *)
Theorem generate_vin_alphabet draw index :
  0 ≤ index →
  Forall (λ c, c ∈ valid_chars
               ∧ c ≠ "I"%char ∧ c ≠ "O"%char ∧ c ≠ "Q"%char)
         (chars (generate_vin draw index)).
Proof.
  intros Hindex.
  destruct (generate_vin_chars draw) as (prefix & _ & Hvalid & Hchars).
  rewrite Hchars. apply Forall_take.
  assert (Forall (λ c, c ∈ valid_chars) (prefix ++ format_06d index)) as Hall.
  { apply Forall_app. split; [exact Hvalid|].
    unfold format_06d. rewrite decide_False by lia.
    rewrite Z.abs_eq, pretty_Z_nonneg by lia.
    pose proof digits_valid as Hdigits. rewrite Forall_forall in Hdigits.
    apply Forall_app. split.
    - apply Forall_replicate.
      apply Hdigits. unfold digits, chars. simpl. set_solver.
    - eapply Forall_impl; [apply pretty_digits|]. exact Hdigits. }
  pose proof valid_chars_exclude as Hexcl. rewrite Forall_forall in Hexcl.
  eapply Forall_impl; [exact Hall|]. intros c Hc. split; [exact Hc|].
  now apply Hexcl.
Qed.

Lemma generate_vin_alphabet_witness :
  Forall (λ c, c ∈ valid_chars
               ∧ c ≠ "I"%char ∧ c ≠ "O"%char ∧ c ≠ "Q"%char)
         (chars (generate_vin sample_vin_draw 42)).
Proof. apply (generate_vin_alphabet sample_vin_draw 42). lia. Defined.

End GenerateVin.

(** ** Batches of [populate_test_data] *)

Section Batches.
Implicit Types (current_count needed i : Z).

Lemma range_step_nonpos needed :
  needed ≤ 0 → range_step 0 needed batch_size = [].
Proof.
  intros Hn. unfold range_step, batch_size.
  assert ((needed - 0 + 1000 - 1) `div` 1000 < 1)
    by (apply Z.div_lt_upper_bound; lia).
  rewrite seqZ_nil by lia. reflexivity.
Qed.

Lemma range_step_pos needed :
  0 < needed →
  range_step 0 needed batch_size
  = 0 :: ((λ i, i + batch_size) <$> range_step 0 (needed - batch_size) batch_size).
Proof.
  intros Hn. unfold range_step, batch_size.
  replace ((needed - 0 + 1000 - 1) `div` 1000)
    with (Z.succ ((needed - 1000 - 0 + 1000 - 1) `div` 1000)).
  2: { replace (needed - 0 + 1000 - 1) with ((needed - 1000 - 0 + 1000 - 1) + 1 * 1000) by lia.
       rewrite Z.div_add by lia. lia. }
  set (q := (needed - 1000 - 0 + 1000 - 1) `div` 1000).
  assert (0 ≤ q) by (apply Z.div_pos; lia).
  rewrite seqZ_cons by lia. cbn [fmap list_fmap].
  f_equal.
  rewrite Z.pred_succ. change (Z.succ 0) with (1 + 0).
  rewrite <- (fmap_add_seqZ 1 0), <- !list_fmap_compose.
  apply list_fmap_ext. intros _ k _. cbn. lia.
Qed.

Lemma batch_indices_first current_count needed :
  batch_indices current_count needed 0
  = seqZ current_count (Z.min batch_size needed).
Proof.
  unfold batch_indices, Py.range.
  rewrite !Z.sub_0_r.
  transitivity (Z.add current_count <$> seqZ 0 (Z.min batch_size needed)).
  - apply list_fmap_ext. intros _ j _. lia.
  - rewrite fmap_add_seqZ. f_equal. lia.
Qed.

Lemma batch_indices_shift current_count needed i :
  batch_indices current_count needed (i + batch_size)
  = batch_indices (current_count + batch_size) (needed - batch_size) i.
Proof.
  unfold batch_indices.
  replace (needed - (i + batch_size)) with (needed - batch_size - i) by lia.
  apply list_fmap_ext. intros _ j _. lia.
Qed.

Lemma join_batch_indices current_count needed :
  mjoin (batch_indices current_count needed
           <$> range_step 0 needed batch_size)
  = seqZ current_count needed.
Proof.
  assert (∀ (q : nat) cc n, n ≤ batch_size * Z.of_nat q →
            mjoin (batch_indices cc n <$> range_step 0 n batch_size)
            = seqZ cc n) as Hind.
  { induction q as [|q IH]; intros cc n Hn.
    - rewrite range_step_nonpos, seqZ_nil by lia. reflexivity.
    - destruct (decide (n ≤ 0)) as [Hle|Hpos].
      { rewrite range_step_nonpos, seqZ_nil by lia. reflexivity. }
      rewrite range_step_pos by lia. cbn [fmap list_fmap mjoin list_join].
      rewrite batch_indices_first, <- list_fmap_compose.
      erewrite (list_fmap_ext _ (batch_indices (cc + batch_size) (n - batch_size)))
        by (intros; apply batch_indices_shift).
      rewrite IH by (unfold batch_size in *; lia).
      unfold batch_size in *.
      destruct (decide (n ≤ 1000)).
      + rewrite Z.min_r by lia. rewrite (seqZ_nil _ (n - 1000)) by lia.
        now rewrite app_nil_r.
      + rewrite Z.min_l by lia.
        rewrite <- seqZ_app by lia. f_equal. lia. }
  apply (Hind (Z.to_nat needed)). unfold batch_size. lia.
Qed.

Lemma join_fmap {A B : Type} (f : A → B) (ls : list (list A)) :
  f <$> mjoin ls = mjoin (fmap f <$> ls).
Proof.
  induction ls as [|l ls IH]; [reflexivity|].
  rewrite !fmap_cons. cbn [mjoin list_join]. rewrite fmap_app.
  f_equal. exact IH.
Qed.

(** X5.  The rows sent to the server, batch after batch, are the rows of the
    indices from [current_count] to [current_count + needed - 1], each
    once and in increasing order. *)
Theorem batches_cover_the_indices (draws : Z → RowDraw) current_count needed :
  mjoin (batch_data draws current_count needed
           <$> range_step 0 needed batch_size)
  = (λ index, new_vehicle (draws index) index)
      <$> seqZ current_count needed.
Proof.
  rewrite <- join_batch_indices, join_fmap, <- list_fmap_compose.
  reflexivity.
Qed.

(** X6.  There are [ceil(needed / 1000)] batches; none is empty and none has
    more than 1000 rows. *)
Theorem batches_are_bounded (draws : Z → RowDraw) current_count needed :
  length (range_step 0 needed batch_size)
  = Z.to_nat ((needed + 999) `div` 1000)
  ∧ Forall (λ i, (1 ≤ length (batch_data draws current_count needed i) ≤ 1000)%nat
                 ∧ 0 ≤ i < needed ∧ i `mod` 1000 = 0)
           (range_step 0 needed batch_size).
Proof.
  unfold range_step, batch_size. split.
  - rewrite length_fmap, length_seqZ. do 2 f_equal. lia.
  - apply Forall_fmap, Forall_forall. intros k Hk.
    apply elem_of_seqZ in Hk. cbn.
    set (q := (needed - 0 + 1000 - 1) `div` 1000) in *.
    assert (1000 * (q - 1) < needed).
    { pose proof (Z.mul_div_le (needed - 0 + 1000 - 1) 1000). lia. }
    unfold batch_data, batch_indices, Py.range, batch_size.
    rewrite !length_fmap, length_seqZ.
    split; [lia|]. split; [lia|].
    rewrite Z.add_0_l, Z.mul_comm. apply Z.mod_mul. lia.
Qed.

End Batches.

(** ** The vehicle table *)

Section Table.
Implicit Types (rows : gmap string Vehicle) (r : NewVehicle) (now : Qc).

Lemma insert_vehicle_subseteq now rows r : rows ⊆ insert_vehicle now rows r.
Proof.
  unfold insert_vehicle. destruct (rows !! nv_vin r) eqn:Hlookup; [done|].
  now apply insert_subseteq.
Qed.

Lemma dom_insert_vehicle now rows r :
  dom (insert_vehicle now rows r) = {[nv_vin r]} ∪ dom rows.
Proof.
  unfold insert_vehicle. destruct (rows !! nv_vin r) eqn:Hlookup.
  - apply elem_of_dom_2 in Hlookup. set_solver.
  - apply dom_insert_L.
Qed.

Lemma insert_vehicles_subseteq now (batch : list NewVehicle) :
  ∀ rows, rows ⊆ foldl (insert_vehicle now) rows batch.
Proof.
  induction batch as [|r batch IH]; intros rows; [done|]. cbn.
  etrans; [apply (insert_vehicle_subseteq now rows r)|apply IH].
Qed.

Lemma dom_insert_vehicles now (batch : list NewVehicle) :
  ∀ rows,
    dom (foldl (insert_vehicle now) rows batch)
    = list_to_set (nv_vin <$> batch) ∪ dom rows.
Proof.
  induction batch as [|r batch IH]; intros rows; cbn.
  - set_solver.
  - rewrite IH, dom_insert_vehicle. set_solver.
Qed.

End Table.

(** ** The setup phase without failures *)

(** Unfold the monad of the setup phase. *)
Ltac run_d :=
  unfold mbind, mret, D_bind, D_ret, say, fail, d_lift, get_draws, get_pool
    in *;
  cbn in *.

Section Setup.
Implicit Types (w : SetupWorld) (cfg : TestConfig)
  (rows : gmap string Vehicle).

Lemma request_no_fault {A : Type} effect w :
  no_faults (setup_env w) →
  @request A effect w
  = match effect (server_now (setup_env w) (requests w)) (vehicles w) (pool w)
    with
    | Py.Normal (a, t, p) =>
        (Py.Normal a,
         mkSetupWorld (setup_env w) t p (S (requests w)) (said w))
    | Py.Raised e =>
        (Py.Raised e,
         mkSetupWorld (setup_env w) (vehicles w) (pool w) (S (requests w))
                      (said w))
    end.
Proof. intros Hno. unfold request. now rewrite Hno. Qed.

Lemma bind_run {A B : Type} (m : D A) (k : A → D B) w :
  (m ≫= k) w
  = match m w with
    | (Py.Normal a, w1) => k a w1
    | (Py.Raised e, w1) => (Py.Raised e, w1)
    end.
Proof. reflexivity. Qed.

Lemma ret_run {A : Type} (a : A) w : (mret a : D A) w = (Py.Normal a, w).
Proof. reflexivity. Qed.

Lemma say_run (l : setup_line) w :
  say l w
  = (Py.Normal (),
     mkSetupWorld (setup_env w) (vehicles w) (pool w) (requests w)
                  (said w ++ [l])).
Proof. reflexivity. Qed.

Lemma d_for_inserts (batches : list (list NewVehicle)) :
  ∀ w rows,
    no_faults (setup_env w) → vehicles w = Some rows →
    ∃ rows',
      d_for batches executemany_insert w
      = (Py.Normal (),
         mkSetupWorld (setup_env w) (Some rows') (pool w)
                      (requests w + length batches) (said w))
      ∧ rows ⊆ rows'
      ∧ dom rows' = list_to_set (nv_vin <$> mjoin batches) ∪ dom rows.
Proof.
  induction batches as [|batch batches IH]; intros w rows Hno Hrows.
  - exists rows. cbn. rewrite Nat.add_0_r. destruct w; cbn in *; subst.
    split; [reflexivity|]. set_solver.
  - cbn [d_for]. unfold mbind, D_bind, executemany_insert.
    rewrite request_no_fault by done. rewrite Hrows.
    set (rows1 := foldl _ rows batch).
    set (w1 := mkSetupWorld _ _ _ _ _).
    destruct (IH w1 rows1) as (rows' & Hrun & Hsub & Hdom); [done|done|].
    exists rows'. fold (@executemany_insert) in *.
    change (d_for batches (λ b, request _)) with (d_for batches executemany_insert).
    rewrite Hrun. subst w1. cbn.
    split; [do 2 f_equal; lia|]. split.
    + etrans; [apply insert_vehicles_subseteq|exact Hsub].
    + rewrite Hdom. subst rows1. rewrite dom_insert_vehicles.
      rewrite fmap_app. set_solver.
Qed.

Lemma d_for_fmap {A B : Type} (f : A → B) (body : B → D unit) (xs : list A) :
  d_for (f <$> xs) body = d_for xs (λ x, body (f x)).
Proof. induction xs as [|x xs IH]; cbn; [reflexivity|]. now rewrite IH. Qed.

Lemma batch_vins e current_count needed :
  nv_vin <$> mjoin (batch_data (draws e) current_count needed
                      <$> range_step 0 needed batch_size)
  = vin_of e <$> seqZ current_count needed.
Proof.
  rewrite <- join_batch_indices.
  induction (range_step 0 needed batch_size) as [|i rest IH]; [reflexivity|].
  rewrite !fmap_cons. cbn [mjoin list_join]. rewrite !fmap_app.
  f_equal; [|exact IH]. unfold batch_data. rewrite <- list_fmap_compose. reflexivity.
Qed.


Lemma size_list_to_set_le (l : list string) :
  (size (list_to_set l : gset string) ≤ length l)%nat.
Proof.
  induction l as [|x l IH]; cbn; [now rewrite size_empty|].
  rewrite size_union_alt, size_singleton.
  assert (size (list_to_set l ∖ ({[x]} : gset string))
          ≤ size (list_to_set l : gset string))%nat
    by (apply subseteq_size; set_solver).
  lia.
Qed.

Lemma populate_run cfg target w rows :
  no_faults (setup_env w) → vehicles w = Some rows →
  ∃ rows' w',
    populate_test_data cfg target w = (Py.Normal (), w')
    ∧ vehicles w' = Some rows'
    ∧ pool w' = pool w
    ∧ setup_env w' = setup_env w
    ∧ rows ⊆ rows'
    ∧ dom rows'
      = list_to_set
          (vin_of (setup_env w)
             <$> seqZ (Z.of_nat (size rows))
                      (Z.max 0 (default (initial_records cfg) target
                                - Z.of_nat (size rows))))
        ∪ dom rows
    ∧ (default (initial_records cfg) target ≤ Z.of_nat (size rows) →
       w' = mkSetupWorld (setup_env w) (vehicles w) (pool w)
                         (S (requests w)) (said w)).
Proof.
  intros Hno Hrows. unfold populate_test_data.
  set (goal := default (initial_records cfg) target).
  unfold mbind at 1. unfold D_bind, select_count at 1.
  rewrite request_no_fault by done. rewrite Hrows.
  set (needed := Z.max 0 (goal - Z.of_nat (size rows))).
  case_decide as Hneeded.
  - exists rows. eexists. split; [reflexivity|]. cbn.
    rewrite Hneeded. cbn. repeat split; try done. set_solver.
  - run_d. rewrite <- d_for_fmap.
    set (w1 := mkSetupWorld _ _ _ _ _).
    destruct (d_for_inserts
                (batch_data (draws (setup_env w)) (Z.of_nat (size rows)) needed
                   <$> range_step 0 needed batch_size) w1 rows)
      as (rows' & Hrun & Hsub & Hdom); [done|done|].
    rewrite Hrun. cbn.
    unfold select_count. rewrite request_no_fault by done. cbn.
    exists rows'. eexists. split; [reflexivity|]. cbn.
    repeat split; try done.
    + rewrite Hdom, batch_vins. reflexivity.
    + intros Hle. lia.
Qed.

Lemma populate_keeps_existing_rows_run cfg target w rows :
  no_faults (setup_env w) → vehicles w = Some rows →
  ∃ rows' w',
    populate_test_data cfg target w = (Py.Normal (), w')
    ∧ vehicles w' = Some rows'
    ∧ setup_env w' = setup_env w
    ∧ (∀ vin v, rows !! vin = Some v → rows' !! vin = Some v)
    ∧ Z.of_nat (size rows')
      ≤ Z.max (Z.of_nat (size rows)) (default (initial_records cfg) target).
Proof.
  intros Hno Hrows.
  destruct (populate_run cfg target w rows Hno Hrows)
    as (rows' & w' & Hrun & Hrows' & _ & Henv & Hsub & Hdom & _).
  exists rows', w'. split; [exact Hrun|]. split; [exact Hrows'|].
  split; [exact Henv|]. split.
  - intros vin v Hv. eapply lookup_weaken; eauto.
  - rewrite <- (size_dom rows'), Hdom.
    set (generated := vin_of _ <$> _).
    pose proof (size_union_alt (list_to_set generated : gset string) (dom rows))
      as Hunion.
    assert (size (dom rows ∖ (list_to_set generated : gset string))
            ≤ size (dom rows))%nat
      by (apply subseteq_size; set_solver).
    pose proof (size_list_to_set_le generated).
    rewrite size_dom in *.
    subst generated. rewrite length_fmap, length_seqZ in *. lia.
Qed.

(** X7.  When no request fails, [populate_test_data] keeps every row of the
    table as it is, adds rows only for the indices from the current count
    up to the target, never leaves more rows than the larger of the two,
    and does nothing but count when the target is already reached. *)
Theorem populate_keeps_existing_rows cfg target w rows :
  no_faults (setup_env w) → vehicles w = Some rows →
  ∃ rows' w',
    populate_test_data cfg target w = (Py.Normal (), w')
    ∧ vehicles w' = Some rows'
    ∧ (∀ vin v, rows !! vin = Some v → rows' !! vin = Some v)
    ∧ (∀ vin, is_Some (rows' !! vin) →
              is_Some (rows !! vin)
              ∨ ∃ index,
                  Z.of_nat (size rows) ≤ index
                                       < default (initial_records cfg) target
                  ∧ vin = vin_of (setup_env w) index)
    ∧ Z.of_nat (size rows) ≤ Z.of_nat (size rows')
      ≤ Z.max (Z.of_nat (size rows)) (default (initial_records cfg) target)
    ∧ (default (initial_records cfg) target ≤ Z.of_nat (size rows) →
       rows' = rows ∧ said w' = said w ∧ requests w' = S (requests w)).
Proof.
  intros Hno Hrows.
  destruct (populate_run cfg target w rows Hno Hrows)
    as (rows' & w' & Hrun & Hrows' & _ & _ & Hsub & Hdom & Hnoop).
  exists rows', w'. split; [exact Hrun|]. split; [exact Hrows'|].
  set (goal := default (initial_records cfg) target) in *.
  set (generated := vin_of (setup_env w)
                      <$> seqZ (Z.of_nat (size rows))
                               (Z.max 0 (goal - Z.of_nat (size rows)))) in *.
  split; [|split; [|split]].
  - intros vin v Hv. eapply lookup_weaken; eauto.
  - intros vin Hvin. apply elem_of_dom in Hvin. rewrite Hdom in Hvin.
    apply elem_of_union in Hvin as [Hnew|Hold].
    + right. apply elem_of_list_to_set, list_elem_of_fmap in Hnew
        as (index & -> & Hindex).
      apply elem_of_seqZ in Hindex. exists index. split; [lia|reflexivity].
    + left. now apply elem_of_dom.
  - split.
    + apply Nat2Z.inj_le. now apply map_subseteq_size.
    + rewrite <- (size_dom rows'), Hdom.
      pose proof (size_union_alt (list_to_set generated : gset string) (dom rows)) as Hunion.
      assert (size (dom rows ∖ (list_to_set generated : gset string)) ≤ size (dom rows))%nat
        by (apply subseteq_size; set_solver).
      pose proof (size_list_to_set_le generated).
      rewrite size_dom in *.
      subst generated. rewrite length_fmap, length_seqZ in *. lia.
  - intros Hle. specialize (Hnoop Hle). subst w'. cbn in *.
    split; [congruence|done].
Qed.

Lemma populate_keeps_existing_rows_witness :
  ∃ rows' w',
    populate_test_data small_config None (sample_setup_world (Some one_row_table))
    = (Py.Normal (), w')
    ∧ vehicles w' = Some rows'
    ∧ (∀ vin v, one_row_table !! vin = Some v → rows' !! vin = Some v)
    ∧ Z.of_nat (size rows') ≤ 3.
Proof.
  destruct (populate_keeps_existing_rows small_config None
              (sample_setup_world (Some one_row_table)) one_row_table)
    as (rows' & w' & Hrun & Hrows' & Hkeep & _ & Hsize & _).
  - intros k. reflexivity.
  - reflexivity.
  - exists rows', w'. split; [exact Hrun|]. split; [exact Hrows'|].
    split; [exact Hkeep|]. exact (proj2 Hsize).
Defined.
End Setup.

Section SetupTable.
Implicit Types (w : SetupWorld) (cfg : TestConfig)
  (rows : gmap string Vehicle).

Lemma vin_of_inj (e : SetupEnv) (n : Z) :
  n ≤ 1000000 → NoDup (vin_of e <$> seqZ 0 n).
Proof.
  intros Hn. apply NoDup_fmap_2_strong; [|apply NoDup_seqZ].
  intros i j Hi Hj Heq. apply elem_of_seqZ in Hi, Hj.
  rewrite <- (vin_serial_generate_vin (vin_draw (draws e i)) i) by lia.
  rewrite <- (vin_serial_generate_vin (vin_draw (draws e j)) j) by lia.
  unfold vin_of in Heq. now rewrite Heq.
Qed.

(** What [setup_test_table] does from the point where the table is known
    to be missing, or has just been dropped. *)
Lemma create_and_populate_run cfg w :
  no_faults (setup_env w) → vehicles w = None →
  ∃ rows' w',
    (say SayCreating;; create_table;; create_index;; create_index;;
     say SayCreated;; populate_test_data cfg None) w
    = (Py.Normal (), w')
    ∧ vehicles w' = Some rows'
    ∧ pool w' = pool w
    ∧ setup_env w' = setup_env w
    ∧ dom rows'
      = list_to_set (vin_of (setup_env w)
                       <$> seqZ 0 (Z.max 0 (initial_records cfg))).
Proof.
  intros Hno Hnone. run_d.
  unfold create_table at 1. rewrite request_no_fault by done. cbn.
  rewrite Hnone.
  unfold create_index at 1. rewrite request_no_fault by done. cbn.
  unfold create_index at 1. rewrite request_no_fault by done. cbn.
  set (w1 := mkSetupWorld _ _ _ _ _).
  destruct (populate_run cfg None w1 ∅)
    as (rows' & w' & Hrun & Hrows' & Hpool & Henv & _ & Hdom & _);
    [done|done|].
  exists rows', w'. rewrite Hrun. repeat split; try done.
  rewrite Hdom. cbn. rewrite map_size_empty, Z.sub_0_r, dom_empty_L.
  cbn. now rewrite (right_id_L ∅ (∪)).
Qed.

Lemma create_and_populate_release cfg w (open : bool) (e : SetupEnv) :
  no_faults (setup_env w) → vehicles w = None →
  pool w = Some open → setup_env w = e →
  ∃ rows' w',
    (let (r, w2) :=
       (say SayCreating;; create_table;; create_index;; create_index;;
        say SayCreated;; populate_test_data cfg None) w in
     match connection_request w2 with
     | (Py.Normal _, w3) => (r, w3)
     | (Py.Raised ex, w3) => (Py.Raised ex, w3)
     end)
    = (Py.Normal (), w')
    ∧ vehicles w' = Some rows'
    ∧ pool w' = Some open
    ∧ (∀ vin, is_Some (rows' !! vin)
              ↔ ∃ index, 0 ≤ index < initial_records cfg
                         ∧ vin = vin_of e index)
    ∧ (initial_records cfg ≤ 1000000 →
       Z.of_nat (size rows') = Z.max 0 (initial_records cfg)).
Proof.
  intros Hno Hnone Hpool <-.
  destruct (create_and_populate_run cfg w)
    as (rows' & w' & Hrun & Hrows' & Hpool' & Henv' & Hdom); [done|done|].
  rewrite Hrun.
  unfold connection_request. rewrite request_no_fault by now rewrite Henv'.
  cbn. exists rows'. eexists. split; [reflexivity|]. cbn.
  split; [done|]. split; [congruence|]. split.
  - intros vin.
    rewrite <- elem_of_dom, Hdom, elem_of_list_to_set, list_elem_of_fmap.
    split.
    + intros (index & -> & Hindex). apply elem_of_seqZ in Hindex.
      exists index. split; [lia|done].
    + intros (index & Hindex & ->). exists index. split; [done|].
      apply elem_of_seqZ. lia.
  - intros Hle. rewrite <- size_dom, Hdom.
    rewrite size_list_to_set by (apply vin_of_inj; lia).
    rewrite length_fmap, length_seqZ. lia.
Qed.

(** X8.  A missing table, or any table under [--recreate-table], is replaced by
    a table that holds just the generated VINs; up to a million records
    these are [initial_records] rows. *)
Theorem setup_builds_the_table cfg w (open : bool) :
  no_faults (setup_env w) → pool w = Some open →
  vehicles w = None ∨ recreate_table cfg = true →
  ∃ rows' w',
    setup_test_table cfg w = (Py.Normal (), w')
    ∧ vehicles w' = Some rows'
    ∧ pool w' = Some open
    ∧ (∀ vin, is_Some (rows' !! vin)
              ↔ ∃ index, 0 ≤ index < initial_records cfg
                         ∧ vin = vin_of (setup_env w) index)
    ∧ (initial_records cfg ≤ 1000000 →
       Z.of_nat (size rows') = Z.max 0 (initial_records cfg)).
Proof.
  intros Hno Hpool Hcase.
  unfold setup_test_table, with_connection. rewrite Hpool.
  unfold connection_request at 1. rewrite request_no_fault by done. cbn.
  rewrite bind_run. unfold select_table_exists.
  rewrite request_no_fault by done. cbn.
  rewrite bind_run.
  destruct (vehicles w) as [rows|] eqn:Hrows.
  - destruct Hcase as [?|Hrecreate]; [done|].
    rewrite Hrecreate, bool_decide_true by done. cbn.
    rewrite bind_run, say_run. cbn.
    rewrite bind_run. unfold drop_table. rewrite request_no_fault by done.
    cbn. now apply create_and_populate_release.
  - rewrite bool_decide_false by (intros []; done). cbn.
    now apply create_and_populate_release.
Qed.

Lemma setup_builds_the_table_witness :
  ∃ rows' w',
    setup_test_table small_config (sample_setup_world None)
    = (Py.Normal (), w')
    ∧ vehicles w' = Some rows'
    ∧ Z.of_nat (size rows') = 3.
Proof.
  destruct (setup_builds_the_table small_config (sample_setup_world None) true)
    as (rows' & w' & Hrun & Hrows' & _ & _ & Hsize).
  - intros k. reflexivity.
  - reflexivity.
  - left. reflexivity.
  - exists rows', w'. split; [exact Hrun|]. split; [exact Hrows'|].
    apply Hsize. vm_compute. discriminate.
Defined.

(** X9.  Without [--recreate-table] the rows of an existing table survive; a
    table of 1000 rows or more is left as it is, whatever
    [initial_records] says, and a smaller one is filled up to at most
    [initial_records] rows. *)
Theorem setup_keeps_an_existing_table cfg w (open : bool) rows :
  no_faults (setup_env w) → pool w = Some open →
  vehicles w = Some rows → recreate_table cfg = false →
  ∃ rows' w',
    setup_test_table cfg w = (Py.Normal (), w')
    ∧ vehicles w' = Some rows'
    ∧ (∀ vin v, rows !! vin = Some v → rows' !! vin = Some v)
    ∧ (1000 ≤ Z.of_nat (size rows) →
       rows' = rows
       ∧ said w' = said w ++ [SayReady (Z.of_nat (size rows))]
       ∧ requests w' = (requests w + 4)%nat)
    ∧ (Z.of_nat (size rows) < 1000 →
       Z.of_nat (size rows')
       ≤ Z.max (Z.of_nat (size rows)) (initial_records cfg)).
Proof.
  intros Hno Hpool Hrows Hrecreate.
  unfold setup_test_table, with_connection. rewrite Hpool.
  unfold connection_request at 1. rewrite request_no_fault by done. cbn.
  unfold mbind at 1. unfold D_bind at 1.
  unfold select_table_exists. rewrite request_no_fault by done. cbn.
  rewrite Hrows, Hrecreate, bool_decide_true by done. cbn.
  unfold mbind at 1. unfold D_bind at 1. cbn.
  unfold mbind at 1. unfold D_bind at 1.
  unfold select_count at 1. rewrite request_no_fault by done. cbn.
  case_decide as Hcount.
  - unfold mbind at 1. unfold D_bind at 1. cbn.
    set (w1 := mkSetupWorld _ _ _ _ _).
    destruct (populate_keeps_existing_rows_run cfg (Some (initial_records cfg)) w1 rows)
      as (rows' & w' & Hrun & Hrows' & Henv' & Hkeep & Hsize); [done|done|].
    rewrite Hrun.
    unfold connection_request. rewrite request_no_fault by now rewrite Henv'.
    cbn. exists rows'. eexists. split; [reflexivity|]. cbn.
    split; [done|]. split; [done|]. split; [lia|]. intros _. cbn in Hsize. lia.
  - cbn. unfold connection_request. rewrite request_no_fault by done. cbn.
    exists rows. eexists. split; [reflexivity|]. cbn.
    split; [done|]. split; [done|]. split; [|lia].
    intros _. split; [done|]. split; [done|]. lia.
Qed.

Lemma setup_keeps_an_existing_table_witness :
  ∃ rows' w',
    setup_test_table small_config (sample_setup_world (Some one_row_table))
    = (Py.Normal (), w')
    ∧ vehicles w' = Some rows'
    ∧ ∀ vin v, one_row_table !! vin = Some v → rows' !! vin = Some v.
Proof.
  destruct (setup_keeps_an_existing_table small_config
              (sample_setup_world (Some one_row_table)) true one_row_table)
    as (rows' & w' & Hrun & Hrows' & Hkeep & _).
  - intros k. reflexivity.
  - reflexivity.
  - reflexivity.
  - reflexivity.
  - exists rows', w'. split; [exact Hrun|]. split; [exact Hrows'|exact Hkeep].
Defined.

End SetupTable.

(** ** The setup phase when requests may fail *)

Section Preserves.
Context (R : SetupWorld → SetupWorld → Prop).
Context (R_refl : ∀ w, R w w).
Context (R_trans : ∀ w1 w2 w3, R w1 w2 → R w2 w3 → R w1 w3).

Lemma preserves_ret {A : Type} (a : A) : preserves R (mret a : D A).
Proof. intros w. apply R_refl. Qed.

Lemma preserves_fail {A : Type} (e : Py.exn) : preserves R (@fail A e).
Proof. intros w. apply R_refl. Qed.

Lemma preserves_lift {A : Type} (r : Py.res A) : preserves R (d_lift r).
Proof. intros w. apply R_refl. Qed.

Lemma preserves_get_draws : preserves R get_draws.
Proof. intros w. apply R_refl. Qed.

Lemma preserves_get_pool : preserves R get_pool.
Proof. intros w. apply R_refl. Qed.

Lemma preserves_bind {A B : Type} (m : D A) (k : A → D B) :
  preserves R m → (∀ a, preserves R (k a)) → preserves R (m ≫= k).
Proof.
  intros Hm Hk w. rewrite bind_run. specialize (Hm w).
  destruct (m w) as [[a|e] w1]; cbn in *; [|exact Hm].
  eapply R_trans; [exact Hm|apply Hk].
Qed.

Lemma preserves_for {A : Type} (xs : list A) (body : A → D unit) :
  (∀ x, preserves R (body x)) → preserves R (d_for xs body).
Proof.
  intros Hbody. induction xs as [|x xs IH]; cbn [d_for].
  - apply preserves_ret.
  - apply preserves_bind; [apply Hbody|intros _; exact IH].
Qed.

Lemma preserves_try_except {A : Type} (body : D A) (handler : Py.exn → D A) :
  preserves R body → (∀ e, preserves R (handler e)) →
  preserves R (d_try_except_Exception body handler).
Proof.
  intros Hbody Hhandler w. unfold d_try_except_Exception.
  specialize (Hbody w). destruct (body w) as [[a|e] w1]; cbn in *;
    [exact Hbody|].
  destruct (Py.is_Exception e); [|exact Hbody].
  eapply R_trans; [exact Hbody|apply Hhandler].
Qed.

Lemma preserves_try_finally {A : Type} (body : D A) (final : D unit) :
  preserves R body → preserves R final →
  preserves R (d_try_finally body final).
Proof.
  intros Hbody Hfinal w. unfold d_try_finally.
  specialize (Hbody w). destruct (body w) as [r w1]. cbn in *.
  specialize (Hfinal w1). destruct (final w1) as [[a|e] w2]; cbn in *;
    eapply R_trans; eauto.
Qed.

Lemma preserves_request {A : Type} effect :
  (∀ w, R w (mkSetupWorld (setup_env w) (vehicles w) (pool w)
                          (S (requests w)) (said w))) →
  (∀ w (a : A) t p,
     effect (server_now (setup_env w) (requests w)) (vehicles w) (pool w)
     = Py.Normal (a, t, p) →
     R w (mkSetupWorld (setup_env w) t p (S (requests w)) (said w))) →
  preserves R (request effect).
Proof.
  intros Hbump Heffect w. unfold request.
  destruct (faults (setup_env w) (requests w)); [apply Hbump|].
  destruct (effect _ _ _) as [[[a t] p]|e] eqn:Hrun; cbn;
    [now apply (Heffect w a)|apply Hbump].
Qed.

Lemma preserves_with_connection {A : Type} (body : D A) :
  preserves R connection_request → preserves R body →
  preserves R (with_connection body).
Proof.
  intros Hconn Hbody w. unfold with_connection.
  destruct (pool w); [|apply R_refl].
  pose proof (Hconn w) as H1.
  destruct (connection_request w) as [[[]|e] w1]; cbn in *; [|exact H1].
  pose proof (Hbody w1) as H2. destruct (body w1) as [r w2]. cbn in *.
  pose proof (Hconn w2) as H3.
  destruct (connection_request w2) as [[[]|e] w3]; cbn in *;
    eauto using R_trans.
Qed.

Lemma preserves_main_handlers (body : D unit) :
  (∀ l, preserves R (say l)) → preserves R body →
  preserves R (main_handlers body).
Proof.
  intros Hsay Hbody w. unfold main_handlers.
  specialize (Hbody w). destruct (body w) as [[a|e] w1]; cbn in *;
    [exact Hbody|].
  destruct e; cbn;
    first [exact Hbody | eapply R_trans; [exact Hbody|apply Hsay]].
Qed.

End Preserves.

Section KeepsRows.

Lemma keeps_rows_refl w : keeps_rows w w.
Proof. intros rows Hrows. now exists rows. Qed.

Lemma keeps_rows_trans w1 w2 w3 :
  keeps_rows w1 w2 → keeps_rows w2 w3 → keeps_rows w1 w3.
Proof.
  intros H12 H23 rows Hrows.
  destruct (H12 rows Hrows) as (rows2 & Hrows2 & Hsub2).
  destruct (H23 rows2 Hrows2) as (rows3 & Hrows3 & Hsub3).
  exists rows3. split; [done|]. etrans; [exact Hsub2|exact Hsub3].
Qed.

Lemma keeps_rows_say l : preserves keeps_rows (say l).
Proof. intros w rows Hrows. now exists rows. Qed.

Lemma keeps_rows_request {A : Type} effect :
  (∀ now rows p (a : A) t p',
     effect now (Some rows) p = Py.Normal (a, t, p') →
     ∃ rows', t = Some rows' ∧ rows ⊆ rows') →
  preserves keeps_rows (request effect).
Proof.
  intros Heffect. apply preserves_request.
  - intros w rows Hrows. now exists rows.
  - intros w a t p Hrun rows Hrows. cbn. rewrite Hrows in Hrun.
    eapply Heffect, Hrun.
Qed.

Lemma keeps_rows_connection_request : preserves keeps_rows connection_request.
Proof. apply keeps_rows_request. intros; simplify_eq. eauto. Qed.

Lemma keeps_rows_select_table_exists :
  preserves keeps_rows select_table_exists.
Proof. apply keeps_rows_request. intros; simplify_eq. eauto. Qed.

Lemma keeps_rows_create_table : preserves keeps_rows create_table.
Proof. apply keeps_rows_request. intros; simplify_eq. Qed.

Lemma keeps_rows_create_index : preserves keeps_rows create_index.
Proof. apply keeps_rows_request. intros; simplify_eq. eauto. Qed.

Lemma keeps_rows_select_count : preserves keeps_rows select_count.
Proof. apply keeps_rows_request. intros; simplify_eq. eauto. Qed.

Lemma keeps_rows_executemany_insert batch :
  preserves keeps_rows (executemany_insert batch).
Proof.
  apply keeps_rows_request. intros; simplify_eq.
  eexists. split; [reflexivity|apply insert_vehicles_subseteq].
Qed.

Lemma keeps_rows_create_pool : preserves keeps_rows create_pool.
Proof. apply keeps_rows_request. intros; simplify_eq. eauto. Qed.

Lemma keeps_rows_pool_close : preserves keeps_rows pool_close.
Proof. apply keeps_rows_request. intros; simplify_eq. eauto. Qed.

End KeepsRows.

Section Moves.
Context (allowed : setup_line → Prop).

Lemma moves_refl w : moves allowed w w.
Proof.
  repeat split; [lia|]. exists []. now rewrite app_nil_r.
Qed.

Lemma moves_trans w1 w2 w3 :
  moves allowed w1 w2 → moves allowed w2 w3 → moves allowed w1 w3.
Proof.
  intros (Henv & Hpool & Hreq & l & Hsaid & Hl)
         (Henv' & Hpool' & Hreq' & l' & Hsaid' & Hl').
  repeat split; [congruence|congruence|lia|].
  exists (l ++ l'). rewrite Hsaid', Hsaid, app_assoc.
  split; [done|]. now apply Forall_app.
Qed.

Lemma moves_say l : allowed l → preserves (moves allowed) (say l).
Proof.
  intros Hl w. repeat split; cbn; [lia|]. exists [l].
  split; [done|]. now apply Forall_singleton.
Qed.

Lemma moves_request {A : Type} effect :
  (∀ now t p (a : A) t' p',
     effect now t p = Py.Normal (a, t', p') → p' = p) →
  preserves (moves allowed) (request effect).
Proof.
  intros Heffect. apply preserves_request.
  - intros w. repeat split; cbn; [lia|]. exists []. now rewrite app_nil_r.
  - intros w a t p Hrun. apply Heffect in Hrun as ->.
    repeat split; cbn; [lia|]. exists []. now rewrite app_nil_r.
Qed.

Lemma moves_connection_request : preserves (moves allowed) connection_request.
Proof. apply moves_request. intros; simplify_eq. done. Qed.

Lemma moves_select_table_exists :
  preserves (moves allowed) select_table_exists.
Proof. apply moves_request. intros; simplify_eq. done. Qed.

Lemma moves_drop_table : preserves (moves allowed) drop_table.
Proof. apply moves_request. intros ? [] **; simplify_eq. done. Qed.

Lemma moves_create_table : preserves (moves allowed) create_table.
Proof. apply moves_request. intros ? [] **; simplify_eq. done. Qed.

Lemma moves_create_index : preserves (moves allowed) create_index.
Proof. apply moves_request. intros ? [] **; simplify_eq. done. Qed.

Lemma moves_select_count : preserves (moves allowed) select_count.
Proof. apply moves_request. intros ? [] **; simplify_eq. done. Qed.

Lemma moves_executemany_insert batch :
  preserves (moves allowed) (executemany_insert batch).
Proof. apply moves_request. intros ? [] **; simplify_eq. done. Qed.

End Moves.

(** One step through the structure of a computation of the setup phase. *)
Ltac preserves_step :=
  first
    [ apply preserves_ret; solve [auto using keeps_rows_refl, moves_refl]
    | apply preserves_fail; solve [auto using keeps_rows_refl, moves_refl]
    | apply preserves_lift; solve [auto using keeps_rows_refl, moves_refl]
    | apply preserves_get_draws; solve [auto using keeps_rows_refl, moves_refl]
    | apply preserves_get_pool; solve [auto using keeps_rows_refl, moves_refl]
    | apply keeps_rows_say
    | apply keeps_rows_connection_request
    | apply keeps_rows_select_table_exists
    | apply keeps_rows_create_table
    | apply keeps_rows_create_index
    | apply keeps_rows_select_count
    | apply keeps_rows_executemany_insert
    | apply keeps_rows_create_pool
    | apply keeps_rows_pool_close
    | apply moves_say; exact I
    | apply moves_connection_request
    | apply moves_select_table_exists
    | apply moves_drop_table
    | apply moves_create_table
    | apply moves_create_index
    | apply moves_select_count
    | apply moves_executemany_insert
    | apply preserves_for;
      [solve [auto using keeps_rows_refl, moves_refl]
      |solve [eauto using keeps_rows_trans, moves_trans]
      |intros ?]
    | apply preserves_bind;
      [solve [eauto using keeps_rows_trans, moves_trans]| |intros ?]
    | match goal with
      | |- preserves _ (if ?c then _ else _) => destruct c
      | |- preserves _ (match ?c with _ => _ end) => destruct c
      end ].

Section SetupFrames.
Implicit Types (cfg : TestConfig).

Lemma keeps_rows_populate cfg target :
  preserves keeps_rows (populate_test_data cfg target).
Proof. unfold populate_test_data. repeat preserves_step. Qed.

Lemma moves_populate cfg target :
  preserves (moves is_table_line) (populate_test_data cfg target).
Proof. unfold populate_test_data. repeat preserves_step. Qed.

Lemma keeps_rows_setup_test_table cfg :
  recreate_table cfg = false →
  preserves keeps_rows (setup_test_table cfg).
Proof.
  intros Hrecreate. unfold setup_test_table. rewrite Hrecreate.
  apply preserves_with_connection;
    [apply keeps_rows_refl|apply keeps_rows_trans
    |apply keeps_rows_connection_request|].
  apply preserves_bind; [apply keeps_rows_trans|preserves_step|intros exists_].
  rewrite andb_false_r.
  repeat first [apply keeps_rows_populate | preserves_step].
Qed.

Lemma moves_setup_test_table cfg :
  preserves (moves is_table_line) (setup_test_table cfg).
Proof.
  unfold setup_test_table.
  apply preserves_with_connection;
    [apply moves_refl|apply moves_trans|apply moves_connection_request|].
  repeat first [apply moves_populate | preserves_step].
Qed.

End SetupFrames.

Section Main.
Implicit Types (cfg : TestConfig) (w : SetupWorld) (outcome : Py.res unit).

Lemma initialize_cases cfg w :
  ∃ r w' l,
    initialize cfg w = (r, w')
    ∧ setup_env w' = setup_env w
    ∧ (requests w < requests w')%nat
    ∧ Forall is_table_line l
    ∧ match r with
      | Py.Normal _ =>
          pool w' = Some true
          ∧ said w' = said w ++ SayConnecting :: SayEstablished :: l
      | Py.Raised ex =>
          let report :=
            if Py.is_Exception ex then [SayInitFailed ex] else [] in
          (pool w' = pool w
           ∧ faults (setup_env w) (requests w) = Some ex
           ∧ requests w' = S (requests w)
           ∧ said w' = said w ++ SayConnecting :: report)
          ∨ (pool w' = Some true
             ∧ said w' = said w ++ SayConnecting :: SayEstablished :: l ++ report)
      end.
Proof.
  unfold initialize.
  pose proof (moves_setup_test_table cfg) as Hmoves. revert Hmoves.
  generalize (setup_test_table cfg). intros setup Hmoves.
  rewrite bind_run, say_run. cbn.
  unfold d_try_except_Exception. rewrite bind_run.
  unfold create_pool, request at 1. cbn.
  destruct (faults (setup_env w) (requests w)) as [ex|] eqn:Hfault.
  - exists (Py.Raised ex). cbn.
    destruct (Py.is_Exception ex) eqn:Hex.
    + rewrite bind_run, say_run. cbn. unfold fail. eexists. exists [].
      split; [reflexivity|]. cbn. rewrite <- ?app_assoc.
      repeat split; try done; try lia. left. repeat split; done.
    + eexists. exists []. split; [reflexivity|]. cbn.
      repeat split; try done; try lia. left. repeat split; done.
  - rewrite bind_run, say_run. cbn.
    set (w2 := mkSetupWorld _ _ _ _ _).
    pose proof (Hmoves w2)
      as (Henv & Hpool & Hreq & l & Hsaid & Hl).
    destruct (setup w2) as [[[]|ex] w3]; cbn in *.
    + exists (Py.Normal ()), w3, l. rewrite Hsaid, <- !app_assoc. cbn.
      repeat split; try done; lia.
    + exists (Py.Raised ex). destruct (Py.is_Exception ex) eqn:Hex.
      * rewrite bind_run, say_run. cbn. unfold fail. eexists. exists l.
        split; [reflexivity|]. cbn. rewrite Hsaid, <- ?app_assoc.
        repeat split; try done; try lia. right. split; done.
      * exists w3, l. split; [reflexivity|]. rewrite Hsaid, <- ?app_assoc.
        cbn. rewrite app_nil_r.
        repeat split; try done; try lia. right. split; done.
Qed.

(** [main] from its first line of output: how [initialize] ended, then the
    handlers, then [close]. *)
Lemma main_unfold cfg updates outcome w :
  main cfg updates outcome w
  = let w0 := (say SayBanner w).2 in
    let (r1, w1) := initialize cfg w0 in
    let (r2, w2) :=
      main_handlers
        (λ w1, match r1 with
               | Py.Normal _ => run_test_call updates outcome w1
               | Py.Raised ex => (Py.Raised ex, w1)
               end) w1 in
    match close w2 with
    | (Py.Normal _, w3) => (r2, w3)
    | (Py.Raised ex, w3) => (Py.Raised ex, w3)
    end.
Proof.
  unfold main. rewrite bind_run, say_run. cbn [snd].
  unfold d_try_finally, main_handlers. rewrite bind_run.
  destruct (initialize cfg _) as [[[]|ex] w1]; reflexivity.
Qed.

Lemma close_cases w :
  match pool w with
  | None => close w = (Py.Normal (), w)
  | Some _ =>
      match faults (setup_env w) (requests w) with
      | Some ex =>
          close w
          = (Py.Raised ex,
             mkSetupWorld (setup_env w) (vehicles w) (pool w)
                          (S (requests w)) (said w))
      | None =>
          close w
          = (Py.Normal (),
             mkSetupWorld (setup_env w) (vehicles w) (Some false)
                          (S (requests w)) (said w ++ [SayClosed]))
      end
  end.
Proof.
  unfold close. rewrite bind_run. unfold get_pool.
  destruct (pool w) as [open|] eqn:Hpool; [|reflexivity].
  rewrite bind_run. unfold pool_close, request.
  destruct (faults (setup_env w) (requests w)); rewrite ?Hpool; reflexivity.
Qed.

End Main.

(** Membership in what was printed, where the lines of the table setup are
    only known to be such lines ([Hl]). *)
Ltac said_hyps Hl :=
  repeat match goal with
         | H : _ ∈ [] |- _ => apply elem_of_nil in H; destruct H
         | H : _ ∈ _ ++ _ |- _ => apply elem_of_app in H; destruct H as [H|H]
         | H : _ ∈ _ :: _ |- _ =>
             apply elem_of_cons in H; destruct H as [H|H];
             [first [discriminate H | injection H as ->| clear H]|]
         | H : _ ∈ ?l |- _ => is_var l; apply Hl in H; destruct H
         end.

Ltac said_goal :=
  first [ apply list_elem_of_here
        | apply list_elem_of_further; said_goal
        | apply elem_of_app; left; said_goal
        | apply elem_of_app; right; said_goal ].

(** A complete case analysis of a run of [main]: how [initialize] ended,
    how the test ended, and whether closing the pool failed. *)
Ltac main_analysis cfg outcome e t :=
  let r1 := fresh "r1" in
  let w1 := fresh "w1" in
  let l := fresh "l" in
  let Hinit := fresh "Hinit" in
  let Henv := fresh "Henv" in
  let Hreq := fresh "Hreq" in
  let Hl := fresh "Hl" in
  let Hshape := fresh "Hshape" in
  let Hpool := fresh "Hpool" in
  let Hsaid := fresh "Hsaid" in
  let Hfault := fresh "Hfault" in
  let Hreq1 := fresh "Hreq1" in
  let Hclose := fresh "Hclose" in
  let failure := fresh "failure" in
  rewrite main_unfold; cbn [snd];
  destruct (initialize_cases cfg (say SayBanner (setup_boot e t)).2)
    as (r1 & w1 & l & Hinit & Henv & Hreq & Hl & Hshape);
  rewrite Hinit; unfold main_handlers, run_test_call;
  destruct r1 as [[]|failure];
    [destruct Hshape as (Hpool & Hsaid);
     rewrite bind_run, say_run, bind_run; unfold apply_updates, d_lift;
     destruct outcome as [[]|[]]
    |destruct Hshape as [(Hpool & Hfault & Hreq1 & Hsaid)|(Hpool & Hsaid)];
     destruct failure];
    cbn [Py.is_Exception say pool setup_env requests said vehicles];
    cbn in Hpool;
    match goal with
    | |- context [close ?w2] =>
        pose proof (close_cases w2) as Hclose;
        cbn [pool setup_env requests said vehicles] in Hclose;
        rewrite ?Hpool in Hclose; rewrite ?Hpool
    end;
    repeat match type of Hclose with
           | match ?c with _ => _ end => destruct c eqn:?
           end;
    rewrite Hclose; cbn in *.

Section Runs.
Implicit Types (cfg : TestConfig) (w : SetupWorld) (outcome : Py.res unit).

(** X10.  [run_test] is started only after [initialize] has returned normally:
    the pool was created, the table set up, and no failure reported. *)
Theorem main_starts_the_test_after_setup cfg updates outcome e t r w' :
  main cfg updates outcome (setup_boot e t) = (r, w') →
  SayStartingTest ∈ said w' →
  SayEstablished ∈ said w'
  ∧ (∀ ex, SayInitFailed ex ∉ said w')
  ∧ is_Some (pool w').
Proof.
  main_analysis cfg outcome e t.
  all: intros [= <- <-]; cbn [said pool]; rewrite ?Hsaid; intros Hin.
  all: rewrite Forall_forall in Hl; said_hyps Hl.
  all: split; [said_goal|split; [intros ex' Hex'; said_hyps Hl|done]].
Qed.

Lemma main_starts_the_test_after_setup_witness :
  let w' := (main small_config sample_updates (Py.Normal ())
               (setup_boot sample_setup_env None)).2 in
  SayStartingTest ∈ said w'
  ∧ SayEstablished ∈ said w'
  ∧ (∀ ex, SayInitFailed ex ∉ said w')
  ∧ is_Some (pool w').
Proof.
  intros w'.
  assert (SayStartingTest ∈ said w') as Hstarted
    by (vm_compute; said_goal).
  split; [exact Hstarted|].
  apply (main_starts_the_test_after_setup small_config sample_updates
           (Py.Normal ())
           sample_setup_env None
           (main small_config sample_updates (Py.Normal ())
              (setup_boot sample_setup_env None)).1 w').
  - subst w'. now destruct (main _ _ _ _).
  - exact Hstarted.
Defined.

(** X11.  A failure of [initialize] that is an [Exception] is reported twice, by
    [initialize] and, re-raised, by [main]; other exceptions are reported
    by neither. *)
Theorem main_reports_a_failed_initialisation cfg updates outcome e t r w' ex :
  main cfg updates outcome (setup_boot e t) = (r, w') →
  SayInitFailed ex ∈ said w' →
  Py.is_Exception ex = true ∧ SayTestFailed ex ∈ said w'.
Proof.
  main_analysis cfg outcome e t.
  all: intros [= <- <-]; cbn [said pool]; rewrite ?Hsaid; intros Hin.
  all: rewrite Forall_forall in Hl; said_hyps Hl.
  all: split; [reflexivity|said_goal].
Qed.

Lemma main_reports_a_failed_initialisation_witness :
  let w' := (main small_config sample_updates (Py.Normal ())
               (setup_boot unreachable_setup_env None)).2 in
  SayInitFailed (Py.OSError "connection refused") ∈ said w'
  ∧ SayTestFailed (Py.OSError "connection refused") ∈ said w'.
Proof.
  intros w'.
  assert (SayInitFailed (Py.OSError "connection refused") ∈ said w')
    as Hfailed by (vm_compute; said_goal).
  split; [exact Hfailed|].
  apply (main_reports_a_failed_initialisation small_config sample_updates
           (Py.Normal ())
           unreachable_setup_env None
           (main small_config sample_updates (Py.Normal ())
              (setup_boot unreachable_setup_env None)).1 w').
  - subst w'. now destruct (main _ _ _ _).
  - exact Hfailed.
Defined.

(** X12.  [main] lets an exception out in two cases only: the run was cancelled,
    or closing the pool, the last request, failed. *)
Theorem main_contains_failures cfg updates outcome e t ex w' :
  main cfg updates outcome (setup_boot e t) = (Py.Raised ex, w') →
  ex = Py.CancelledError
  ∨ (pool w' = Some true
     ∧ ∃ k, requests w' = S k ∧ faults e k = Some ex).
Proof.
  main_analysis cfg outcome e t.
  all: intros [= <- <-] || intros [=]; cbn [requests pool].
  all: rewrite ?Henv in *; eauto 10.
Qed.

Lemma main_contains_failures_witness :
  let run := main small_config sample_updates
               (Py.Raised Py.CancelledError)
               (setup_boot sample_setup_env None) in
  run.1 = Py.Raised Py.CancelledError
  ∧ (Py.CancelledError = Py.CancelledError
     ∨ (pool run.2 = Some true
        ∧ ∃ k, requests run.2 = S k
               ∧ faults sample_setup_env k = Some Py.CancelledError)).
Proof.
  intros run.
  assert (run.1 = Py.Raised Py.CancelledError) as Hraised
    by (vm_compute; reflexivity).
  split; [exact Hraised|].
  apply (main_contains_failures small_config sample_updates
           (Py.Raised Py.CancelledError)
           sample_setup_env None Py.CancelledError run.2).
  rewrite <- Hraised. subst run. now destruct (main _ _ _ _).
Defined.

(** X13.  When [main] ends the pool is not left open, unless closing it failed:
    either the pool was never created, because the first request failed,
    or it was closed, and the last line says so. *)
Theorem main_closes_the_pool cfg updates outcome e t r w' :
  main cfg updates outcome (setup_boot e t) = (r, w') →
  match pool w' with
  | None => is_Some (faults e 0) ∧ requests w' = 1%nat
  | Some false => last (said w') = Some SayClosed
  | Some true =>
      ∃ ex k, r = Py.Raised ex ∧ requests w' = S k ∧ faults e k = Some ex
  end.
Proof.
  main_analysis cfg outcome e t.
  all: intros [= <- <-]; cbn [requests pool said].
  all: rewrite ?Henv in *; rewrite ?Hpool; rewrite ?last_snoc; eauto 10.
Qed.

Lemma main_closes_the_pool_witness :
  let w' := (main small_config sample_updates (Py.Normal ())
               (setup_boot sample_setup_env None)).2 in
  pool w' = Some false ∧ last (said w') = Some SayClosed.
Proof.
  intros w'.
  assert (pool w' = Some false) as Hpool by (vm_compute; reflexivity).
  split; [exact Hpool|].
  pose proof (main_closes_the_pool small_config sample_updates
           (Py.Normal ())
                sample_setup_env None
                (main small_config sample_updates (Py.Normal ())
                   (setup_boot sample_setup_env None)).1 w') as Hclosed.
  rewrite Hpool in Hclosed. apply Hclosed.
  subst w'. now destruct (main _ _ _ _).
Defined.

Lemma keeps_rows_initialize cfg :
  recreate_table cfg = false → preserves keeps_rows (initialize cfg).
Proof.
  intros Hrecreate. unfold initialize.
  apply preserves_bind; [apply keeps_rows_trans|apply keeps_rows_say|].
  intros _. apply preserves_try_except; [apply keeps_rows_trans| |].
  - repeat first [apply keeps_rows_setup_test_table; exact Hrecreate
                 | preserves_step].
  - intros ex. repeat preserves_step.
Qed.

Lemma keeps_rows_close : preserves keeps_rows close.
Proof. unfold close. repeat preserves_step. Qed.

Lemma same_vehicle_refl (v : Vehicle) : same_vehicle v v.
Proof. repeat split. Qed.

Lemma same_vehicle_trans (v1 v2 v3 : Vehicle) :
  same_vehicle v1 v2 → same_vehicle v2 v3 → same_vehicle v1 v3.
Proof. unfold same_vehicle. intuition congruence. Qed.

Lemma updated_by_trans updates vin (v1 v2 v3 : Vehicle) :
  updated_by updates vin v1 v2 → updated_by updates vin v2 v3 →
  updated_by updates vin v1 v3.
Proof.
  intros [Hsame12 Hcase12] [Hsame23 Hcase23].
  split; [eapply same_vehicle_trans; eauto|].
  destruct Hcase23 as [->|Hupdated]; [exact Hcase12|right; exact Hupdated].
Qed.

Lemma keeps_vins_refl updates w : keeps_vins updates w w.
Proof.
  intros rows Hrows. exists rows. split; [done|].
  intros vin v Hv. exists v. split; [done|].
  split; [apply same_vehicle_refl|now left].
Qed.

Lemma keeps_vins_trans updates w1 w2 w3 :
  keeps_vins updates w1 w2 → keeps_vins updates w2 w3 →
  keeps_vins updates w1 w3.
Proof.
  intros H12 H23 rows Hrows.
  destruct (H12 rows Hrows) as (rows2 & Hrows2 & Hkeep2).
  destruct (H23 rows2 Hrows2) as (rows3 & Hrows3 & Hkeep3).
  exists rows3. split; [done|]. intros vin v Hv.
  destruct (Hkeep2 vin v Hv) as (v2 & Hv2 & Hby2).
  destruct (Hkeep3 vin v2 Hv2) as (v3 & Hv3 & Hby3).
  exists v3. split; [done|]. eapply updated_by_trans; eauto.
Qed.

(** What keeps the rows as they are keeps them up to updates. *)
Lemma keeps_rows_vins {A : Type} updates (m : D A) :
  preserves keeps_rows m → preserves (keeps_vins updates) m.
Proof.
  intros Hm w rows Hrows. destruct (Hm w rows Hrows) as (rows' & Hrows' & Hsub).
  exists rows'. split; [done|]. intros vin v Hv. exists v.
  split; [eapply lookup_weaken; eauto|].
  split; [apply same_vehicle_refl|now left].
Qed.

Lemma update_vehicle_row updates rows (u : TestUpdate) vin v :
  u ∈ updates → rows !! vin = Some v →
  ∃ v', update_vehicle rows u !! vin = Some v' ∧ updated_by updates vin v v'.
Proof.
  intros Hu Hv. unfold update_vehicle.
  destruct (rows !! upd_vin u) as [v0|] eqn:Hv0.
  - destruct (decide (upd_vin u = vin)) as [Heq|Hne].
    + rewrite Heq in *. simplify_eq. rewrite lookup_insert_eq.
      eexists. split; [reflexivity|]. split; [repeat split|].
      right. exists u. repeat split; done.
    + rewrite lookup_insert_ne by done. exists v. split; [done|].
      split; [apply same_vehicle_refl|now left].
  - exists v. split; [done|]. split; [apply same_vehicle_refl|now left].
Qed.

Lemma update_vehicles_rows updates (us : list TestUpdate) :
  Forall (λ u, u ∈ updates) us →
  ∀ rows vin v,
    rows !! vin = Some v →
    ∃ v', foldl update_vehicle rows us !! vin = Some v'
          ∧ updated_by updates vin v v'.
Proof.
  induction 1 as [|u us Hu Hus IH]; intros rows vin v Hv; cbn [foldl].
  - exists v. split; [done|]. split; [apply same_vehicle_refl|now left].
  - destruct (update_vehicle_row updates rows u vin v Hu Hv)
      as (v1 & Hv1 & Hby1).
    destruct (IH (update_vehicle rows u) vin v1 Hv1) as (v' & Hv' & Hby').
    exists v'. split; [done|]. eapply updated_by_trans; eauto.
Qed.

Lemma keeps_vins_apply_updates updates :
  preserves (keeps_vins updates) (apply_updates updates).
Proof.
  intros w rows Hrows. unfold apply_updates. cbn. rewrite Hrows. cbn.
  eexists. split; [reflexivity|]. apply update_vehicles_rows.
  now apply Forall_forall.
Qed.

Lemma keeps_vins_say updates l : preserves (keeps_vins updates) (say l).
Proof. apply keeps_rows_vins, keeps_rows_say. Qed.

Lemma keeps_vins_main cfg updates outcome :
  recreate_table cfg = false →
  preserves (keeps_vins updates) (main cfg updates outcome).
Proof.
  intros Hrecreate. unfold main.
  apply preserves_bind; [apply keeps_vins_trans|apply keeps_vins_say|].
  intros _. apply preserves_try_finally; [apply keeps_vins_trans| |].
  - apply preserves_main_handlers;
      [apply keeps_vins_trans|apply keeps_vins_say|].
    apply preserves_bind;
      [apply keeps_vins_trans
      |now apply keeps_rows_vins, keeps_rows_initialize|].
    intros _. unfold run_test_call.
    apply preserves_bind; [apply keeps_vins_trans|apply keeps_vins_say|].
    intros _.
    apply preserves_bind;
      [apply keeps_vins_trans|apply keeps_vins_apply_updates|].
    intros _. apply preserves_lift, keeps_vins_refl.
  - apply keeps_rows_vins, keeps_rows_close.
Qed.

(** X14.  Without [--recreate-table] no run of [main] drops the table or
    deletes a row, whichever requests fail and however the test ends.  A
    row that was in the table keeps its brand, its country, its creation
    time and its fleet flag; it is unchanged altogether unless the test
    updated it, and then it carries the bytes and the time of one of the
    updates of its VIN. *)
Theorem main_never_deletes_rows cfg updates outcome e rows :
  recreate_table cfg = false →
  ∃ rows',
    vehicles (main cfg updates outcome (setup_boot e (Some rows))).2
    = Some rows'
    ∧ ∀ vin v,
        rows !! vin = Some v →
        ∃ v', rows' !! vin = Some v'
              ∧ v_brand v' = v_brand v
              ∧ v_country v' = v_country v
              ∧ v_created_at v' = v_created_at v
              ∧ v_is_fleet_vehicle v' = v_is_fleet_vehicle v
              ∧ (v' = v
                 ∨ ∃ u, u ∈ updates ∧ upd_vin u = vin
                        ∧ v_entries_compressed v' = upd_data u
                        ∧ v_updated_at v' = upd_now u).
Proof.
  intros Hrecreate.
  destruct (keeps_vins_main cfg updates outcome Hrecreate
              (setup_boot e (Some rows)) rows) as (rows' & Hrows' & Hkeep);
    [reflexivity|].
  exists rows'. split; [exact Hrows'|].
  intros vin v Hv.
  destruct (Hkeep vin v Hv) as (v' & Hv' & (Hb & Hc & Ht & Hf) & Hcase).
  exists v'. repeat split; done.
Qed.

(** An instance: the server answers every request, the test starts and
    updates the one row of the table twice; the row is still there. *)
Lemma main_never_deletes_rows_witness :
  ∃ rows',
    vehicles (main small_config sample_updates (Py.Normal ())
                (setup_boot sample_setup_env (Some one_row_table))).2
    = Some rows'
    ∧ ∃ v', rows' !! "WP0ABCDEFGH000000" = Some v'
            ∧ v_brand v' = "Porsche"
            ∧ v_country v' = "DE"
            ∧ (v_entries_compressed v' = []
               ∨ ∃ u, u ∈ sample_updates
                      ∧ v_entries_compressed v' = upd_data u).
Proof.
  destruct (main_never_deletes_rows small_config sample_updates (Py.Normal ())
              sample_setup_env one_row_table)
    as (rows' & Hrows' & Hkeep); [reflexivity|].
  exists rows'. split; [exact Hrows'|].
  destruct (Hkeep "WP0ABCDEFGH000000"
              {| v_brand := "Porsche"; v_country := "DE";
                 v_created_at := 0%Qc; v_updated_at := 0%Qc;
                 v_entries_compressed := [];
                 v_is_fleet_vehicle := false |})
    as (v' & Hv' & Hbrand & Hcountry & _ & _ & Hcase); [reflexivity|].
  exists v'. split; [exact Hv'|]. split; [exact Hbrand|].
  split; [exact Hcountry|].
  destruct Hcase as [->|(u & Hu & _ & Hdata & _)];
    [left; reflexivity|right; exists u; split; [exact Hu|exact Hdata]].
Defined.

(** In that run the row ends with the bytes of the last update. *)
Lemma sample_run_updates_the_row :
  v_entries_compressed
    <$> (vehicles (main small_config sample_updates (Py.Normal ())
                     (setup_boot sample_setup_env (Some one_row_table))).2
         ≫= λ rows, rows !! "WP0ABCDEFGH000000")
  = Some [x02; x03].
Proof. vm_compute. reflexivity. Qed.

End Runs.

(** * The tasks: further properties *)

(** ** The reported figures *)

Section Figures.
Implicit Types (a b c : Qc).

Lemma float_add (m n : Z) : Py.float (m + n) = (Py.float m + Py.float n)%Qc.
Proof.
  unfold Py.float, Qc_of_Z. apply Qc_is_canon.
  unfold Qcplus, Q2Qc. cbn [this].
  rewrite !Qred_correct. unfold Qeq. cbn. lia.
Qed.

Lemma float_le (m n : Z) : m ≤ n → (Py.float m ≤ Py.float n)%Qc.
Proof.
  intros Hle. unfold Py.float, Qc_of_Z, Qcle, Q2Qc. cbn [this].
  rewrite ?Qred_correct. unfold Qle. cbn. lia.
Qed.

Lemma float_lt (m n : Z) : m < n → (Py.float m < Py.float n)%Qc.
Proof.
  intros Hlt. unfold Py.float, Qc_of_Z, Qclt, Q2Qc. cbn [this].
  rewrite ?Qred_correct. unfold Qlt. cbn. lia.
Qed.

Lemma div_mul a b : b ≠ 0%Qc → (a / b * b)%Qc = a.
Proof. intros Hb. field. exact Hb. Qed.

Lemma div_le a b c : (0 < b)%Qc → (a ≤ c * b)%Qc → (a / b ≤ c)%Qc.
Proof.
  intros Hb Hle. apply Qcnot_lt_le. intros Hlt.
  apply (Qcmult_lt_compat_r _ _ b) in Hlt; [|exact Hb].
  rewrite div_mul in Hlt by (intros ->; now apply Qclt_not_eq in Hb).
  now apply Qcle_not_lt in Hle.
Qed.

Lemma le_div a b c : (0 < b)%Qc → (c * b ≤ a)%Qc → (c ≤ a / b)%Qc.
Proof.
  intros Hb Hle. apply Qcnot_lt_le. intros Hlt.
  apply (Qcmult_lt_compat_r _ _ b) in Hlt; [|exact Hb].
  rewrite div_mul in Hlt by (intros ->; now apply Qclt_not_eq in Hb).
  now apply Qcle_not_lt in Hle.
Qed.

Lemma exec_counters_nonneg schedule :
  ∀ s s',
    0 ≤ successful_operations (tester s) →
    0 ≤ failed_operations (tester s) →
    exec schedule s = Some s' →
    0 ≤ successful_operations (tester s')
    ∧ 0 ≤ failed_operations (tester s').
Proof.
  induction schedule as [|l schedule IH]; intros s s' Hs Hf Hexec.
  - now simplify_eq/=.
  - cbn in Hexec. destruct (step l s) as [s1|] eqn:Hstep; [|done].
    cbn in Hexec. apply step_counters in Hstep as (_ & ? & ?).
    eapply IH; [| |exact Hexec]; lia.
Qed.

(** X15.  The success rate that is printed lies between 0 and 100, and the
    throughput is not negative, in every state a schedule can reach. *)
Theorem reported_rates_are_in_range
    (cfg : TestConfig) (schedule : list label) (s : System) (seconds : Qc) :
  exec schedule (boot cfg) = Some s →
  ∃ rate per_second,
    success_rate (tester s) = Py.Normal rate
    ∧ throughput (tester s) seconds = Py.Normal per_second
    ∧ (0 ≤ rate)%Qc ∧ (rate ≤ Py.float 100)%Qc
    ∧ (0 ≤ per_second)%Qc.
Proof.
  intros Hexec.
  destruct (exec_counters_nonneg schedule (boot cfg) s) as (Hs & Hf);
    [done|done|exact Hexec|].
  pose proof (inv_counters _ _ (invariant_reachable cfg schedule s Hexec))
    as Htotal.
  rewrite success_rate_value, throughput_value.
  eexists _, _. split; [reflexivity|]. split; [reflexivity|].
  assert (0 ≤ Py.float 100)%Qc as H100 by (now apply (float_le 0 100)).
  split; [|split].
  - case_decide as Hpos; [|done].
    rewrite <- (Qcmult_0_l (Py.float 100)).
    apply Qcmult_le_compat_r; [|exact H100].
    apply le_div; [now apply (float_lt 0)|].
    rewrite Qcmult_0_l. now apply (float_le 0).
  - case_decide as Hpos; [|exact H100].
    rewrite <- (Qcmult_1_l (Py.float 100)) at 2.
    apply Qcmult_le_compat_r; [|exact H100].
    apply div_le; [now apply (float_lt 0)|].
    rewrite Qcmult_1_l. apply float_le. lia.
  - case_decide as Hpos; [|done].
    apply le_div; [exact Hpos|].
    rewrite Qcmult_0_l. apply (float_le 0). lia.
Qed.

Lemma reported_rates_are_in_range_witness :
  ∃ rate per_second,
    success_rate (tester sample_stopped_system) = Py.Normal rate
    ∧ throughput (tester sample_stopped_system) 1%Qc = Py.Normal per_second
    ∧ (0 ≤ rate)%Qc ∧ (rate ≤ Py.float 100)%Qc
    ∧ (0 ≤ per_second)%Qc.
Proof.
  apply (reported_rates_are_in_range sample_config sample_schedule
           sample_stopped_system 1%Qc).
  vm_compute. reflexivity.
Defined.

End Figures.

(** ** The latency statistics *)

Section LatencyOrder.
Implicit Types (x y m : Qc) (data : list Qc).

Lemma float_0 : Py.float 0 = 0%Qc.
Proof. apply Qc_is_canon. reflexivity. Qed.

Lemma float_length_cons {A : Type} (x : A) (l : list A) :
  Py.float (Z.of_nat (length (x :: l)))
  = (Py.float (Z.of_nat (length l)) + 1)%Qc.
Proof.
  cbn [length]. rewrite Nat2Z.inj_succ, <- Z.add_1_r. apply float_add.
Qed.

Lemma sum_lower m data :
  Forall (λ y, (m ≤ y)%Qc) data →
  (m * Py.float (Z.of_nat (length data)) ≤ Py.sum data)%Qc.
Proof.
  induction 1 as [|y data Hy Hall IH].
  - unfold Py.sum. cbn [foldr length].
    change (Z.of_nat 0) with 0. rewrite float_0.
    rewrite Qcmult_0_r. apply Qcle_refl.
  - rewrite float_length_cons. unfold Py.sum in *. cbn [foldr].
    replace (m * (Py.float (Z.of_nat (length data)) + 1))%Qc
      with (m + m * Py.float (Z.of_nat (length data)))%Qc by ring.
    now apply Qcplus_le_compat.
Qed.

Lemma sum_upper m data :
  Forall (λ y, (y ≤ m)%Qc) data →
  (Py.sum data ≤ m * Py.float (Z.of_nat (length data)))%Qc.
Proof.
  induction 1 as [|y data Hy Hall IH].
  - unfold Py.sum. cbn [foldr length].
    change (Z.of_nat 0) with 0. rewrite float_0.
    rewrite Qcmult_0_r. apply Qcle_refl.
  - rewrite float_length_cons. unfold Py.sum in *. cbn [foldr].
    replace (m * (Py.float (Z.of_nat (length data)) + 1))%Qc
      with (m + m * Py.float (Z.of_nat (length data)))%Qc by ring.
    now apply Qcplus_le_compat.
Qed.

(** X16.  The statistics of a non-empty list of latencies exist; the minimum
    and the maximum are latencies of the list that bound all the others,
    and the average lies between them. *)
Theorem latency_summary_is_ordered data :
  data ≠ [] →
  ∃ stats,
    latency_summary data = Py.Normal stats
    ∧ min_latency stats ∈ data
    ∧ max_latency stats ∈ data
    ∧ Forall (λ y, (min_latency stats ≤ y)%Qc ∧ (y ≤ max_latency stats)%Qc)
             data
    ∧ (min_latency stats ≤ avg_latency stats)%Qc
    ∧ (avg_latency stats ≤ max_latency stats)%Qc.
Proof.
  intros Hne. destruct data as [|x data]; [done|].
  destruct (foldl_min data x) as (Hmin_x & Hmin_all & Hmin_in).
  destruct (foldl_max data x) as (Hmax_x & Hmax_all & Hmax_in).
  cbn zeta in *.
  set (lo := foldl (λ m y, if decide (y < m)%Qc then y else m) x data) in *.
  set (hi := foldl (λ m y, if decide (m < y)%Qc then y else m) x data) in *.
  assert (Forall (λ y, (lo ≤ y)%Qc) (x :: data)) as Hlo by now constructor.
  assert (Forall (λ y, (y ≤ hi)%Qc) (x :: data)) as Hhi by now constructor.
  pose proof (sum_lower lo (x :: data) Hlo) as Hlower.
  pose proof (sum_upper hi (x :: data) Hhi) as Hupper.
  assert (0 < Py.float (Z.of_nat (length (x :: data))))%Qc as Hpos
    by (apply (float_lt 0); cbn [length]; lia).
  unfold latency_summary. rewrite mean_Normal by done.
  cbn -[Py.sum Py.float length percentile].
  rewrite !percentile_Normal by lia.
  cbn -[Py.sum Py.float length exclusive_cut].
  eexists. split; [reflexivity|].
  cbn -[Py.sum Py.float length exclusive_cut].
  split; [exact Hmin_in|]. split; [exact Hmax_in|]. split; [|split].
  - rewrite Forall_forall in Hlo, Hhi.
    apply Forall_forall. intros y Hy. split; auto.
  - apply le_div; [exact Hpos|exact Hlower].
  - apply div_le; [exact Hpos|exact Hupper].
Qed.

Lemma latency_summary_is_ordered_witness :
  ∃ stats,
    latency_summary example_latencies = Py.Normal stats
    ∧ min_latency stats ∈ example_latencies
    ∧ max_latency stats ∈ example_latencies
    ∧ Forall (λ y, (min_latency stats ≤ y)%Qc ∧ (y ≤ max_latency stats)%Qc)
             example_latencies
    ∧ (min_latency stats ≤ avg_latency stats)%Qc
    ∧ (avg_latency stats ≤ max_latency stats)%Qc.
Proof.
  apply (latency_summary_is_ordered example_latencies). discriminate.
Defined.

End LatencyOrder.

(** ** How many attempts a schedule can record *)

Section Resumptions.

Lemma step_counters_other (l : label) (s s' : System) :
  step l s = Some s' → is_ResumeWorker l = false →
  total_operations (tester s') = total_operations (tester s).
Proof.
  intros Hstep Hother. destruct l as [e interrupt|i e|e]; [|done|];
    cbn in Hstep.
  - destruct (main_task s) as [| |pending| |] eqn:Hmain; [| | |done|done].
    + rewrite run_test_start_run in Hstep. now simplify_eq/=.
    + rewrite run_test_stop_run in Hstep. now simplify_eq/=.
    + destruct (all_tasks_finished s); [|done].
      pose proof (respects_run_test_finish pending
                    (mkWorld e 0 [] (tester s))) as (_ & _ & Hself).
      unfold run in Hstep.
      destruct (run_test_finish pending _) as [r w]. cbn in *.
      simplify_eq/=. now rewrite <- Hself.
  - destruct (reporter_task s) as [pc|] eqn:Hpc; [|done]. cbn in Hstep.
    destruct (reporter_segment pc) as [segment|] eqn:Hseg; [|done].
    cbn in Hstep.
    pose proof (reporter_segment_effect pc segment
                  (mkWorld e 0 [] (tester s)) Hseg) as (_ & _ & Hself).
    unfold run in Hstep.
    destruct (segment (mkWorld e 0 [] (tester s))) as [r w]. cbn in *.
    simplify_eq/=. now rewrite <- Hself.
Qed.

Lemma exec_counters schedule :
  ∀ s s',
    exec schedule s = Some s' →
    total_operations (tester s)
    ≤ total_operations (tester s')
    ≤ total_operations (tester s) + worker_resumptions schedule.
Proof.
  unfold worker_resumptions.
  induction schedule as [|l schedule IH]; intros s s' Hexec.
  - simplify_eq/=. lia.
  - cbn in Hexec. destruct (step l s) as [s1|] eqn:Hstep; [|done].
    cbn in Hexec. specialize (IH s1 s' Hexec).
    pose proof (step_counters l s s1 Hstep) as (Hstep1 & _).
    rewrite filter_cons. destruct (is_ResumeWorker l) eqn:Hl.
    + rewrite decide_True by done. cbn [length]. lia.
    + rewrite decide_False by done.
      pose proof (step_counters_other l s s1 Hstep Hl). lia.
Qed.

(** X17.  A schedule records at most one attempt each time it resumes a
    worker, and none when it resumes [run_test] or the reporter. *)
Theorem attempts_are_bounded_by_resumptions
    (cfg : TestConfig) (schedule : list label) (s : System) :
  exec schedule (boot cfg) = Some s →
  0 ≤ total_operations (tester s) ≤ worker_resumptions schedule.
Proof.
  intros Hexec. now apply exec_counters in Hexec.
Qed.

Lemma attempts_are_bounded_by_resumptions_witness :
  0 ≤ total_operations (tester sample_stopped_system) ≤ 1.
Proof.
  apply (attempts_are_bounded_by_resumptions sample_config sample_schedule
           sample_stopped_system).
  vm_compute. reflexivity.
Defined.

Lemma step_worker_tasks cfg (l : label) (s s' : System) :
  invariant cfg s → step l s = Some s' →
  main_idle (main_task s') = false
  ∧ length (worker_tasks s')
    = (if main_idle (main_task s) then Z.to_nat (workers cfg)
       else length (worker_tasks s)).
Proof.
  intros Hinv Hstep. destruct l as [e interrupt|i e|e]; cbn in Hstep.
  - destruct (main_task s) as [| |pending| |] eqn:Hmain; [| | |done|done].
    + rewrite run_test_start_run in Hstep. simplify_eq/=.
      split; [done|]. rewrite length_fmap. unfold Py.range.
      rewrite length_seqZ, (inv_config _ _ Hinv). f_equal. lia.
    + rewrite run_test_stop_run in Hstep. simplify_eq/=. done.
    + destruct (all_tasks_finished s); [|done].
      destruct (run _ _ _) as [[] w]; now simplify_eq/=.
  - destruct (worker_tasks s !! i) as [pc|] eqn:Hpc; [|done]. cbn in Hstep.
    destruct (worker_segment i pc) as [segment|]; [|done]. cbn in Hstep.
    destruct (run _ _ _) as [r w]. simplify_eq/=.
    assert (main_idle (main_task s) = false) as Hmain.
    { destruct (main_task s) eqn:Hidle; try done.
      destruct (inv_idle _ _ Hinv Hidle) as (Hnone & _).
      now rewrite Hnone in Hpc. }
    split; [exact Hmain|]. rewrite Hmain. apply length_insert.
  - destruct (reporter_task s) as [pc|] eqn:Hpc; [|done]. cbn in Hstep.
    destruct (reporter_segment pc) as [segment|]; [|done]. cbn in Hstep.
    destruct (run _ _ _) as [r w]. simplify_eq/=.
    assert (main_idle (main_task s) = false) as Hmain.
    { destruct (main_task s) eqn:Hidle; try done.
      destruct (inv_idle _ _ Hinv Hidle) as (_ & Hnone & _).
      now rewrite Hnone in Hpc. }
    split; [exact Hmain|]. now rewrite Hmain.
Qed.

Lemma exec_worker_tasks cfg schedule :
  ∀ s s',
    invariant cfg s →
    length (worker_tasks s)
    = (if main_idle (main_task s) then 0%nat else Z.to_nat (workers cfg)) →
    (workers cfg ≤ 0 → total_operations (tester s) = 0) →
    exec schedule s = Some s' →
    length (worker_tasks s')
    = (if main_idle (main_task s') then 0%nat else Z.to_nat (workers cfg))
    ∧ (workers cfg ≤ 0 → total_operations (tester s') = 0).
Proof.
  induction schedule as [|l schedule IH]; intros s s' Hinv Htasks Hnone Hexec.
  - now simplify_eq/=.
  - cbn in Hexec. destruct (step l s) as [s1|] eqn:Hstep; [|done].
    cbn in Hexec.
    pose proof (invariant_step cfg l s s1 Hinv Hstep) as Hinv1.
    destruct (step_worker_tasks cfg l s s1 Hinv Hstep) as (Hmain1 & Hlen1).
    apply (IH s1 s' Hinv1); [| |exact Hexec].
    + rewrite Hmain1, Hlen1.
      destruct (main_idle (main_task s)); [reflexivity|exact Htasks].
    + intros Hworkers. specialize (Hnone Hworkers).
      destruct (is_ResumeWorker l) eqn:Hl.
      * destruct l as [|i e|]; try done. exfalso. cbn in Hstep.
        destruct (worker_tasks s) as [|pc tasks] eqn:Hnil; [done|].
        cbn in Htasks. destruct (main_idle (main_task s)); [done|]. lia.
      * now rewrite (step_counters_other l s s1 Hstep Hl).
Qed.

(** X18.  [run_test] creates one task per index of [range(workers)] and no
    step adds or removes one; with [--workers 0], or a negative number,
    there is no worker and no attempt is ever recorded. *)
Theorem run_test_creates_one_task_per_worker
    (cfg : TestConfig) (schedule : list label) (s : System) :
  exec schedule (boot cfg) = Some s →
  length (worker_tasks s)
  = (if main_idle (main_task s) then 0%nat else Z.to_nat (workers cfg))
  ∧ (workers cfg ≤ 0 → total_operations (tester s) = 0).
Proof.
  intros Hexec.
  apply (exec_worker_tasks cfg schedule (boot cfg) s);
    [apply invariant_boot|reflexivity|reflexivity|exact Hexec].
Qed.

Lemma run_test_creates_one_task_per_worker_witness :
  length (worker_tasks sample_stopped_system) = 10%nat.
Proof.
  destruct (run_test_creates_one_task_per_worker sample_config sample_schedule
              sample_stopped_system) as (Htasks & _).
  - vm_compute. reflexivity.
  - exact Htasks.
Defined.

End Resumptions.
